(** * TekAutomate: the SCPI manual extractors

    A shallow embedding of the command extraction scripts
    [scripts/extract_fast.py], [scripts/extract_scpi_from_word_font_aware.py]
    and [scripts/extract_scpi_from_word_font_aware_MSO.py]: the paragraph
    state machine, the finalize/merge step, the set/query syntax splitter,
    the parameter inference, the example splitter and the wildcard
    expansion, followed by the properties established about them.

    Text is modelled by Stdlib strings, whose characters are read as code
    points.  The manuals' command text is ASCII, and the character classes
    and case maps below are Python's on that range.  Python integers that
    hold positions ([str.find] and its [-1]) are [Z]; lengths are [nat]. *)

From Stdlib Require Import String Ascii List Bool Arith ZArith Lia DecimalString.
Import ListNotations.
Open Scope string_scope.

(** ** Python's [str] methods *)

Module PyStr.

Definition code (c : ascii) : nat := nat_of_ascii c.

(** [str.isspace] on one character: tab, newline, vertical tab, form
    feed, carriage return, the four separators 0x1c-0x1f and space.
    The model is that of ASCII text: of the characters above 0x7f, which
    Python also counts as white space (U+0085, U+00A0) or maps to
    another case, none is white space here and none changes case. *)
Definition isspace (c : ascii) : bool :=
  ((9 <=? code c)%nat && (code c <=? 13)%nat)
  || ((28 <=? code c)%nat && (code c <=? 32)%nat).

Definition isdigit (c : ascii) : bool :=
  (48 <=? code c)%nat && (code c <=? 57)%nat.
Definition isupper (c : ascii) : bool :=
  (65 <=? code c)%nat && (code c <=? 90)%nat.
Definition islower (c : ascii) : bool :=
  (97 <=? code c)%nat && (code c <=? 122)%nat.

Definition upper_char (c : ascii) : ascii :=
  if islower c then ascii_of_nat (code c - 32) else c.
Definition lower_char (c : ascii) : ascii :=
  if isupper c then ascii_of_nat (code c + 32) else c.

Fixpoint map_chars (f : ascii -> ascii) (s : string) : string :=
  match s with
  | EmptyString => EmptyString
  | String c t => String (f c) (map_chars f t)
  end.

Definition upper : string -> string := map_chars upper_char.
Definition lower : string -> string := map_chars lower_char.

(** Truth value of a string: [if s:] *)
Definition nonempty (s : string) : bool :=
  match s with EmptyString => false | _ => true end.

Fixpoint take (n : nat) (s : string) : string :=
  match n, s with
  | S k, String c t => String c (take k t)
  | _, _ => EmptyString
  end.

Fixpoint drop (n : nat) (s : string) : string :=
  match n, s with
  | S k, String _ t => drop k t
  | _, _ => s
  end.

Fixpoint lstrip (s : string) : string :=
  match s with
  | String c t => if isspace c then lstrip t else s
  | EmptyString => EmptyString
  end.

Fixpoint rstrip (s : string) : string :=
  match s with
  | EmptyString => EmptyString
  | String c t =>
      let t' := rstrip t in
      if isspace c && negb (nonempty t') then EmptyString else String c t'
  end.

Definition strip (s : string) : string := rstrip (lstrip s).

(** [s.split()]: the maximal runs of non-space characters. *)
Fixpoint split_ws_from (cur s : string) : list string :=
  match s with
  | EmptyString => if nonempty cur then [cur] else []
  | String c t =>
      if isspace c
      then (if nonempty cur then cur :: split_ws_from "" t
            else split_ws_from "" t)
      else split_ws_from (cur ++ String c "") t
  end.

Definition split_ws (s : string) : list string := split_ws_from "" s.

(** Index of the first occurrence of [sub] in [s]. *)
Fixpoint index_of (sub s : string) : option nat :=
  if prefix sub s then Some 0
  else match s with
       | EmptyString => None
       | String _ t => option_map S (index_of sub t)
       end.

(** [sub in s] *)
Definition contains (sub s : string) : bool :=
  match index_of sub s with Some _ => true | None => false end.

(** [s.find(sub, start)]: a negative [start] counts from the end, a
    [start] past the end finds nothing, and [-1] says not found. *)
Definition find (s sub : string) (start : Z) : Z :=
  let n := Z.of_nat (String.length s) in
  let st := if (start <? 0)%Z then Z.max 0 (start + n) else start in
  if (n <? st)%Z then (-1)%Z
  else match index_of sub (drop (Z.to_nat st) s) with
       | Some k => (st + Z.of_nat k)%Z
       | None => (-1)%Z
       end.

(** [s.count(sub)]: occurrences counted left to right without overlap;
    [skip] characters of the last occurrence are still to be passed. *)
Fixpoint count_from (sub s : string) (skip : nat) : nat :=
  match s with
  | EmptyString =>
      match skip with
      | O => if prefix sub s then 1 else 0
      | S _ => 0
      end
  | String _ t =>
      match skip with
      | S k => count_from sub t k
      | O => if prefix sub s then S (count_from sub t (String.length sub - 1))
             else count_from sub t 0
      end
  end.

Definition count (s sub : string) : nat :=
  match sub with
  | EmptyString => S (String.length s)
  | _ => count_from sub s 0
  end.

(** [s.split(sep)] for a non-empty separator. *)
Fixpoint split_fuel (fuel : nat) (sep s : string) : list string :=
  match fuel with
  | O => [s]
  | S f =>
      match index_of sep s with
      | None => [s]
      | Some k => take k s :: split_fuel f sep (drop (k + String.length sep) s)
      end
  end.

Definition split (s sep : string) : list string :=
  split_fuel (String.length s) sep s.

(** [s.split(sep, 1)] *)
Definition split_once (s sep : string) : list string :=
  match index_of sep s with
  | None => [s]
  | Some k => [take k s; drop (k + String.length sep) s]
  end.

(** [s.replace(old, new)] for a non-empty [old]. *)
Fixpoint replace_fuel (fuel : nat) (old new s : string) : string :=
  match fuel with
  | O => s
  | S f =>
      match index_of old s with
      | None => s
      | Some k =>
          take k s ++ new ++ replace_fuel f old new (drop (k + String.length old) s)
      end
  end.

Definition replace (s old new : string) : string :=
  replace_fuel (String.length s) old new s.

Definition join (sep : string) (l : list string) : string := String.concat sep l.

Definition startswith (s p : string) : bool := prefix p s.

Definition endswith (s p : string) : bool :=
  (String.length p <=? String.length s)%nat && (drop (String.length s - String.length p) s =? p).

(** [x in l] for a list of strings *)
Definition mem (x : string) (l : list string) : bool :=
  existsb (String.eqb x) l.

(** [l[0]] guarded by a default, as in [l[0] if l else d] *)
Definition head_or (d : string) (l : list string) : string :=
  match l with x :: _ => x | [] => d end.

End PyStr.

(** ** The fragment of Python's [re] that the scripts use

    A backtracking matcher with Python's search order: alternatives are
    tried left to right, [*] and [+] take as much as they can first, the
    lazy forms as little as they can, and a search returns the match with
    the leftmost start.  [ic] is the flag [re.IGNORECASE]. *)

Module Re.

Import PyStr.

Inductive regex : Type :=
| Lit (c : ascii)                        (* one literal character *)
| Cls (neg : bool) (p : ascii -> bool)   (* a class [[...]], [[^...]], [\s], [\d] *)
| Dot                                    (* [.]: any character but a newline *)
| Emp                                    (* the empty pattern *)
| Cat (r1 r2 : regex)
| Alt (r1 r2 : regex)
| Star (r : regex)                       (* greedy [r*] *)
| LazyStar (r : regex)                   (* [r*?] *)
| Grp (n : nat) (r : regex)              (* the [n]-th capturing group *)
| Bol                                    (* [^] *)
| Eol                                    (* [$] *)
| Ahead (r : regex).                     (* the lookahead [(?=r)] *)

Definition Plus (r : regex) : regex := Cat r (Star r).
Definition LazyPlus (r : regex) : regex := Cat r (LazyStar r).
Definition Opt (r : regex) : regex := Alt r Emp.

(** A literal word. *)
Fixpoint Str (s : string) : regex :=
  match s with
  | EmptyString => Emp
  | String c t => Cat (Lit c) (Str t)
  end.

(** [a|b|...] *)
Fixpoint Alts (l : list regex) : regex :=
  match l with
  | [] => Emp
  | [r] => r
  | r :: l' => Alt r (Alts l')
  end.

Definition space : regex := Cls false isspace.      (* [\s] *)
Definition digit : regex := Cls false isdigit.      (* [\d] *)
Definition one_of (s : string) (c : ascii) : bool :=
  contains (String c "") s.

Definition swapcase (c : ascii) : ascii :=
  if islower c then upper_char c else lower_char c.

Definition lit_matches (ic : bool) (c d : ascii) : bool :=
  Ascii.eqb c d || (ic && Ascii.eqb (upper_char c) (upper_char d)).

Definition cls_matches (ic neg : bool) (p : ascii -> bool) (d : ascii) : bool :=
  xorb neg (p d || (ic && p (swapcase d))).

(** Spans of the capturing groups matched so far. *)
Definition caps : Type := list (nat * (nat * nat)).

Definition newline : ascii := ascii_of_nat 10.

(** [run ic r i s g k]: match [r] against [s], the rest of the subject
    from position [i], and hand the position, rest and groups reached to
    [k]; when [k] refuses, the next way of matching [r] is tried. *)
Fixpoint run {A : Type} (ic : bool) (r : regex) (i : nat) (s : string)
    (g : caps) (k : nat -> string -> caps -> option A) : option A :=
  match r with
  | Lit c =>
      match s with
      | String d t => if lit_matches ic c d then k (S i) t g else None
      | EmptyString => None
      end
  | Cls neg p =>
      match s with
      | String d t => if cls_matches ic neg p d then k (S i) t g else None
      | EmptyString => None
      end
  | Dot =>
      match s with
      | String d t => if Ascii.eqb d newline then None else k (S i) t g
      | EmptyString => None
      end
  | Emp => k i s g
  | Cat r1 r2 => run ic r1 i s g (fun i' s' g' => run ic r2 i' s' g' k)
  | Alt r1 r2 =>
      match run ic r1 i s g k with
      | Some x => Some x
      | None => run ic r2 i s g k
      end
  | Star r1 =>
      (fix star (fuel : nat) (i : nat) (s : string) (g : caps) : option A :=
         match fuel with
         | O => k i s g
         | S f =>
             match run ic r1 i s g
                     (fun i' s' g' => if (i' =? i)%nat then None
                                      else star f i' s' g') with
             | Some x => Some x
             | None => k i s g
             end
         end) (S (String.length s)) i s g
  | LazyStar r1 =>
      (fix star (fuel : nat) (i : nat) (s : string) (g : caps) : option A :=
         match fuel with
         | O => k i s g
         | S f =>
             match k i s g with
             | Some x => Some x
             | None =>
                 run ic r1 i s g
                   (fun i' s' g' => if (i' =? i)%nat then None
                                    else star f i' s' g')
             end
         end) (S (String.length s)) i s g
  | Grp n r1 =>
      run ic r1 i s g (fun i' s' g' => k i' s' ((n, (i, i')) :: g'))
  | Bol => if (i =? 0)%nat then k i s g else None
  | Eol =>
      match s with
      | EmptyString => k i s g
      | String d EmptyString => if Ascii.eqb d newline then k i s g else None
      | _ => None
      end
  | Ahead r1 =>
      match run ic r1 i s g (fun _ _ g' => Some g') with
      | Some g' => k i s g'
      | None => None
      end
  end.

(** A match object: the subject, the span and the group spans. *)
Record rmatch : Type := mk_rmatch
  { subject : string; m_start : nat; m_end : nat; m_caps : caps }.

Definition match_at (ic : bool) (r : regex) (subj : string) (i : nat)
    (s : string) : option rmatch :=
  run ic r i s [] (fun e _ g => Some (mk_rmatch subj i e g)).

(** [re.match(r, s)] *)
Definition rmatch_ (ic : bool) (r : regex) (s : string) : option rmatch :=
  match_at ic r s 0 s.

Fixpoint search_from (ic : bool) (r : regex) (subj : string) (i : nat)
    (s : string) : option rmatch :=
  match match_at ic r subj i s with
  | Some m => Some m
  | None =>
      match s with
      | EmptyString => None
      | String _ t => search_from ic r subj (S i) t
      end
  end.

(** [re.search(r, s)] *)
Definition search (ic : bool) (r : regex) (s : string) : option rmatch :=
  search_from ic r s 0 s.

(** Truth value of [re.search(...)] / [re.match(...)] *)
Definition found (m : option rmatch) : bool :=
  match m with Some _ => true | None => false end.

Fixpoint cap_lookup (n : nat) (g : caps) : option (nat * nat) :=
  match g with
  | [] => None
  | (n', sp) :: g' => if (n =? n')%nat then Some sp else cap_lookup n g'
  end.

(** [m.group(n)]; [group 0] is the whole match.  A group that took no
    part in the match reads as the empty string here. *)
Definition group (m : rmatch) (n : nat) : string :=
  match n with
  | O => take (m_end m - m_start m) (drop (m_start m) (subject m))
  | _ =>
      match cap_lookup n (m_caps m) with
      | Some (a, b) => take (b - a) (drop a (subject m))
      | None => ""
      end
  end.

(** [re.finditer(r, s)]: the matches found left to right, each search
    resuming where the last match ended. *)
Fixpoint finditer_fuel (fuel : nat) (ic : bool) (r : regex) (subj : string)
    (i : nat) : list rmatch :=
  match fuel with
  | O => []
  | S f =>
      match search_from ic r subj i (drop i subj) with
      | None => []
      | Some m =>
          m :: finditer_fuel f ic r subj
                 (if (m_end m =? m_start m)%nat then S (m_end m) else m_end m)
      end
  end.

Definition finditer (ic : bool) (r : regex) (s : string) : list rmatch :=
  finditer_fuel (S (String.length s)) ic r s 0.

(** [re.sub(r, repl, s)] for a literal replacement. *)
Fixpoint sub_from (ms : list rmatch) (repl s : string) (pos : nat) : string :=
  match ms with
  | [] => drop pos s
  | m :: ms' =>
      take (m_start m - pos) (drop pos s) ++ repl
      ++ sub_from ms' repl s (m_end m)
  end.

Definition sub (ic : bool) (r : regex) (repl s : string) : string :=
  sub_from (finditer ic r s) repl s 0.

(** [re.split(r, s, maxsplit=1)] for a pattern without capturing groups
    that cannot match the empty string. *)
Definition split1 (ic : bool) (r : regex) (s : string) : list string :=
  match search ic r s with
  | Some m => [take (m_start m) s; drop (m_end m) s]
  | None => [s]
  end.

End Re.

(** ** [scripts/extract_fast.py] *)

Module Fast.

Import PyStr Re.

(** *** The command index (lines 19-25 and 60-75)

    The module [command_groups_mapping] is not part of the sources read
    here; its dictionary [COMMAND_GROUPS] is a parameter: the groups in
    the dictionary's order, each with its list of commands. *)

Definition command_groups : Type := list (string * list string).

(** [ALL_COMMANDS]: every command of every group, in order. *)
Definition ALL_COMMANDS (G : command_groups) : list string :=
  flat_map snd G.

(** [COMMAND_TO_GROUP.get(cmd)]: the assignment made last stands. *)
Fixpoint COMMAND_TO_GROUP (G : command_groups) (cmd : string) : option string :=
  match G with
  | [] => None
  | (group_name, cmds) :: G' =>
      match COMMAND_TO_GROUP G' cmd with
      | Some g => Some g
      | None => if mem cmd cmds then Some group_name else None
      end
  end.

(** Truth value of an optional string: neither [None] nor [""]. *)
Definition truthy (o : option string) : bool :=
  match o with Some s => nonempty s | None => false end.

(** Truth value of an optional list: neither [None] nor [[]]. *)
Definition truthy_list {A : Type} (o : option (list A)) : bool :=
  match o with Some (_ :: _) => true | _ => false end.

Definition is_command_in_master_list (G : command_groups) (text : string)
  : option string :=
  if negb (nonempty text) then None
  else
    let text_upper := strip (upper text) in
    (* Direct match *)
    let direct :=
      if mem text_upper (map upper (ALL_COMMANDS G))
      then List.find (fun c => upper c =? text_upper) (ALL_COMMANDS G)
      else None in
    match direct with
    | Some c => Some c
    | None =>
        (* Placeholder pattern match *)
        let pattern_text := sub false (Plus digit) "<x>" text_upper in
        List.find (fun cmd => pattern_text =? upper cmd) (ALL_COMMANDS G)
    end.

(** *** Paragraphs and fonts (lines 29-58) *)

Record run : Type := mk_run
  { run_text : string;
    font_name : option string;          (* [run.font.name] *)
    style_font_name : option string }.  (* [run.style.font.name] *)

Record paragraph : Type := mk_paragraph
  { text : string; runs : list run }.

Definition get_font_name (r : run) : option string :=
  if truthy (font_name r) then font_name r
  else if truthy (style_font_name r) then style_font_name r
  else None.

Definition is_tahoma (r : run) : bool :=
  match get_font_name r with
  | Some n => contains "tahoma" (lower n)
  | None => false
  end.

Definition is_courier_new (r : run) : bool :=
  match get_font_name r with
  | Some n => contains "courier" (lower n) && contains "new" (lower n)
  | None => false
  end.

Definition font_text (is_font : run -> bool) (p : paragraph) : option string :=
  match map (fun r => strip (run_text r)) (filter is_font (runs p)) with
  | [] => None
  | parts => Some (join " " parts)
  end.

Definition extract_courier_new_text : paragraph -> option string :=
  font_text is_courier_new.
Definition extract_tahoma_text : paragraph -> option string :=
  font_text is_tahoma.

Definition clean_text (buffer : list string) : string :=
  join (String newline "")
       (map strip (filter (fun line => nonempty (strip line)) buffer)).

(** *** Records and the parser state (lines 94-97 and 253-264) *)

Record example : Type := mk_example
  { ex_scpi : string; ex_description : string }.

(** The dictionary built for a command at its header.  The key ["notes"]
    is set at creation, so it is a plain list. *)
Record cmd : Type := mk_cmd
  { scpi : string;
    description : option string;
    conditions : option string;
    group : option string;
    syntax : list string;
    relatedCommands : option (list string);
    arguments : option string;
    examples : option (list example);
    returns : option string;
    notes : list string }.

Inductive section : Type :=
| SEARCHING | DESCRIPTION | CONDITIONS | GROUP | SYNTAX
| ARGUMENTS | EXAMPLES | RETURNS | RELATED.

(** The module-level variables of the paragraph loop.  [commands] is the
    output dictionary in insertion order.  [finalized] is a ghost field,
    absent from the script: the history of the records handed to the
    store step of [finalize_command], before any merge. *)
Record parser : Type := mk_parser
  { commands : list (string * cmd);
    current_cmd : option cmd;
    state : section;
    buffer : list string;
    finalized : list cmd }.

Definition initial : parser :=
  {| commands := []; current_cmd := None; state := SEARCHING;
     buffer := []; finalized := [] |}.

(** Field updates on a record. *)
Definition set_description v c := mk_cmd (scpi c) v (conditions c) (group c)
  (syntax c) (relatedCommands c) (arguments c) (examples c) (returns c) (notes c).
Definition set_conditions v c := mk_cmd (scpi c) (description c) v (group c)
  (syntax c) (relatedCommands c) (arguments c) (examples c) (returns c) (notes c).
Definition set_group v c := mk_cmd (scpi c) (description c) (conditions c) v
  (syntax c) (relatedCommands c) (arguments c) (examples c) (returns c) (notes c).
Definition set_syntax v c := mk_cmd (scpi c) (description c) (conditions c)
  (group c) v (relatedCommands c) (arguments c) (examples c) (returns c) (notes c).
Definition set_relatedCommands v c := mk_cmd (scpi c) (description c)
  (conditions c) (group c) (syntax c) v (arguments c) (examples c) (returns c)
  (notes c).
Definition set_arguments v c := mk_cmd (scpi c) (description c) (conditions c)
  (group c) (syntax c) (relatedCommands c) v (examples c) (returns c) (notes c).
Definition set_examples v c := mk_cmd (scpi c) (description c) (conditions c)
  (group c) (syntax c) (relatedCommands c) (arguments c) v (returns c) (notes c).
Definition set_returns v c := mk_cmd (scpi c) (description c) (conditions c)
  (group c) (syntax c) (relatedCommands c) (arguments c) (examples c) v (notes c).
Definition set_notes v c := mk_cmd (scpi c) (description c) (conditions c)
  (group c) (syntax c) (relatedCommands c) (arguments c) (examples c)
  (returns c) v.

(** *** The example splitter inside [save_current_section] (lines 128-149) *)

Definition words (l : list string) : regex := Alts (map Str l).

(** [\s+might\s+return\s+] *)
Definition re_might_return : regex :=
  Cat (Plus space) (Cat (Str "might") (Cat (Plus space)
    (Cat (Str "return") (Plus space)))).

(** [^(.+?)\s+(sets|queries|returns|indicates|specifies)\s+(.+)$] *)
Definition re_verb : regex :=
  Cat Bol (Cat (Grp 1 (LazyPlus Dot)) (Cat (Plus space)
    (Cat (Grp 2 (words ["sets"; "queries"; "returns"; "indicates"; "specifies"]))
      (Cat (Plus space) (Cat (Grp 3 (Plus Dot)) Eol))))).

(** [^([A-Z0-9:<>?\s\-_]+?)\s+([a-z].* )$], the last group written with a space before its parenthesis *)
Definition re_lowercase : regex :=
  Cat Bol
    (Cat (Grp 1 (LazyPlus (Cls false (fun c =>
            isupper c || isdigit c || one_of ":<>?-_" c || isspace c))))
      (Cat (Plus space)
        (Cat (Grp 2 (Cat (Cls false islower) (Star Dot))) Eol))).

Definition split_example (line : string) : example :=
  let by_verb :=
    match rmatch_ true re_verb line with
    | Some m => mk_example (strip (Re.group m 1)) (Re.group m 2 ++ " " ++ Re.group m 3)
    | None =>
        match rmatch_ false re_lowercase line with
        | Some m => mk_example (strip (Re.group m 1)) (strip (Re.group m 2))
        | None => mk_example line ""
        end
    end in
  if contains "might return" (lower line)
  then match split1 true re_might_return line with
       | [scpi_part; desc] =>
           mk_example (strip scpi_part) ("might return " ++ strip desc)
       | _ => by_verb
       end
  else by_verb.

(** *** [save_current_section] (lines 99-157) *)

Definition save_section (G : command_groups) (st : section)
    (buffer : list string) (c : cmd) : cmd :=
  let text_content := clean_text buffer in
  match st with
  | DESCRIPTION => set_description (Some text_content) c
  | CONDITIONS => set_conditions (Some text_content) c
  | GROUP =>
      let first_line := match buffer with b :: _ => strip b | [] => "" end in
      let mapped := COMMAND_TO_GROUP G (scpi c) in
      set_group (Some (if truthy mapped
                       then match mapped with Some g => g | None => "" end
                       else first_line)) c
  | SYNTAX =>
      match filter nonempty (map strip buffer) with
      | [] => c
      | syntax_lines => set_syntax (syntax c ++ syntax_lines)%list c
      end
  | ARGUMENTS => set_arguments (Some text_content) c
  | EXAMPLES =>
      match buffer with
      | [] => c
      | _ =>
          let old := if truthy_list (examples c)
                     then match examples c with Some l => l | None => [] end
                     else [] in
          set_examples
            (Some (old ++ map split_example
                            (filter nonempty (map strip buffer)))%list) c
      end
  | RETURNS => set_returns (Some text_content) c
  | RELATED =>
      match filter (fun w => truthy (is_command_in_master_list G w))
                   (map strip (split_ws text_content)) with
      | [] => c
      | related => set_relatedCommands (Some related) c
      end
  | SEARCHING => c
  end.

Definition save_current_section (G : command_groups) (p : parser) : parser :=
  match current_cmd p with
  | None => p
  | Some c =>
      {| commands := commands p;
         current_cmd := Some (save_section G (state p) (buffer p) c);
         state := state p; buffer := []; finalized := finalized p |}
  end.

(** *** [finalize_command] (lines 159-192) *)

(** [COMMAND_TO_GROUP.get(key, "Miscellaneous")] *)
Definition group_or_miscellaneous (G : command_groups) (key : string) : string :=
  match COMMAND_TO_GROUP G key with
  | Some g => g
  | None => "Miscellaneous"
  end.

(** The group assignment and the normalisation of empty fields. *)
Definition normalize (G : command_groups) (c : cmd) : cmd :=
  let c := set_group (Some (group_or_miscellaneous G (scpi c))) c in
  let c := if truthy_list (relatedCommands c) then c
           else set_relatedCommands None c in
  let c := if truthy (conditions c) then c else set_conditions None c in
  let c := if truthy (returns c) then c else set_returns None c in
  let c := if truthy_list (examples c) then c else set_examples None c in
  let c := if truthy (arguments c) then c else set_arguments None c in
  c.

(** [if not existing.get(key) and current_cmd.get(key): existing[key] = ...] *)
Definition absorb {A : Type} (t : option A -> bool) (existing current : option A)
  : option A :=
  if negb (t existing) && t current then current else existing.

(** The branch taken when the key is already in [commands]. *)
Definition merge (existing current : cmd) : cmd :=
  let e := set_description
             (absorb truthy (description existing) (description current))
             existing in
  let e := set_group (absorb truthy (group e) (group current)) e in
  let e := set_arguments (absorb truthy (arguments e) (arguments current)) e in
  let e := set_examples
             (absorb truthy_list (examples e) (examples current)) e in
  let e := set_conditions
             (absorb truthy (conditions e) (conditions current)) e in
  let e := set_returns (absorb truthy (returns e) (returns current)) e in
  match syntax current with
  | [] => e
  | _ =>
      set_syntax
        (syntax e ++ filter (fun s => negb (mem s (syntax e))) (syntax current))%list
        e
  end.

Fixpoint lookup (key : string) (d : list (string * cmd)) : option cmd :=
  match d with
  | [] => None
  | (k, v) :: d' => if k =? key then Some v else lookup key d'
  end.

(** Update the record stored under [key], keeping its place. *)
Fixpoint update (key : string) (f : cmd -> cmd) (d : list (string * cmd))
  : list (string * cmd) :=
  match d with
  | [] => []
  | (k, v) :: d' =>
      if k =? key then (k, f v) :: d' else (k, v) :: update key f d'
  end.

(** The store step: merge into the record already there, or insert. *)
Definition store (d : list (string * cmd)) (c : cmd) : list (string * cmd) :=
  match lookup (scpi c) d with
  | Some _ => update (scpi c) (fun existing => merge existing c) d
  | None => (d ++ [(scpi c, c)])%list
  end.

Definition finalize_command (G : command_groups) (p : parser) : parser :=
  match current_cmd p with
  | None => p
  | Some c =>
      let c' := normalize G (save_section G (state p) (buffer p) c) in
      {| commands := store (commands p) c';
         current_cmd := None; state := SEARCHING; buffer := [];
         finalized := (finalized p ++ [c'])%list |}
  end.

(** *** The paragraph loop (lines 197-283) *)

(** The section a keyword line opens (lines 216-243). *)
Definition keyword (line_lower : string) : option section :=
  if mem line_lower ["conditions"; "condition"] then Some CONDITIONS
  else if line_lower =? "group" then Some GROUP
  else if line_lower =? "syntax" then Some SYNTAX
  else if mem line_lower ["arguments"; "argument"] then Some ARGUMENTS
  else if mem line_lower ["examples"; "example"] then Some EXAMPLES
  else if mem line_lower ["returns"; "return"] then Some RETURNS
  else if contains "related commands" line_lower || (line_lower =? "related")
  then Some RELATED
  else None.

(** The header test (lines 246-251): the first word of the Tahoma text
    is a command of the master list. *)
Definition header_of (G : command_groups) (para : paragraph) : option string :=
  match extract_tahoma_text para with
  | Some tahoma_text =>
      if nonempty tahoma_text then
        match split_ws tahoma_text with
        | w :: _ =>
            match is_command_in_master_list G w with
            | Some matched => if nonempty matched then Some matched else None
            | None => None
            end
        | [] => None
        end
      else None
  | None => None
  end.

Definition new_cmd (G : command_groups) (matched : string) : cmd :=
  {| scpi := matched; description := None; conditions := None;
     group := COMMAND_TO_GROUP G matched; syntax := [];
     relatedCommands := None; arguments := None; examples := None;
     returns := None; notes := [] |}.

Definition with_state (s : section) (p : parser) : parser :=
  {| commands := commands p; current_cmd := current_cmd p; state := s;
     buffer := buffer p; finalized := finalized p |}.

Definition with_current (c : option cmd) (p : parser) : parser :=
  {| commands := commands p; current_cmd := c; state := state p;
     buffer := buffer p; finalized := finalized p |}.

Definition with_buffer (b : list string) (p : parser) : parser :=
  {| commands := commands p; current_cmd := current_cmd p; state := state p;
     buffer := b; finalized := finalized p |}.

Definition is_syntax (s : section) : bool :=
  match s with SYNTAX => true | _ => false end.
Definition is_searching (s : section) : bool :=
  match s with SEARCHING => true | _ => false end.

(** One turn of the loop body. *)
Definition step (G : command_groups) (p : parser) (para : paragraph) : parser :=
  let line := strip (text para) in
  if negb (nonempty line) then p
  else
    let line_lower := lower line in
    (* Notes *)
    if startswith line_lower "note" then
      match current_cmd p with
      | Some c => with_current (Some (set_notes (notes c ++ [line])%list c)) p
      | None => p
      end
    else
      (* Keywords *)
      match keyword line_lower with
      | Some s => with_state s (save_current_section G p)
      | None =>
          (* Command header detection (Tahoma font) *)
          match header_of G para with
          | Some matched =>
              with_buffer []
                (with_state DESCRIPTION
                   (with_current (Some (new_cmd G matched))
                      (finalize_command G p)))
          | None =>
              (* Syntax capture (Courier New font) *)
              let captured :=
                match current_cmd p, extract_courier_new_text para with
                | Some c, Some courier_text =>
                    if is_syntax (state p) && nonempty courier_text
                    then Some (set_syntax
                                 (syntax c ++ [strip courier_text])%list c)
                    else None
                | _, _ => None
                end in
              match captured with
              | Some c' => with_current (Some c') p
              | None =>
                  (* Buffer content *)
                  match current_cmd p with
                  | Some _ =>
                      if negb (is_searching (state p))
                      then with_buffer (buffer p ++ [line])%list p
                      else p
                  | None => p
                  end
              end
          end
      end.

(** The whole pass: the loop, then "Finalize last command". *)
Definition feed (G : command_groups) (p : parser) (doc : list paragraph)
  : parser := fold_left (step G) doc p.

Definition extract (G : command_groups) (doc : list paragraph) : parser :=
  finalize_command G (feed G initial doc).

(** The role the loop body gives a paragraph: the branch it takes. *)
Inductive role : Type :=
| HEADER (mnemonic : string)
| SECTION (name : section)
| CONTENT.

Definition classify (G : command_groups) (para : paragraph) : role :=
  let line := strip (text para) in
  if negb (nonempty line) then CONTENT
  else if startswith (lower line) "note" then CONTENT
  else match keyword (lower line) with
       | Some s => SECTION s
       | None =>
           match header_of G para with
           | Some matched => HEADER matched
           | None => CONTENT
           end
       end.

Definition is_header (G : command_groups) (para : paragraph) : bool :=
  match classify G para with HEADER _ => true | _ => false end.

(** *** The set/query syntax splitter (lines 387-424 and 565-631) *)

(** [header = cmd_key.split(" ")[0].split("?")[0]] *)
Definition header_text (cmd_key : string) : string :=
  head_or "" (split (head_or "" (split cmd_key " ")) "?").

(** The branch "split on the command header that appears twice": the
    parts before and from the second occurrence, both stripped. *)
Definition double_header_split (header s : string) : option (string * string) :=
  if nonempty header && (2 <=? count s header)%nat then
    let first_pos := find s header 0 in
    let second_pos :=
      find s header (first_pos + Z.of_nat (String.length header)) in
    if (0 <? second_pos)%Z
    then Some (strip (take (Z.to_nat second_pos) s),
               strip (drop (Z.to_nat second_pos) s))
    else None
  else None.

Definition alpha_colon (c : ascii) : bool :=
  isupper c || islower c || one_of ":" c.

(** [\s+([A-Za-z:]+(?:<x>)?[A-Za-z:]*\?)\s*$] *)
Definition re_query_tail : regex :=
  Cat (Plus space)
    (Cat (Grp 1 (Cat (Plus (Cls false alpha_colon))
                   (Cat (Opt (Str "<x>"))
                      (Cat (Star (Cls false alpha_colon)) (Lit "?")))))
       (Cat (Star space) Eol)).

Definition has_argument_marker (s : string) : bool :=
  contains "{" s || contains "<NR" s || contains "<QString" s.

(** The branch "try regex pattern": a set form with arguments before a
    trailing query token. *)
Definition query_tail_split (s : string) : option (string * string) :=
  match search false re_query_tail s with
  | Some query_match =>
      let potential_set := strip (take (m_start query_match) s) in
      let potential_query := strip (Re.group query_match 1) in
      if nonempty potential_set && has_argument_marker potential_set
      then Some (potential_set, potential_query)
      else None
  | None => None
  end.

(** [x = v] under the guard [if not x] *)
Definition unless_set (x v : string) : string :=
  if nonempty x then x else v.

(** One turn of the loop at lines 568-617 on [(set_syntax, query_syntax)]. *)
Definition split_step (cmd_key : string) (acc : string * string)
    (raw : string) : string * string :=
  let '(set_syntax, query_syntax) := acc in
  let s := strip raw in
  if negb (nonempty s) then acc
  else if contains "?" s then
    match double_header_split (header_text cmd_key) s with
    | Some (potential_set, potential_query) =>
        (if nonempty potential_set then unless_set set_syntax potential_set
         else set_syntax,
         if nonempty potential_query then unless_set query_syntax potential_query
         else query_syntax)
    | None =>
        match query_tail_split s with
        | Some (potential_set, potential_query) =>
            (unless_set set_syntax potential_set,
             unless_set query_syntax potential_query)
        | None => (set_syntax, unless_set query_syntax s)
        end
    end
  else (unless_set set_syntax s, query_syntax).

Definition split_syntax (cmd_key : string) (syntax_lines : list string)
  : string * string :=
  fold_left (split_step cmd_key) syntax_lines ("", "").

(** Lines 557-563. *)
Definition is_query_only (cmd_key desc : string) (syntax_lines : list string)
  : bool :=
  contains "query-only" (lower desc)
  || contains "(query only)" (lower desc)
  || contains "(Query Only)" desc
  || (endswith cmd_key "?"
      && negb (existsb (fun s => negb (contains "?" s))
                 (filter (fun s => nonempty (strip s)) syntax_lines))).

(** Lines 619-631 and 669: the forms written to the entry; [None] is an
    entry without a set form. *)
Definition manual_syntax (cmd_key desc : string) (syntax_lines : list string)
  : option string * string :=
  let '(set_syntax, query_syntax) := split_syntax cmd_key syntax_lines in
  let synthesized := if endswith cmd_key "?" then cmd_key else cmd_key ++ "?" in
  if is_query_only cmd_key desc syntax_lines
  then (None, unless_set query_syntax synthesized)
  else
    let set_syntax :=
      if negb (nonempty set_syntax) && negb (endswith cmd_key "?")
      then replace cmd_key "?" "" else set_syntax in
    (if nonempty set_syntax then Some set_syntax else None,
     unless_set query_syntax synthesized).

(** One turn of the loop at lines 387-424 on
    [(set_syntax_lines, query_syntax_lines)]. *)
Definition separate_step (cmd_key : string) (acc : list string * list string)
    (raw : string) : list string * list string :=
  let '(set_syntax_lines, query_syntax_lines) := acc in
  let s := strip raw in
  if negb (nonempty s) then acc
  else if contains "?" s then
    match double_header_split (header_text cmd_key) s with
    | Some (set_part, query_part) =>
        (if nonempty set_part then set_syntax_lines ++ [set_part]
         else set_syntax_lines,
         if nonempty query_part then query_syntax_lines ++ [query_part]
         else query_syntax_lines)%list
    | None =>
        match query_tail_split s with
        | Some (potential_set, potential_query) =>
            (set_syntax_lines ++ [potential_set],
             query_syntax_lines ++ [potential_query])%list
        | None => (set_syntax_lines, query_syntax_lines ++ [s])%list
        end
    end
  else ((set_syntax_lines ++ [s])%list, query_syntax_lines).

Definition separate (cmd_key : string) (syntax_lines : list string)
  : list string * list string :=
  fold_left (separate_step cmd_key) syntax_lines ([], []).

(** *** Parameters built from the syntax (lines 294-545)

    A parameter dictionary is modelled by the fields that identify it:
    its name, its type, its options and, where the script gives them, its
    bounds.  The keys ["required"] (always [True]), ["default"] and
    ["description"] are display data and take no part in deciding which
    parameters are emitted; they are left out. *)

Inductive ptype : Type := Integer | Number | Float | StringT | Enumeration.

Record param : Type := mk_param
  { p_name : string; p_type : ptype; p_options : list string;
    p_range : option (nat * nat) }.

Definition ptype_eqb (a b : ptype) : bool :=
  match a, b with
  | Integer, Integer | Number, Number | Float, Float
  | StringT, StringT | Enumeration, Enumeration => true
  | _, _ => false
  end.

(** [f'{prefix}{i}' for i in range(1, n + 1)] *)
Definition numbered (prefix : string) (n : nat) : list string :=
  map (fun i => prefix ++ NilEmpty.string_of_uint (Nat.to_uint i)) (seq 1 n).

(** [MNEMONIC_DEFINITIONS]: the pattern and the parameter name of each. *)
Definition MNEMONIC_DEFINITIONS : list (string * string) :=
  [ ("B<x>", "bus"); ("CH<x>_D<x>", "channel"); ("CH<x>", "channel");
    ("CURSOR<x>", "cursor"); ("MATH<x>", "math"); ("MEAS<x>", "measurement");
    ("REF<x>_D<x>", "reference"); ("REF<x>", "reference");
    ("WAVEView<x>", "waveview"); ("PLOTView<x>", "plotview");
    ("MATHFFTView<x>", "mathfftview"); ("SEARCH<x>", "search");
    ("ZOOM<x>", "zoom"); ("POWer<x>", "power"); ("HISTogram<x>", "histogram");
    ("PLOT<x>", "plot"); ("D<x>", "digital_bit"); ("MASK<x>", "mask");
    ("CALLOUTS<x>", "callout"); ("ACTONEVent<x>", "actonevent");
    ("LICENSE<x>", "license"); ("RAIL<x>", "rail"); ("SOURCE<x>", "source_num") ].

(** The pair [(params, param_names)] threaded through the steps. *)
Definition pstate : Type := (list param * list string)%type.

(** [params.append(p); param_names.add(key)] under [if key not in param_names] *)
Definition emit (key : string) (p : param) (acc : pstate) : pstate :=
  if mem key (snd acc) then acc
  else ((fst acc ++ [p])%list, (snd acc ++ [key])%list).

Definition mnemonic_step (cmd_key : string) (acc : pstate)
    (d : string * string) : pstate :=
  if found (search true (Str (fst d)) cmd_key)
  then emit (snd d) (mk_param (snd d) Integer [] None) acc
  else acc.

(** [[o.strip() for o in text.split('|') if o.strip()]] *)
Definition bar_options (text : string) : list string :=
  filter nonempty (map strip (split text "|")).

(** [\{([A-Z|]+)\}] *)
Definition re_header_enum : regex :=
  Cat (Lit "{") (Cat (Grp 1 (Plus (Cls false (fun c => isupper c || one_of "|" c))))
                   (Lit "}")).

Definition header_enum_step (cmd_key : string) (acc : pstate) : pstate :=
  match search true re_header_enum cmd_key with
  | Some m =>
      match bar_options (Re.group m 1) with
      | [] => acc
      | header_options =>
          emit "trigger_type"
               (mk_param "trigger_type" Enumeration header_options None) acc
      end
  | None => acc
  end.

Definition not_brace (c : ascii) : bool := negb (one_of "}" c).

(** [<NR[123]>] *)
Definition re_nr : regex :=
  Cat (Str "<NR") (Cat (Cls false (one_of "123")) (Lit ">")).

(** [\{[^}]*X[^}]*\}] *)
Definition in_braces (x : regex) : regex :=
  Cat (Lit "{") (Cat (Star (Cls false not_brace))
    (Cat x (Cat (Star (Cls false not_brace)) (Lit "}")))).

Definition numeric_step (combined_text : string) (acc : pstate) : pstate :=
  if found (search false re_nr combined_text)
     && negb (found (search false (in_braces re_nr) combined_text))
  then emit "value"
         (mk_param "value"
            (if contains "<NR1>" combined_text then Integer else Number) [] None)
         acc
  else acc.

Definition qstring_step (combined_text : string) (acc : pstate) : pstate :=
  if found (search true (Str "<QString>") combined_text)
     && negb (found (search true (in_braces (Str "<QString>")) combined_text))
  then emit "value" (mk_param "value" StringT [] None) acc
  else acc.

(** [\{([^}]+)\}] *)
Definition re_braces : regex :=
  Cat (Lit "{") (Cat (Grp 1 (Plus (Cls false not_brace))) (Lit "}")).

(** [re.match(r'^W$', opt, re.IGNORECASE)] *)
Definition is_word (w opt : string) : bool :=
  found (rmatch_ true (Cat Bol (Cat (Str w) Eol)) opt).

(** What one option contributes to [expanded_options], and whether it
    sets [has_mnemonic] (lines 462-487). *)
Definition expand_option (opt : string) : list string * bool :=
  if is_word "CH<x>" opt then (numbered "CH" 8, true)
  else if is_word "MATH<x>" opt then (numbered "MATH" 4, true)
  else if is_word "REF<x>" opt then (numbered "REF" 4, true)
  else if is_word "B<x>" opt then (numbered "B" 8, true)
  else if is_word "MEAS<x>" opt then (numbered "MEAS" 8, true)
  else if startswith opt "<" && endswith opt ">" then
    let placeholder_name :=
      lower (take (String.length opt - 2) (drop 1 opt)) in
    if contains "path" placeholder_name || contains "file" placeholder_name
       || contains "string" placeholder_name
    then (["<custom>"], false)
    else if contains "nr" (lower placeholder_name) then (["<number>"], false)
    else ([], false)
  else ([opt], false).

(** [len(opt) == 1 and opt.isupper()] *)
Definition single_upper (opt : string) : bool :=
  match opt with
  | String c EmptyString => isupper c
  | _ => false
  end.

(** The body of the loop over the brace groups of a set line. *)
Definition brace_step (acc : pstate) (m : rmatch) : pstate :=
  match bar_options (Re.group m 1) with
  | [] => acc
  | (placeholder :: _) as raw_options =>
      if forallb single_upper raw_options then acc
      else
        let expanded := map expand_option raw_options in
        let expanded_options := flat_map fst expanded in
        let has_mnemonic := existsb snd expanded in
        match expanded_options with
        | [] =>
            if contains "NR" (upper placeholder)
            then emit "value" (mk_param "value" Number [] None) acc
            else if contains "string" (lower placeholder)
                    || contains "path" (lower placeholder)
            then emit "value" (mk_param "value" StringT [] None) acc
            else acc
        | _ =>
            emit "value"
              (mk_param (if has_mnemonic then "source" else "value")
                 Enumeration expanded_options None) acc
        end
  end.

Definition braces_step (acc : pstate) (s : string) : pstate :=
  fold_left brace_step (finditer false re_braces s) acc.

(** [^-?\d+\.?\d*$] *)
Definition re_number : regex :=
  Cat Bol (Cat (Opt (Lit "-")) (Cat (Plus digit)
    (Cat (Opt (Lit ".")) (Cat (Star digit) Eol)))).

Definition numeric_example (ex : example) : bool :=
  if contains "?" (ex_scpi ex) then false
  else match rev (split_ws (ex_scpi ex)) with
       | value_part :: _ :: _ => found (rmatch_ false re_number value_part)
       | _ => false
       end.

Definition example_step (exs : option (list example)) (acc : pstate) : pstate :=
  if negb (mem "value" (snd acc)) && truthy_list exs
     && existsb numeric_example (match exs with Some l => l | None => [] end)
  then emit "value" (mk_param "value" Number [] None) acc
  else acc.

Definition description_step (cmd_key desc args_text : string)
    (set_syntax_lines : list string) (acc : pstate) : pstate :=
  if negb (mem "value" (snd acc)) && contains "sets" (lower desc)
     && negb (endswith cmd_key "?")
     && match set_syntax_lines with [] => false | _ => true end
     && (found (search true re_nr args_text)
         || contains "number" (lower args_text))
  then emit "value" (mk_param "value" Number [] None) acc
  else acc.

(** [x or ""] *)
Definition or_empty (o : option string) : string :=
  match o with Some s => s | None => "" end.

(** The list [params] built for the record stored under [cmd_key]. *)
Definition build_params (cmd_key : string) (c : cmd) : list param :=
  let acc := fold_left (mnemonic_step cmd_key) MNEMONIC_DEFINITIONS ([], []) in
  let acc := header_enum_step cmd_key acc in
  let set_syntax_lines := fst (separate cmd_key (syntax c)) in
  let args_text := or_empty (arguments c) in
  let combined_text := join " " set_syntax_lines ++ " " ++ args_text in
  let acc := numeric_step combined_text acc in
  let acc := qstring_step combined_text acc in
  let acc := fold_left braces_step set_syntax_lines acc in
  let acc := example_step (examples c) acc in
  let acc := description_step cmd_key (or_empty (description c)) args_text
               set_syntax_lines acc in
  fst acc.

End Fast.

(** ** [scripts/extract_scpi_from_word_font_aware.py]

    [expand_wildcards], [detect_params] and the example splitting of
    [post_process] are the same text in
    [scripts/extract_scpi_from_word_font_aware_MSO.py]. *)

Module FontAware.

Import PyStr Re.

(** *** [expand_wildcards] (lines 46-72) *)

(** [P<[xn]>] *)
Definition placeholder (prefix : string) : regex :=
  Cat (Str prefix) (Cat (Lit "<") (Cat (Cls false (one_of "xn")) (Lit ">"))).

Definition has_placeholder (prefix opt : string) : bool :=
  found (search true (placeholder prefix) opt).

(** [<NR[123]>|<QString>] *)
Definition re_value_placeholder : regex :=
  Alt (Cat (Str "<NR") (Cat (Cls false (one_of "123")) (Lit ">")))
      (Str "<QString>").

(** What one option appends to [expanded]. *)
Definition expand_one (raw : string) : list string :=
  let opt := strip raw in
  if negb (nonempty opt) then []
  else if has_placeholder "CH" opt then Fast.numbered "CH" 8
  else if has_placeholder "MATH" opt then Fast.numbered "MATH" 4
  else if has_placeholder "REF" opt then Fast.numbered "REF" 4
  else if found (search true (Alt (placeholder "BUS") (placeholder "B")) opt)
  then Fast.numbered (if contains "B<" opt then "B" else "BUS") 8
  else if has_placeholder "MEAS" opt then Fast.numbered "MEAS" 8
  else if has_placeholder "SEARCH" opt then Fast.numbered "SEARCH" 8
  else if has_placeholder "PLOT" opt then Fast.numbered "PLOT" 4
  else if found (search true re_value_placeholder opt) then []
  else [opt].

(** [[x for x in expanded if not (x in seen or seen.add(x))]] *)
Fixpoint unique_from (seen : list string) (l : list string) : list string :=
  match l with
  | [] => []
  | x :: l' =>
      if mem x seen then unique_from seen l'
      else x :: unique_from (x :: seen) l'
  end.

Definition expand_wildcards (option_list : list string) : list string :=
  firstn 50 (unique_from [] (flat_map expand_one option_list)).

(** *** [detect_params] (lines 75-237)

    Parameters are modelled as in [Fast]: name, type, options and bounds.
    The value [example_default] (lines 78-104) only feeds the key
    ["default"], which is left out with ["description"]. *)

Local Abbreviation param := Fast.param.
Local Abbreviation mk := Fast.mk_param.

(** [([A-Z]+)<([xn])>] *)
Definition re_header_placeholder : regex :=
  Cat (Grp 1 (Plus (Cls false isupper)))
    (Cat (Lit "<") (Cat (Grp 2 (Cls false (one_of "xn"))) (Lit ">"))).

(** Pattern 0: the parameter of one placeholder prefix, if it has one. *)
Definition prefix_param (prefix : string) : list param :=
  let prefix_upper := upper prefix in
  let path name lo hi := [mk name Fast.Integer [] (Some (lo, hi))] in
  if mem prefix_upper ["POWER"; "POWER"] then path "power" 1 8
  else if prefix_upper =? "CH" then path "channel" 1 8
  else if prefix_upper =? "MATH" then path "math" 1 4
  else if prefix_upper =? "REF" then path "ref" 1 4
  else if prefix_upper =? "MEAS" then path "meas" 1 8
  else if prefix_upper =? "SEARCH" then path "search" 1 8
  else if mem prefix_upper ["B"; "BUS"] then path "bus" 1 8
  else if prefix_upper =? "PLOT" then path "plot" 1 4
  else if prefix_upper =? "HISTOGRAM" then path "histogram" 1 4
  else if prefix_upper =? "CURSOR" then path "cursor" 1 2
  else if prefix_upper =? "CALLOUT" then path "callout" 1 8
  else if prefix_upper =? "MASK" then path "mask" 1 4
  else [].

Definition header_params (command_header : string) : list param :=
  flat_map (fun m => prefix_param (Re.group m 1))
           (finditer true re_header_placeholder command_header).

(** [\s+(CH<[xn]>|MATH<[xn]>|REF<[xn]>)\s*$] *)
Definition re_trailing : regex :=
  Cat (Plus space)
    (Cat (Grp 1 (Alts [placeholder "CH"; placeholder "MATH"; placeholder "REF"]))
       (Cat (Star space) Eol)).

(** Pattern 1: the loop stops at the first set line with a trailing
    placeholder. *)
Fixpoint trailing_params (syntax_list : list string) : list param :=
  match syntax_list with
  | [] => []
  | syn :: rest =>
      if contains "?" syn then trailing_params rest
      else match search true re_trailing syn with
           | Some trailing_match =>
               match expand_wildcards [upper (Re.group trailing_match 1)] with
               | [] => []
               | expanded => [mk "source" Fast.Enumeration expanded None]
               end
           | None => trailing_params rest
           end
  end.

(** [<NR[123]>|<QString>|<Block>] *)
Definition re_any_placeholder : regex :=
  Alts [Cat (Str "<NR") (Cat (Cls false (one_of "123")) (Lit ">"));
        Str "<QString>"; Str "<Block>"].

Definition is_placeholder (o : string) : bool :=
  found (rmatch_ true re_any_placeholder o).

(** Pattern 2: what one brace group appends. *)
Definition brace_param (group_text : string) : list param :=
  let raw_options := Fast.bar_options group_text in
  if forallb is_placeholder raw_options then []
  else
    let enum_only := filter (fun o => negb (is_placeholder o)) raw_options in
    match expand_wildcards enum_only with
    | [] => []
    | expanded_options =>
        let param_name :=
          if mem "ON" expanded_options && mem "OFF" expanded_options
          then "state"
          else if existsb (contains "CH") (firstn 5 expanded_options)
          then "source"
          else "value" in
        [mk param_name Fast.Enumeration expanded_options None]
    end.

Definition brace_params (full_syntax : string) : list param :=
  flat_map (fun m => brace_param (Re.group m 1))
           (finditer false Fast.re_braces full_syntax).

Definition path_like_names : list string :=
  ["bus"; "power"; "channel"; "math"; "ref"; "meas"; "search"; "plot";
   "cursor"; "mask"; "histogram"; "callout"; "source"].

Definition has_enum_arg (params : list param) : bool :=
  existsb (fun p => Fast.ptype_eqb (Fast.p_type p) Fast.Enumeration
                    && negb (mem (Fast.p_name p) path_like_names)) params.

(** The numeric/string placeholders of the joined syntax. *)
Definition placeholder_params (full_syntax : string) : list param :=
  if found (search true (Str "<NR1>") full_syntax)
  then [mk "value" Fast.Integer [] None]
  else if found (search true (Cat (Str "<NR") (Cat (Cls false (one_of "23"))
                                                 (Lit ">"))) full_syntax)
  then [mk "value" Fast.Float [] None]
  else if found (search true (Str "<QString>") full_syntax)
  then [mk "label" Fast.StringT [] None]
  else [].

(** The last resort on the arguments text (lines 229-236). *)
Definition argument_params (arguments_text : string) : list param :=
  let lower_args := lower arguments_text in
  if contains "integer" lower_args then [mk "value" Fast.Integer [] None]
  else if contains "float" lower_args || contains "nr2" lower_args
          || contains "nr3" lower_args
  then [mk "value" Fast.Float [] None]
  else if contains "string" lower_args || contains "quoted" lower_args
  then [mk "label" Fast.StringT [] None]
  else [].

Definition detect_params (command_header : string) (syntax_list : list string)
    (arguments_text : option string) : list param :=
  let params := header_params command_header in
  let params :=
    match syntax_list with
    | [] => params
    | _ =>
        let full_syntax := join " " syntax_list in
        let params := (params ++ trailing_params syntax_list)%list in
        let params := (params ++ brace_params full_syntax)%list in
        if has_enum_arg params then params
        else (params ++ placeholder_params full_syntax)%list
    end in
  match params with
  | [] =>
      if Fast.truthy arguments_text
      then argument_params (Fast.or_empty arguments_text)
      else []
  | _ => params
  end.

(** *** The example splitting of [post_process] (lines 400-418) *)

(** [\s+(sets|queries|...|this)\s+] *)
Definition desc_start_pattern : regex :=
  Cat (Plus space)
    (Cat (Grp 1 (Fast.words ["sets"; "queries"; "returns"; "indicates";
                             "specifies"; "turns"; "enables"; "disables";
                             "might"; "is"; "will"; "this"]))
       (Plus space)).

(** [\s+(?=[a-z])] *)
Definition re_before_lowercase : regex :=
  Cat (Plus space) (Ahead (Cls false islower)).

(** The pair [(code, ex_desc)] of one validated example line. *)
Definition process_example (line : string) : string * string :=
  match search true desc_start_pattern line with
  | Some m => (strip (take (m_start m) line), strip (drop (m_start m) line))
  | None =>
      if contains "might return" (lower line) then
        match split_once line "might return" with
        | code :: rest :: _ => (strip code, "might return " ++ strip rest)
        | code :: [] => (strip code, "")
        | [] => (line, "")
        end
      else
        match split1 false re_before_lowercase line with
        | code :: rest :: _ => (strip code, strip rest)
        | code :: [] => (strip code, "")
        | [] => (line, "")
        end
  end.

(** *** [extract_commands] (lines 294-354) *)

(** A paragraph as the loop reads it: its text and what [is_bold] looks
    at, the bold flag of the paragraph style and of each run. *)
Record paragraph : Type := mk_paragraph
  { text : string; style_bold : bool; runs_bold : list bool }.

Definition is_bold (para : paragraph) : bool :=
  style_bold para || existsb (fun b => b) (runs_bold para).

(** [MASTER_CMD_MAP] (lines 28-35): the entries in the order they are
    written; a later entry for a key replaces an earlier one. *)
Definition master_entries (G : Fast.command_groups)
  : list (string * (string * string)) :=
  flat_map (fun g =>
    flat_map (fun cmd =>
      let base_cmd := replace (upper (strip cmd)) "?" "" in
      (base_cmd, (strip cmd, fst g))
      :: (if endswith (strip cmd) "?" then []
          else [(base_cmd ++ "?", (strip cmd ++ "?", fst g))]))
      (snd g)) G.

Definition MASTER_CMD_MAP (G : Fast.command_groups) (key : string)
  : option (string * string) :=
  option_map snd
    (List.find (fun e => fst e =? key) (rev (master_entries G))).

Inductive section : Type :=
| description | group | syntax | arguments | examples | related
| returns | conditions.

(** [SECTION_MAP] *)
Definition SECTION_MAP (first_word : string) : option section :=
  if first_word =? "GROUP" then Some group
  else if first_word =? "SYNTAX" then Some syntax
  else if first_word =? "ARGUMENTS" then Some arguments
  else if first_word =? "EXAMPLES" then Some examples
  else if first_word =? "RELATED COMMANDS" then Some related
  else if first_word =? "RELATED" then Some related
  else if first_word =? "RETURNS" then Some returns
  else if first_word =? "CONDITIONS" then Some conditions
  else None.

(** The raw record of a command: its header, its group from the map,
    the lines collected under each section, and the notes. *)
Record cmd : Type := mk_cmd
  { header : string; mapped_group : string;
    lines : section -> list string; notes : list string }.

Definition section_eqb (a b : section) : bool :=
  match a, b with
  | description, description | group, group | syntax, syntax
  | arguments, arguments | examples, examples | related, related
  | returns, returns | conditions, conditions => true
  | _, _ => false
  end.

(** [current_cmd[current_section].extend(buffer)] *)
Definition extend (sec : section) (buffer : list string) (c : cmd) : cmd :=
  {| header := header c; mapped_group := mapped_group c;
     lines := fun s => if section_eqb s sec then (lines c s ++ buffer)%list
                       else lines c s;
     notes := notes c |}.

Definition add_note (line : string) (c : cmd) : cmd :=
  {| header := header c; mapped_group := mapped_group c; lines := lines c;
     notes := (notes c ++ [line])%list |}.

Record parser : Type := mk_parser
  { commands : list cmd; current_cmd : option cmd;
    current_section : section; buffer : list string }.

Definition initial : parser :=
  {| commands := []; current_cmd := None; current_section := description;
     buffer := [] |}.

(** [norm_text in MASTER_CMD_MAP and is_bold(para)], for a paragraph
    whose stripped text is not empty. *)
Definition header_info (G : Fast.command_groups) (para : paragraph)
  : option (string * string) :=
  let text := strip (text para) in
  if negb (nonempty text) then None
  else
    let norm_text := replace (upper text) "?" "" in
    match MASTER_CMD_MAP G norm_text with
    | Some master_info => if is_bold para then Some master_info else None
    | None => None
    end.

(** The open record with its buffer flushed, ready to be appended. *)
Definition flushed (p : parser) : list cmd :=
  match current_cmd p with
  | Some c => [extend (current_section p) (buffer p) c]
  | None => []
  end.

Definition step (G : Fast.command_groups) (p : parser) (para : paragraph)
  : parser :=
  let text := strip (text para) in
  if negb (nonempty text) then p
  else
    match header_info G para with
    | Some master_info =>
        {| commands := (commands p ++ flushed p)%list;
           current_cmd :=
             Some {| header := fst master_info;
                     mapped_group := snd master_info;
                     lines := fun _ => []; notes := [] |};
           current_section := description; buffer := [] |}
    | None =>
        match current_cmd p with
        | None => p
        | Some c =>
            let first_word_raw := head_or "" (split_ws text) in
            let first_word := replace (upper first_word_raw) ":" "" in
            let first_word :=
              if startswith (upper text) "RELATED COMMANDS"
              then "RELATED COMMANDS" else first_word in
            match SECTION_MAP first_word with
            | Some sec =>
                let content_after :=
                  strip (drop (String.length first_word_raw) text) in
                let content_after :=
                  if startswith content_after ":"
                  then strip (drop 1 content_after) else content_after in
                {| commands := commands p;
                   current_cmd := Some (extend (current_section p) (buffer p) c);
                   current_section := sec;
                   buffer := if nonempty content_after then [content_after]
                             else [] |}
            | None =>
                if startswith (upper text) "NOTE:"
                   || startswith (upper text) "NOTE "
                then {| commands := commands p;
                        current_cmd := Some (add_note text c);
                        current_section := current_section p;
                        buffer := buffer p |}
                else {| commands := commands p; current_cmd := Some c;
                        current_section := current_section p;
                        buffer := (buffer p ++ [text])%list |}
            end
        end
    end.

Definition feed (G : Fast.command_groups) (p : parser) (doc : list paragraph)
  : parser := fold_left (step G) doc p.

(** The list returned: the loop, then the last open record. *)
Definition extract_commands (G : Fast.command_groups) (doc : list paragraph)
  : list cmd :=
  let p := feed G initial doc in (commands p ++ flushed p)%list.

Definition is_header (G : Fast.command_groups) (para : paragraph) : bool :=
  match header_info G para with Some _ => true | None => false end.

End FontAware.

(** ** [scripts/extract_scpi_from_word_font_aware_MSO.py] *)

Module MSO.

Import PyStr.

(** [detect_command_type] (lines 333-403), which runs the loop of
    [extract_fast.py] on its syntax list: the set form ([None] when
    there is none) and the query form it returns. *)
Definition detect_command_type (syntax_list : list string)
    (command_header : string) : option string * string :=
  match syntax_list with
  | [] =>
      if endswith command_header "?" then (None, command_header)
      else (Some command_header, command_header ++ "?")
  | _ =>
      let '(set_syntax, query_syntax) :=
        fold_left (Fast.split_step command_header) syntax_list ("", "") in
      let set_syntax :=
        if negb (nonempty set_syntax) && negb (endswith command_header "?")
        then replace command_header "?" "" else set_syntax in
      let query_syntax :=
        Fast.unless_set query_syntax
          (if endswith command_header "?" then command_header
           else command_header ++ "?") in
      (if nonempty set_syntax then Some set_syntax else None, query_syntax)
  end.

End MSO.

(** ** The grouping loop of the two output builders

    Both scripts file each finished command under its group name:
    [if group_name not in groups_dict: groups_dict[group_name] = {...}]
    and then [groups_dict[group_name]["commands"].append(entry)].  The
    dictionary is kept in insertion order. *)

Module Groups.

Section Loop.

Context {K V : Type}.
Variable eqb : K -> K -> bool.

Fixpoint add (group_name : K) (entry : V) (d : list (K * list V))
  : list (K * list V) :=
  match d with
  | [] => [(group_name, [entry])]
  | (k, entries) :: d' =>
      if eqb k group_name then (k, entries ++ [entry])%list :: d'
      else (k, entries) :: add group_name entry d'
  end.

End Loop.

End Groups.

(** ** The output of [scripts/extract_fast.py] (lines 287-293 and 547-683) *)

Module Output.

Import PyStr.

(** [str.capitalize]: the first character upper-cased, the rest
    lower-cased. *)
Definition capitalize (s : string) : string :=
  match s with
  | EmptyString => EmptyString
  | String c t => String (upper_char c) (lower t)
  end.

(** Lines 551-553. *)
Definition name_of (cmd_key : string) : string :=
  let last_part := last (split cmd_key ":") "" in
  let name :=
    replace (replace (replace (replace last_part "?" "") "<x>" "") "<" "")
      ">" "" in
  if nonempty name then capitalize name else "Command".

(** Lines 547-548: [desc[:80] if len(desc) > 80 else desc]. *)
Definition short_description (desc : string) : string :=
  if (80 <? String.length desc)%nat then take 80 desc else desc.

(** Lines 633-641, on the forms of [Fast.manual_syntax]. *)
Definition command_type (cmd_key desc : string) (syntax_lines : list string)
  : string :=
  let '(set_syntax, query_syntax) :=
    Fast.manual_syntax cmd_key desc syntax_lines in
  if Fast.is_query_only cmd_key desc syntax_lines then "query"
  else if Fast.truthy set_syntax && nonempty query_syntax then "both"
  else if nonempty query_syntax && negb (Fast.truthy set_syntax) then "query"
  else "set".

(** The entry written for a command: the keys of [cmd_entry] that are
    computed, and the record they are computed from, whose other fields
    the entry copies.  The nested ["_manualEntry"] repeats these values
    and is left out. *)
Record cmd_entry : Type := mk_entry
  { e_scpi : string;
    e_group : option string;
    e_record : Fast.cmd;
    e_shortDescription : string;
    e_name : string;
    e_params : list Fast.param;
    e_commandType : string;
    e_set : option string;
    e_query : string }.

Definition entry_of (cmd_key : string) (c : Fast.cmd) : cmd_entry :=
  let desc := Fast.or_empty (Fast.description c) in
  {| e_scpi := cmd_key;
     e_group := Fast.group c;
     e_record := c;
     e_shortDescription := short_description desc;
     e_name := name_of cmd_key;
     e_params := Fast.build_params cmd_key c;
     e_commandType := command_type cmd_key desc (Fast.syntax c);
     e_set := fst (Fast.manual_syntax cmd_key desc (Fast.syntax c));
     e_query := snd (Fast.manual_syntax cmd_key desc (Fast.syntax c)) |}.

(** Equality of group names; the value under the key ["group"] may be
    [None]. *)
Definition group_eqb (a b : option string) : bool :=
  match a, b with
  | Some x, Some y => x =? y
  | None, None => true
  | _, _ => false
  end.

(** [groups_dict] after the loop over [commands.items()]. *)
Definition groups_dict (commands : list (string * Fast.cmd))
  : list (option string * list cmd_entry) :=
  fold_left (fun d kv => Groups.add group_eqb (Fast.group (snd kv))
                           (entry_of (fst kv) (snd kv)) d)
            commands [].

(** ["metadata"]: [(total_commands, total_groups)]. *)
Definition metadata (commands : list (string * Fast.cmd)) : nat * nat :=
  (List.length commands, List.length (groups_dict commands)).

End Output.

(** ** The post-processing of [scripts/extract_scpi_from_word_font_aware.py] *)

Module FontAwarePost.

Import PyStr Re.

(** *** [detect_command_type] (lines 240-268) *)

Record type_info : Type := mk_info
  { commandType : string; hasQuery : bool; hasSet : bool;
    querySyntax : option string; setSyntax : option string }.

(** [\{[^}]+\}|<NR[123]>|<QString>|<Block>|\s+CH<[xn]>|\s+MATH<[xn]>|\s+REF<[xn]>] *)
Definition re_has_set : regex :=
  Alts [ Cat (Lit "{") (Cat (Plus (Cls false Fast.not_brace)) (Lit "}"));
         Fast.re_nr; Str "<QString>"; Str "<Block>";
         Cat (Plus space) (FontAware.placeholder "CH");
         Cat (Plus space) (FontAware.placeholder "MATH");
         Cat (Plus space) (FontAware.placeholder "REF") ].

(** One turn of the loop over the syntax list on
    [(set_syntax, query_syntax)]. *)
Definition forms_step (acc : option string * option string) (raw : string)
  : option string * option string :=
  let '(set_syntax, query_syntax) := acc in
  let syn := strip raw in
  if contains "?" syn && negb (Fast.truthy query_syntax)
  then (set_syntax, Some syn)
  else if negb (contains "?" syn) && negb (Fast.truthy set_syntax)
  then (Some syn, query_syntax)
  else acc.

Definition detect_command_type (syntax_list : list string)
    (command_header : string) : type_info :=
  match syntax_list with
  | [] =>
      if endswith command_header "?"
      then mk_info "query" true false (Some command_header) None
      else mk_info "both" true true (Some (command_header ++ "?"))
             (Some command_header)
  | _ =>
      let full_syntax := join " " syntax_list in
      let has_query := contains "?" full_syntax in
      let has_set := found (search true re_has_set full_syntax) in
      let cmd_type :=
        if has_query && has_set then "both"
        else if has_query then "query" else "set" in
      let '(set_syntax, query_syntax) :=
        fold_left forms_step syntax_list (None, None) in
      let query_syntax :=
        if negb (Fast.truthy query_syntax) && has_query
        then Some (if negb (endswith command_header "?")
                   then command_header ++ "?" else command_header)
        else query_syntax in
      let set_syntax :=
        if negb (Fast.truthy set_syntax) && has_set
        then Some (replace command_header "?" "")
        else set_syntax in
      mk_info cmd_type has_query has_set query_syntax set_syntax
  end.

(** *** [clean_text] (lines 278-282) *)

Definition clean_text (lines : list string) : option string :=
  match lines with
  | [] => None
  | _ => Some (sub false (Plus space) " " (strip (join " " lines)))
  end.

(** *** [validate_syntax] (lines 357-365) *)

Definition syntax_prefix (command_header : string) : string :=
  let base_cmd := upper (replace command_header "?" "") in
  if contains ":" base_cmd then head_or "" (split base_cmd ":") else base_cmd.

Definition validate_syntax (syntax_list : list string)
    (command_header : string) : list string :=
  filter (fun syn => nonempty syn
                     && startswith (upper syn) (syntax_prefix command_header))
         (map strip syntax_list).

(** *** [validate_examples] (lines 368-385) *)

Definition rejected_starts : list string :=
  ["this "; "the "; "a "; "an "; "note"; "see "; "use "; "for "; "when ";
   "if "; "to "; "in "; "on "; "it "; "you "; "requires"].

Definition first_is_upper (line : string) : bool :=
  match line with
  | String c _ => isupper c
  | EmptyString => false
  end.

Definition example_prefix (command_header : string) : string :=
  head_or "" (split (upper (replace command_header "?" "")) ":").

Definition valid_example (command_header line : string) : bool :=
  nonempty line && first_is_upper line
  && negb (existsb (startswith (lower line)) rejected_starts)
  && startswith (upper (head_or "" (split_ws line)))
       (example_prefix command_header)
  && contains ":" line.

Definition validate_examples (example_lines : list string)
    (command_header : string) : list string :=
  filter (valid_example command_header) (map strip example_lines).

(** *** [post_process] (lines 388-460)

    The object written for a command holds the keys below; the nested
    ["_manualEntry"] repeats them and is left out, as are ["name"] and
    ["shortDescription"]. *)

Record final_cmd_obj : Type := mk_obj
  { o_scpi : string;
    o_group : string;
    o_description : string;
    o_syntax : list string;
    o_arguments : option string;
    o_params : list Fast.param;
    o_examples : list (string * string);
    o_relatedCommands : list string;
    o_conditions : option string;
    o_returns : option string;
    o_notes : list string;
    o_type : type_info }.

(** [cmd["mapped_group"] or "Uncategorized"] *)
Definition group_name (c : FontAware.cmd) : string :=
  Fast.unless_set (FontAware.mapped_group c) "Uncategorized".

Definition object_of (c : FontAware.cmd) : final_cmd_obj :=
  let header := FontAware.header c in
  let args_text := clean_text (FontAware.lines c FontAware.arguments) in
  let validated_syntax :=
    validate_syntax (FontAware.lines c FontAware.syntax) header in
  let validated_examples :=
    validate_examples (FontAware.lines c FontAware.examples) header in
  {| o_scpi := header;
     o_group := group_name c;
     o_description :=
       Fast.or_empty (clean_text (FontAware.lines c FontAware.description));
     o_syntax := validated_syntax;
     o_arguments := args_text;
     o_params := FontAware.detect_params header validated_syntax args_text;
     o_examples := map FontAware.process_example validated_examples;
     o_relatedCommands :=
       match FontAware.lines c FontAware.related with
       | [] => []
       | related => map strip (split_ws (Fast.or_empty (clean_text related)))
       end;
     o_conditions := clean_text (FontAware.lines c FontAware.conditions);
     o_returns := clean_text (FontAware.lines c FontAware.returns);
     o_notes := FontAware.notes c;
     o_type := detect_command_type validated_syntax header |}.

(** [groups_dict] after the loop over [raw_commands]. *)
Definition groups_dict (raw_commands : list FontAware.cmd)
  : list (string * list final_cmd_obj) :=
  fold_left (fun d c => Groups.add String.eqb (group_name c) (object_of c) d)
            raw_commands [].

(** ["metadata"]: [(total_commands, total_groups)]. *)
Definition metadata (raw_commands : list FontAware.cmd) : nat * nat :=
  (List.length raw_commands, List.length (groups_dict raw_commands)).

End FontAwarePost.

(** ** The command type of the MSO script (lines 393-403) *)

Module MSOType.

Import PyStr.

(** [commandType] of [detect_command_type]: [has_query] and [has_set]
    are the truth values of the two forms it returns; on an empty
    syntax list the function returns its fixed answers. *)
Definition command_type (syntax_list : list string) (command_header : string)
  : string :=
  match syntax_list with
  | [] => if endswith command_header "?" then "query" else "both"
  | _ =>
      let '(set_syntax, query_syntax) :=
        MSO.detect_command_type syntax_list command_header in
      let has_query := nonempty query_syntax in
      let has_set := Fast.truthy set_syntax in
      if has_query && has_set then "both"
      else if has_query then "query" else "set"
  end.

End MSOType.

(** ** [validate_syntax] of the MSO script (lines 720-744)

    A line of options on its own, [{A|B}], is joined to the line kept
    before it when that line is a set form without options. *)

Module MSOPost.

Import PyStr.

(** [if valid]: the truth value of a list. *)
Definition filled {A : Type} (l : list A) : bool :=
  match l with [] => false | _ => true end.

(** One turn of the loop on [valid]; [valid[-1]] is read only where
    [valid] is not empty. *)
Definition validate_step (prefix : string) (valid : list string)
    (raw : string) : list string :=
  let syn := strip raw in
  if negb (nonempty syn) then valid
  else if startswith syn "{" && contains "|" syn && filled valid
  then
    let previous := last valid "" in
    if filled valid && negb (contains "?" previous)
       && negb (contains "{" previous)
    then (removelast valid ++ [(previous ++ " " ++ syn)%string])%list
    else (valid ++ [syn])%list
  else if startswith (upper syn) prefix then (valid ++ [syn])%list
  else valid.

Definition validate_syntax (syntax_list : list string)
    (command_header : string) : list string :=
  fold_left (validate_step (FontAwarePost.syntax_prefix command_header))
            syntax_list [].

End MSOPost.

(** ** Notions used in the statements *)

Module Notions.

Import PyStr.

(** Every stored record sits under its own mnemonic and carries the
    group the index gives that mnemonic. *)
Definition stored_ok (G : Fast.command_groups) (d : list (string * Fast.cmd))
  : Prop :=
  forall k v, In (k, v) d ->
    k = Fast.scpi v
    /\ Fast.group v = Some (Fast.group_or_miscellaneous G (Fast.scpi v)).

Definition option_eqb {A : Type} (eqb : A -> A -> bool) (x y : option A) : bool :=
  match x, y with
  | Some a, Some b => eqb a b
  | None, None => true
  | _, _ => false
  end.

Fixpoint list_eqb {A : Type} (eqb : A -> A -> bool) (l l' : list A) : bool :=
  match l, l' with
  | [], [] => true
  | a :: t, b :: t' => eqb a b && list_eqb eqb t t'
  | _, _ => false
  end.

Definition example_eqb (a b : Fast.example) : bool :=
  (Fast.ex_scpi a =? Fast.ex_scpi b)
  && (Fast.ex_description a =? Fast.ex_description b).

(** Two values of a field do not conflict: they are not both non-empty,
    or they are the same. *)
Definition no_conflict {A : Type} (t : option A -> bool)
    (eqb : A -> A -> bool) (x y : option A) : bool :=
  negb (t x && t y) || option_eqb eqb x y.

(** Two records do not conflict on any of the fields a merge absorbs. *)
Definition compatible (a b : Fast.cmd) : bool :=
  no_conflict Fast.truthy String.eqb (Fast.description a) (Fast.description b)
  && no_conflict Fast.truthy String.eqb (Fast.group a) (Fast.group b)
  && no_conflict Fast.truthy String.eqb (Fast.arguments a) (Fast.arguments b)
  && no_conflict Fast.truthy_list (list_eqb example_eqb)
       (Fast.examples a) (Fast.examples b)
  && no_conflict Fast.truthy String.eqb (Fast.conditions a) (Fast.conditions b)
  && no_conflict Fast.truthy String.eqb (Fast.returns a) (Fast.returns b).

(** The same value, or an empty one on both sides. *)
Definition same_value {A : Type} (t : option A -> bool) (x y : option A) : Prop :=
  x = y \/ (t x = false /\ t y = false).





(** The number of records open in a parser state: one or none. *)
Definition open_records (p : Fast.parser) : nat :=
  match Fast.current_cmd p with Some _ => 1 | None => 0 end.

Definition open_records_fa (p : FontAware.parser) : nat :=
  match FontAware.current_cmd p with Some _ => 1 | None => 0 end.

End Notions.

(** ** Concrete manuals, indexes and records

    The inputs at which the properties below are instantiated. *)

Module Scenarios.

(** The example line of the search trigger command. *)
Definition scenario_E_line : string :=
  "SEARCH:SEARCH1:TRIGger:A:LOGIc:WHEn FALSE might return TRUE indicating the search criteria".

(** An index that stores the channel family under [CH<x>] only. *)
Definition channel_index : Fast.command_groups :=
  [("Vertical", ["CH<x>"])].

(** An index of two groups. *)
Definition small_index : Fast.command_groups :=
  [("Vertical", ["CH<x>"; "CH<x>:SCAle"]);
   ("Acquisition", ["ACQuire:STATE"; "*IDN?"])].

(** Paragraphs of [extract_fast.py] in one font. *)
Definition in_font (font s : string) : Fast.paragraph :=
  Fast.mk_paragraph s [Fast.mk_run s (Some font) None].
Definition tahoma : string -> Fast.paragraph := in_font "Tahoma".
Definition arial : string -> Fast.paragraph := in_font "Arial".
Definition courier : string -> Fast.paragraph := in_font "Courier New".

(** Front matter, then one command with its sections. *)
Definition acquire_manual : list Fast.paragraph :=
  [ arial "Programmer Manual"; arial "Table of contents";
    tahoma "ACQuire:STATE"; arial "Sets or queries acquisition state.";
    arial "Group"; arial "Acquisition commands";
    arial "Syntax"; courier "ACQuire:STATE {ON|OFF} ACQuire:STATE?" ].

Definition acquire_record : Fast.cmd :=
  {| Fast.scpi := "ACQuire:STATE";
     Fast.description := Some "Sets or queries acquisition state.";
     Fast.conditions := None;
     Fast.group := Some "Acquisition";
     Fast.syntax := ["ACQuire:STATE {ON|OFF} ACQuire:STATE?"];
     Fast.relatedCommands := None; Fast.arguments := None;
     Fast.examples := None; Fast.returns := None; Fast.notes := [] |}.

(** A record open in the Group section, for a mnemonic the index does
    not hold. *)
Definition unmapped_record : Fast.cmd :=
  {| Fast.scpi := "FOO:BAR"; Fast.description := Some "Sets the bar.";
     Fast.conditions := None; Fast.group := None; Fast.syntax := [];
     Fast.relatedCommands := None; Fast.arguments := None;
     Fast.examples := None; Fast.returns := None; Fast.notes := [] |}.

Definition unmapped_parser : Fast.parser :=
  {| Fast.commands := []; Fast.current_cmd := Some unmapped_record;
     Fast.state := Fast.GROUP; Fast.buffer := ["Acquisition"];
     Fast.finalized := [] |}.

(** Paragraphs of the font-aware script: bold or plain. *)
Definition bold (s : string) : FontAware.paragraph :=
  FontAware.mk_paragraph s false [true].
Definition plain (s : string) : FontAware.paragraph :=
  FontAware.mk_paragraph s false [false].

(** The same command documented twice, each time with its own list of
    related commands. *)
Definition twice_documented : list Fast.paragraph :=
  [ tahoma "*IDN?"; arial "Returns the instrument identification.";
    arial "Related Commands"; arial "ACQuire:STATE";
    tahoma "*IDN?"; arial "Syntax"; courier "*IDN?";
    arial "Related Commands"; arial "CH<x>" ].

Definition idn_first : Fast.cmd :=
  {| Fast.scpi := "*IDN?";
     Fast.description := Some "Returns the instrument identification.";
     Fast.conditions := None; Fast.group := Some "Acquisition";
     Fast.syntax := []; Fast.relatedCommands := Some ["ACQuire:STATE"];
     Fast.arguments := None; Fast.examples := None; Fast.returns := None;
     Fast.notes := [] |}.

Definition idn_second : Fast.cmd :=
  {| Fast.scpi := "*IDN?"; Fast.description := Some "";
     Fast.conditions := None; Fast.group := Some "Acquisition";
     Fast.syntax := ["*IDN?"]; Fast.relatedCommands := Some ["CH<x>"];
     Fast.arguments := None; Fast.examples := None; Fast.returns := None;
     Fast.notes := [] |}.

(** Two records of one mnemonic with different descriptions. *)
Definition scale_sets : Fast.cmd :=
  {| Fast.scpi := "CH<x>:SCAle";
     Fast.description := Some "Sets the vertical scale.";
     Fast.conditions := None; Fast.group := Some "Vertical";
     Fast.syntax := ["CH<x>:SCAle <NR3>"]; Fast.relatedCommands := None;
     Fast.arguments := None; Fast.examples := None; Fast.returns := None;
     Fast.notes := [] |}.

Definition scale_queries : Fast.cmd :=
  {| Fast.scpi := "CH<x>:SCAle";
     Fast.description := Some "Queries the vertical scale.";
     Fast.conditions := None; Fast.group := Some "Vertical";
     Fast.syntax := ["CH<x>:SCAle?"]; Fast.relatedCommands := None;
     Fast.arguments := None; Fast.examples := None; Fast.returns := None;
     Fast.notes := [] |}.

(** Front matter in the font-aware script's paragraphs. *)
Definition front_matter_fa : list FontAware.paragraph :=
  [ plain "Programmer Manual"; plain "Syntax conventions" ].

Definition acquire_manual_fa : list FontAware.paragraph :=
  [ bold "ACQuire:STATE"; plain "Sets or queries acquisition state.";
    plain "Syntax"; plain "ACQuire:STATE {ON|OFF}" ].




End Scenarios.

(** * Properties *)

Import PyStr.

(** ** Wildcard expansion *)

Section Wildcards.

Lemma mem_true_iff (x : string) (l : list string) : mem x l = true <-> In x l.
Proof.
  unfold mem; rewrite existsb_exists; split.
  - intros [y [Hy Heq]]; apply String.eqb_eq in Heq; now subst.
  - intros H; exists x; split; [assumption | apply String.eqb_refl].
Qed.

Lemma mem_false_iff (x : string) (l : list string) : mem x l = false <-> ~ In x l.
Proof.
  rewrite <- mem_true_iff; destruct (mem x l); split; intros H;
    solve [congruence | exfalso; apply H; reflexivity].
Qed.

(** The comprehension over [seen] keeps exactly the first occurrences. *)
Lemma unique_from_spec (l seen : list string) :
  NoDup (FontAware.unique_from seen l)
  /\ forall x, In x (FontAware.unique_from seen l) <-> In x l /\ ~ In x seen.
Proof.
  revert seen; induction l as [|a l IH]; intros seen; simpl.
  - split; [constructor | intros x; tauto].
  - destruct (mem a seen) eqn:Ha.
    + apply mem_true_iff in Ha.
      destruct (IH seen) as [Hnd Hin]; split; [assumption|].
      intros x; rewrite Hin; split.
      * intros [H1 H2]; tauto.
      * intros [[H1|H1] H2]; [subst; contradiction | tauto].
    + apply mem_false_iff in Ha.
      destruct (IH (a :: seen)) as [Hnd Hin]; split.
      * constructor; [|assumption].
        rewrite Hin; simpl; tauto.
      * intros x; simpl; rewrite Hin; simpl; split.
        -- intros [H|[H1 H2]]; [subst; tauto | tauto].
        -- intros [[H|H] H2].
           ++ now left.
           ++ destruct (string_dec a x) as [->|Hne]; [now left | right; tauto].
Qed.

Lemma NoDup_firstn {A : Type} (n : nat) (l : list A) :
  NoDup l -> NoDup (firstn n l).
Proof.
  revert n; induction l as [|a l IH]; intros [|n] H; simpl; try constructor.
  - inversion H; subst; intros Hin; apply H2.
    clear - Hin; revert n Hin; induction l as [|b l IHl]; intros [|n] Hin;
      simpl in *; try contradiction.
    destruct Hin as [->|Hin]; [now left | right; eauto].
  - inversion H; subst; auto.
Qed.

(** The result of [expand_wildcards] never repeats an entry and never
    has more than 50 entries, and each entry comes from the expansion of
    one of the options. *)
Lemma expand_wildcards_shape (option_list : list string) :
  NoDup (FontAware.expand_wildcards option_list)
  /\ List.length (FontAware.expand_wildcards option_list) <= 50
  /\ forall x, In x (FontAware.expand_wildcards option_list) ->
               exists opt, In opt option_list /\ In x (FontAware.expand_one opt).
Proof.
  unfold FontAware.expand_wildcards; repeat split.
  - apply NoDup_firstn, unique_from_spec.
  - rewrite length_firstn; apply Nat.le_min_l.
  - intros x Hx.
    assert (Hin : In x (FontAware.unique_from []
                          (flat_map FontAware.expand_one option_list))).
    { revert Hx; generalize (FontAware.unique_from []
                               (flat_map FontAware.expand_one option_list)).
      intros l; generalize 50; induction l as [|a l IH]; intros [|n] H;
        simpl in *; try contradiction.
      destruct H as [->|H]; [now left | right; eauto]. }
    apply unique_from_spec in Hin; destruct Hin as [Hin _].
    apply in_flat_map in Hin; exact Hin.
Qed.

(** The list returned by [expand_wildcards] has no entry twice and at
    most 50 entries, and each entry is one that some option of the input
    expands to. *)
Theorem expand_wildcards_is_bounded_and_duplicate_free
    (option_list : list string) :
  NoDup (FontAware.expand_wildcards option_list)
  /\ List.length (FontAware.expand_wildcards option_list) <= 50
  /\ forall x, In x (FontAware.expand_wildcards option_list) ->
               exists opt, In opt option_list /\ In x (FontAware.expand_one opt).
Proof. exact (expand_wildcards_shape option_list). Qed.

(** C10 (at the input that fails): the option [SEARCH<x>] contains the
    text [CH<x>], so the test for the channel family, made first, takes
    it: the expansion is the eight channels [CH1] to [CH8], and none of
    [SEARCH1] to [SEARCH8]. *)
Theorem expand_wildcards_search_gives_channels :
  FontAware.expand_wildcards ["SEARCH<x>"]
  = ["CH1"; "CH2"; "CH3"; "CH4"; "CH5"; "CH6"; "CH7"; "CH8"].
Proof. vm_compute; reflexivity. Qed.

(** The branch for the search family is never taken: an option in which
    [SEARCH<x>] or [SEARCH<n>] is found is one in which the channel
    placeholder is found at four characters further on the right. *)
Lemma channel_test_shadows_search_test :
  FontAware.has_placeholder "SEARCH" "SEARCH<n>" = true
  /\ FontAware.has_placeholder "CH" "SEARCH<n>" = true
  /\ FontAware.expand_one "search<N>" = Fast.numbered "CH" 8.
Proof. vm_compute; repeat split; reflexivity. Qed.

End Wildcards.

(** ** The example splitter *)

Section Examples.

(** C9 (as amended): on the example line of the search trigger command,
    both splitters cut at the first description verb, "might": the
    snippet is the command with its argument [FALSE], and the
    description is "might return TRUE indicating the search criteria". *)
Theorem example_split_cuts_at_might :
  FontAware.process_example Scenarios.scenario_E_line
  = ("SEARCH:SEARCH1:TRIGger:A:LOGIc:WHEn FALSE",
     "might return TRUE indicating the search criteria")
  /\ Fast.split_example Scenarios.scenario_E_line
     = Fast.mk_example "SEARCH:SEARCH1:TRIGger:A:LOGIc:WHEn FALSE"
         "might return TRUE indicating the search criteria".
Proof. split; vm_compute; reflexivity. Qed.

(** The snippet is not the command up to [TRUE], and the description
    does not start at "indicating", in either script. *)
Lemma example_split_not_at_indicating :
  fst (FontAware.process_example Scenarios.scenario_E_line)
    <> "SEARCH:SEARCH1:TRIGger:A:LOGIc:WHEn FALSE might return TRUE"
  /\ Fast.ex_scpi (Fast.split_example Scenarios.scenario_E_line)
    <> "SEARCH:SEARCH1:TRIGger:A:LOGIc:WHEn FALSE might return TRUE"
  /\ startswith (snd (FontAware.process_example Scenarios.scenario_E_line)) "indicating"
     = false
  /\ startswith (Fast.ex_description (Fast.split_example Scenarios.scenario_E_line))
       "indicating" = false.
Proof.
  repeat split; try (vm_compute; reflexivity);
    intros H; vm_compute in H; discriminate H.
Qed.

End Examples.

(** ** Canonical lookup *)

Section Lookup.

Variable G : Fast.command_groups.




(** A result of the lookup is an entry of the index. *)
Lemma lookup_in_index (text c : string) :
  Fast.is_command_in_master_list G text = Some c -> In c (Fast.ALL_COMMANDS G).
Proof.
  unfold Fast.is_command_in_master_list.
  destruct (negb (nonempty text)); [discriminate|].
  destruct (if mem (strip (upper text)) (map upper (Fast.ALL_COMMANDS G))
            then List.find (fun c0 => upper c0 =? strip (upper text))
                   (Fast.ALL_COMMANDS G)
            else None) as [c0|] eqn:Ed.
  - intros H; injection H as <-.
    destruct (mem _ _); [|discriminate].
    apply find_some in Ed; tauto.
  - intros H; apply find_some in H; tauto.
Qed.


End Lookup.



(** The spelling with a literal digit: its digits are rewritten to
    [<x>], with a small [x], and the result is compared with the
    upper-cased entries, which spell [<X>]. *)
Lemma digit_spelling_not_resolved :
  Re.sub false (Re.Plus Re.digit) "<x>" (strip (upper "CH3")) = "CH<x>"
  /\ upper "CH<x>" = "CH<X>"
  /\ Fast.is_command_in_master_list Scenarios.channel_index "CH3" = None.
Proof. repeat split; vm_compute; reflexivity. Qed.

(** ** Finalize and merge *)

Section Merge.

Variable G : Fast.command_groups.

Lemma scpi_save_section (st : Fast.section) (buf : list string) (c : Fast.cmd) :
  Fast.scpi (Fast.save_section G st buf c) = Fast.scpi c.
Proof.
  destruct st; simpl; try reflexivity.
  - destruct (filter nonempty (map strip buf)); reflexivity.
  - destruct buf; reflexivity.
  - destruct (filter _ _); reflexivity.
Qed.

Lemma normalize_scpi_group (c : Fast.cmd) :
  Fast.scpi (Fast.normalize G c) = Fast.scpi c
  /\ Fast.group (Fast.normalize G c)
     = Some (Fast.group_or_miscellaneous G (Fast.scpi c)).
Proof.
  unfold Fast.normalize; simpl.
  repeat match goal with
         | |- context [if ?b then _ else _] => destruct b
         end; simpl; split; reflexivity.
Qed.

(** The fields of a merged record, one by one. *)
Lemma merge_fields (e c : Fast.cmd) :
  Fast.scpi (Fast.merge e c) = Fast.scpi e
  /\ Fast.description (Fast.merge e c)
     = Fast.absorb Fast.truthy (Fast.description e) (Fast.description c)
  /\ Fast.group (Fast.merge e c)
     = Fast.absorb Fast.truthy (Fast.group e) (Fast.group c)
  /\ Fast.arguments (Fast.merge e c)
     = Fast.absorb Fast.truthy (Fast.arguments e) (Fast.arguments c)
  /\ Fast.examples (Fast.merge e c)
     = Fast.absorb Fast.truthy_list (Fast.examples e) (Fast.examples c)
  /\ Fast.conditions (Fast.merge e c)
     = Fast.absorb Fast.truthy (Fast.conditions e) (Fast.conditions c)
  /\ Fast.returns (Fast.merge e c)
     = Fast.absorb Fast.truthy (Fast.returns e) (Fast.returns c)
  /\ Fast.syntax (Fast.merge e c)
     = (Fast.syntax e
        ++ filter (fun s => negb (mem s (Fast.syntax e))) (Fast.syntax c))%list
  /\ Fast.relatedCommands (Fast.merge e c) = Fast.relatedCommands e
  /\ Fast.notes (Fast.merge e c) = Fast.notes e.
Proof.
  unfold Fast.merge; destruct (Fast.syntax c) eqn:E; simpl;
    repeat split; try reflexivity.
  now rewrite app_nil_r.
Qed.

Lemma lookup_update (key : string) (f : Fast.cmd -> Fast.cmd)
    (d : list (string * Fast.cmd)) (e : Fast.cmd) :
  Fast.lookup key d = Some e ->
  Fast.lookup key (Fast.update key f d) = Some (f e)
  /\ map fst (Fast.update key f d) = map fst d.
Proof.
  induction d as [|[k v] d IH]; simpl; [discriminate|].
  destruct (k =? key) eqn:E; simpl.
  - intros H; injection H as ->; rewrite E; split; reflexivity.
  - intros H; rewrite E; destruct (IH H) as [H1 H2]; split;
      [assumption | now rewrite H2].
Qed.

Lemma lookup_app_new (key : string) (d : list (string * Fast.cmd)) (c : Fast.cmd) :
  Fast.lookup key d = None ->
  Fast.lookup key (d ++ [(key, c)]) = Some c.
Proof.
  induction d as [|[k v] d IH]; simpl.
  - now rewrite String.eqb_refl.
  - destruct (k =? key); [discriminate | exact IH].
Qed.

Lemma in_update (key : string) (f : Fast.cmd -> Fast.cmd)
    (d : list (string * Fast.cmd)) (k : string) (v : Fast.cmd) :
  In (k, v) (Fast.update key f d) ->
  In (k, v) d \/ exists e, In (k, e) d /\ k = key /\ v = f e.
Proof.
  induction d as [|[k0 v0] d IH]; simpl; [tauto|].
  destruct (k0 =? key) eqn:E; simpl.
  - intros [H|H]; [|tauto].
    injection H as <- <-; apply String.eqb_eq in E.
    right; exists v0; auto.
  - intros [H|H]; [tauto|].
    destruct (IH H) as [H'|[e [H1 H2]]]; [tauto|].
    right; exists e; tauto.
Qed.

Local Abbreviation stored_ok := (Notions.stored_ok G).

Lemma store_ok (d : list (string * Fast.cmd)) (c : Fast.cmd) :
  stored_ok d ->
  Fast.group c = Some (Fast.group_or_miscellaneous G (Fast.scpi c)) ->
  stored_ok (Fast.store d c).
Proof.
  intros Hd Hc k v; unfold Fast.store.
  destruct (Fast.lookup (Fast.scpi c) d) eqn:E.
  - intros Hin; apply in_update in Hin.
    destruct Hin as [Hin|[e [Hin [Hk ->]]]]; [now apply Hd|].
    destruct (Hd _ _ Hin) as [Hke Hge].
    destruct (merge_fields e c) as [Hs [_ [Hg _]]].
    rewrite Hs, Hg; split; [assumption|].
    rewrite Hge, Hc; replace (Fast.scpi c) with (Fast.scpi e) by congruence.
    unfold Fast.absorb; now destruct (_ && _).
  - intros Hin; apply in_app_or in Hin; destruct Hin as [Hin|[Hin|[]]];
      [now apply Hd|].
    injection Hin as <- <-; auto.
Qed.

Lemma step_commands (p : Fast.parser) (para : Fast.paragraph) :
  Fast.commands (Fast.step G p para) = Fast.commands p
  \/ Fast.commands (Fast.step G p para)
     = Fast.commands (Fast.finalize_command G p).
Proof.
  unfold Fast.step.
  destruct (negb (nonempty (strip (Fast.text para)))); [now left|].
  destruct (startswith _ _).
  { destruct (Fast.current_cmd p); now left. }
  destruct (Fast.keyword _).
  { left; unfold Fast.save_current_section;
      destruct (Fast.current_cmd p); reflexivity. }
  destruct (Fast.header_of G para); [now right|].
  match goal with |- context [match ?x with Some _ => _ | None => _ end] =>
    destruct x end; [now left|].
  destruct (Fast.current_cmd p); [|now left].
  destruct (negb _); now left.
Qed.

Lemma finalize_ok (p : Fast.parser) :
  stored_ok (Fast.commands p) ->
  stored_ok (Fast.commands (Fast.finalize_command G p)).
Proof.
  intros H; unfold Fast.finalize_command.
  destruct (Fast.current_cmd p) as [c|]; [|assumption]; simpl.
  apply store_ok; [assumption|].
  destruct (normalize_scpi_group
              (Fast.save_section G (Fast.state p) (Fast.buffer p) c))
    as [Hs Hg].
  now rewrite Hg, Hs.
Qed.

Lemma feed_ok (doc : list Fast.paragraph) (p : Fast.parser) :
  stored_ok (Fast.commands p) ->
  stored_ok (Fast.commands (Fast.feed G p doc)).
Proof.
  revert p; induction doc as [|para doc IH]; intros p H; simpl; [assumption|].
  apply IH.
  destruct (step_commands p para) as [E|E]; rewrite E;
    [assumption | now apply finalize_ok].
Qed.

(** What the store step does with a record finalized under a mnemonic
    already in the output: it is merged into the earlier record, which
    keeps its place and its own non-empty fields and takes the later
    record's value for each of description, group, arguments, examples,
    conditions and returns that it holds empty; its syntax lines are
    followed by the later lines that are not among them, in order,
    without repeats when neither list has any.  The key
    ["relatedCommands"] is in neither loop of the merge: the related
    commands of the later record are not merged in. *)
Lemma merge_absorbs_into_earlier (d : list (string * Fast.cmd))
    (e c : Fast.cmd) :
  Fast.lookup (Fast.scpi c) d = Some e ->
  let m := Fast.merge e c in
  let pick {A : Type} (t : option A -> bool) (x y : option A) :=
    if t x then x else if t y then y else x in
  Fast.lookup (Fast.scpi c) (Fast.store d c) = Some m
  /\ map fst (Fast.store d c) = map fst d
  /\ Fast.description m
     = pick Fast.truthy (Fast.description e) (Fast.description c)
  /\ Fast.group m = pick Fast.truthy (Fast.group e) (Fast.group c)
  /\ Fast.arguments m = pick Fast.truthy (Fast.arguments e) (Fast.arguments c)
  /\ Fast.examples m
     = pick Fast.truthy_list (Fast.examples e) (Fast.examples c)
  /\ Fast.conditions m
     = pick Fast.truthy (Fast.conditions e) (Fast.conditions c)
  /\ Fast.returns m = pick Fast.truthy (Fast.returns e) (Fast.returns c)
  /\ Fast.syntax m
     = (Fast.syntax e
        ++ filter (fun s => negb (mem s (Fast.syntax e))) (Fast.syntax c))%list
  /\ (NoDup (Fast.syntax e) -> NoDup (Fast.syntax c) -> NoDup (Fast.syntax m))
  /\ Fast.relatedCommands m = Fast.relatedCommands e
  /\ Fast.notes m = Fast.notes e.
Proof.
  intros Hl m pick.
  destruct (merge_fields e c)
    as [_ [Hd [Hg [Ha [He [Hc [Hr [Hs [Hrel Hn]]]]]]]]].
  assert (Hpick : forall (A : Type) (t : option A -> bool) x y,
             Fast.absorb t x y = pick A t x y).
  { intros A t x y; unfold Fast.absorb, pick.
    destruct (t x), (t y); reflexivity. }
  unfold Fast.store; rewrite Hl.
  destruct (lookup_update (Fast.scpi c) (fun existing => Fast.merge existing c)
              d e Hl) as [H1 H2].
  subst m; rewrite <- !Hpick.
  repeat split; try assumption.
  intros Hne Hnc; rewrite Hs.
  clear - Hne Hnc; induction (Fast.syntax c) as [|s l IH]; simpl.
  - now rewrite app_nil_r.
  - inversion Hnc; subst.
    destruct (mem s (Fast.syntax e)) eqn:E; simpl; [auto|].
    apply NoDup_Add with (a := s) (l := (Fast.syntax e ++ filter
      (fun s0 => negb (mem s0 (Fast.syntax e))) l)%list).
    + apply Add_app.
    + split; [auto|].
      intros Hin; apply in_app_or in Hin; destruct Hin as [Hin|Hin].
      * apply mem_false_iff in E; contradiction.
      * apply filter_In in Hin; tauto.
Qed.

End Merge.

(** [finalize_command] taken alone, on a state no run of the script
    reaches (a record whose mnemonic the index does not hold, open in
    its Group section with the text "Acquisition"): flushing the section
    gives it that text as its group, and finalizing replaces the text by
    "Miscellaneous". *)
Lemma unmapped_group_text_not_kept :
  Fast.COMMAND_TO_GROUP [] (Fast.scpi Scenarios.unmapped_record) = None
  /\ Fast.group (Fast.save_section [] Fast.GROUP ["Acquisition"]
                   Scenarios.unmapped_record) = Some "Acquisition"
  /\ map (fun kv => Fast.group (snd kv))
         (Fast.commands (Fast.finalize_command [] Scenarios.unmapped_parser))
     = [Some "Miscellaneous"].
Proof. repeat split; vm_compute; reflexivity. Qed.

(** C2: a command documented twice, with "ACQuire:STATE" as related
    command the first time and "CH<x>" the second.  The two finalized
    records hold one each, and the merged record of the output holds
    the first only: the related commands of the later record are lost,
    where the claim has the two lists unioned. *)
Theorem related_commands_not_unioned :
  Fast.finalized (Fast.extract Scenarios.small_index Scenarios.twice_documented)
    = [Scenarios.idn_first; Scenarios.idn_second]
  /\ map (fun kv => Fast.relatedCommands (snd kv))
       (Fast.commands
          (Fast.extract Scenarios.small_index Scenarios.twice_documented))
     = [Some ["ACQuire:STATE"]]
  /\ Fast.relatedCommands (Fast.merge Scenarios.idn_first Scenarios.idn_second)
     = Some ["ACQuire:STATE"].
Proof. repeat split; vm_compute; reflexivity. Qed.

(** ** The order of two merges *)

Section MergeOrder.

Import Notions.

Lemma option_eqb_eq {A : Type} (eqb : A -> A -> bool) (x y : option A) :
  (forall a b, eqb a b = true -> a = b) ->
  option_eqb eqb x y = true -> x = y.
Proof.
  intros H; destruct x, y; simpl; intros E; try discriminate;
    [f_equal; auto | reflexivity].
Qed.

Lemma examples_eqb_eq (l l' : list Fast.example) :
  list_eqb example_eqb l l' = true -> l = l'.
Proof.
  revert l'; induction l as [|a l IH]; intros [|b l']; simpl; intros E;
    try discriminate; [reflexivity|].
  apply andb_prop in E; destruct E as [E1 E2].
  unfold example_eqb in E1; apply andb_prop in E1; destruct E1 as [E3 E4].
  apply String.eqb_eq in E3, E4.
  destruct a, b; simpl in *; subst; f_equal; auto.
Qed.

Lemma absorb_either_order {A : Type} (t : option A -> bool)
    (eqb : A -> A -> bool) (x y : option A) :
  (forall a b, eqb a b = true -> a = b) ->
  no_conflict t eqb x y = true ->
  same_value t (Fast.absorb t x y) (Fast.absorb t y x).
Proof.
  intros Heq H; unfold no_conflict in H; unfold same_value, Fast.absorb.
  destruct (t x) eqn:Ex, (t y) eqn:Ey; simpl in *; auto.
  left; now apply (option_eqb_eq eqb).
Qed.

(** C3 (as amended): for two records of one mnemonic that do not hold
    different non-empty values for a field, the two merge orders put
    under the mnemonic records with the same syntax lines, in whatever
    order, and, for each of description, group, arguments, examples,
    conditions and returns, the same value or an empty one in both. *)
Theorem merge_orders_agree_without_conflict (d : list (string * Fast.cmd))
    (a b : Fast.cmd) :
  Fast.lookup (Fast.scpi a) d = None ->
  Fast.scpi b = Fast.scpi a ->
  compatible a b = true ->
  let ab := Fast.merge a b in
  let ba := Fast.merge b a in
  Fast.lookup (Fast.scpi a) (Fast.store (Fast.store d a) b) = Some ab
  /\ Fast.lookup (Fast.scpi a) (Fast.store (Fast.store d b) a) = Some ba
  /\ same_value Fast.truthy (Fast.description ab) (Fast.description ba)
  /\ same_value Fast.truthy (Fast.group ab) (Fast.group ba)
  /\ same_value Fast.truthy (Fast.arguments ab) (Fast.arguments ba)
  /\ same_value Fast.truthy_list (Fast.examples ab) (Fast.examples ba)
  /\ same_value Fast.truthy (Fast.conditions ab) (Fast.conditions ba)
  /\ same_value Fast.truthy (Fast.returns ab) (Fast.returns ba)
  /\ forall s, In s (Fast.syntax ab) <-> In s (Fast.syntax ba).
Proof.
  intros Hnone Hk Hc ab ba.
  assert (Hstore : forall x y, Fast.scpi x = Fast.scpi a ->
            Fast.scpi y = Fast.scpi a ->
            Fast.lookup (Fast.scpi a) (Fast.store (Fast.store d x) y)
            = Some (Fast.merge x y)).
  { intros x y Hx Hy.
    assert (E : Fast.store d x = (d ++ [(Fast.scpi a, x)])%list).
    { unfold Fast.store; now rewrite Hx, Hnone. }
    rewrite E; unfold Fast.store; rewrite Hy.
    rewrite (lookup_app_new _ _ _ Hnone).
    exact (proj1 (lookup_update _ (fun existing => Fast.merge existing y)
                    _ _ (lookup_app_new _ _ x Hnone))). }
  split; [now apply Hstore|]. split; [now apply Hstore|].
  destruct (merge_fields a b) as [_ [Hd [Hg [Ha [He [Hcn [Hr [Hs _]]]]]]]].
  destruct (merge_fields b a) as [_ [Hd' [Hg' [Ha' [He' [Hcn' [Hr' [Hs' _]]]]]]]].
  unfold compatible in Hc.
  repeat (apply andb_prop in Hc; destruct Hc as [Hc ?]).
  subst ab ba.
  rewrite Hd, Hd', Hg, Hg', Ha, Ha', He, He', Hcn, Hcn', Hr, Hr', Hs, Hs'.
  assert (Hstr : forall a0 b0 : string, (a0 =? b0) = true -> a0 = b0)
    by (intros; now apply String.eqb_eq).
  repeat apply conj;
    try (apply (absorb_either_order _ String.eqb); assumption);
    try (apply (absorb_either_order _ (list_eqb example_eqb));
         [exact examples_eqb_eq | assumption]).
  intros s; split.
  - intros Hin; apply in_app_or in Hin; apply in_or_app.
    destruct Hin as [Hin|Hin].
    + destruct (mem s (Fast.syntax b)) eqn:E.
      * left; now apply mem_true_iff.
      * right; apply filter_In; now rewrite E.
    + apply filter_In in Hin; tauto.
  - intros Hin; apply in_app_or in Hin; apply in_or_app.
    destruct Hin as [Hin|Hin].
    + destruct (mem s (Fast.syntax a)) eqn:E.
      * left; now apply mem_true_iff.
      * right; apply filter_In; now rewrite E.
    + apply filter_In in Hin; tauto.
Qed.

End MergeOrder.

Lemma merge_orders_agree_without_conflict_witness :
  Fast.lookup (Fast.scpi Scenarios.idn_first) [] = None
  /\ Fast.scpi Scenarios.idn_second = Fast.scpi Scenarios.idn_first
  /\ Notions.compatible Scenarios.idn_first Scenarios.idn_second = true
  /\ Fast.lookup (Fast.scpi Scenarios.idn_first)
       (Fast.store (Fast.store [] Scenarios.idn_first) Scenarios.idn_second)
     = Some (Fast.merge Scenarios.idn_first Scenarios.idn_second).
Proof.
  split; [reflexivity|]; split; [reflexivity|]; split; [reflexivity|].
  exact (proj1 (merge_orders_agree_without_conflict []
                  Scenarios.idn_first Scenarios.idn_second
                  eq_refl eq_refl eq_refl)).
Defined.

(** Two records of one mnemonic with different descriptions: merged in
    one order the output holds the first description, merged in the
    other order it holds the second, and the syntax lines come in the
    order of the merges. *)
Lemma merge_is_not_commutative :
  Fast.store (Fast.store [] Scenarios.scale_sets) Scenarios.scale_queries
    <> Fast.store (Fast.store [] Scenarios.scale_queries) Scenarios.scale_sets
  /\ Fast.description (Fast.merge Scenarios.scale_sets Scenarios.scale_queries)
     = Some "Sets the vertical scale."
  /\ Fast.description (Fast.merge Scenarios.scale_queries Scenarios.scale_sets)
     = Some "Queries the vertical scale.".
Proof.
  repeat split; try (vm_compute; reflexivity).
  intros H; vm_compute in H; discriminate H.
Qed.

(** ** The paragraph state machines *)

Section StateMachine.

Import Notions.

Variable G : Fast.command_groups.

Lemma finalize_counts (p : Fast.parser) :
  List.length (Fast.finalized (Fast.finalize_command G p))
  = List.length (Fast.finalized p) + open_records p
  /\ Fast.current_cmd (Fast.finalize_command G p) = None.
Proof.
  unfold Fast.finalize_command, open_records.
  destruct (Fast.current_cmd p) eqn:E; simpl.
  - rewrite length_app; simpl; split; reflexivity.
  - rewrite E; split; [lia | reflexivity].
Qed.

(** One paragraph: a header closes the open record, if any, and opens
    one; any other paragraph closes and opens nothing. *)
Lemma step_counts (p : Fast.parser) (para : Fast.paragraph) :
  List.length (Fast.finalized (Fast.step G p para))
    + open_records (Fast.step G p para)
  = List.length (Fast.finalized p) + open_records p
    + (if Fast.is_header G para then 1 else 0).
Proof.
  unfold Fast.step, Fast.is_header, Fast.classify.
  destruct (negb (nonempty (strip (Fast.text para)))); [lia|].
  destruct (startswith _ _).
  { unfold open_records; destruct (Fast.current_cmd p) eqn:E; simpl;
      rewrite ?E; lia. }
  destruct (Fast.keyword _).
  { unfold Fast.save_current_section, open_records.
    destruct (Fast.current_cmd p) eqn:E; simpl; rewrite ?E; lia. }
  destruct (Fast.header_of G para).
  { destruct (finalize_counts p) as [H1 H2].
    unfold open_records at 1; simpl; rewrite H1; lia. }
  match goal with |- context [match ?x with Some _ => _ | None => _ end] =>
    destruct x eqn:Ecap end.
  { destruct (Fast.current_cmd p) eqn:E; [|discriminate].
    unfold open_records; simpl; rewrite E; lia. }
  unfold open_records; destruct (Fast.current_cmd p) eqn:E; [|rewrite E; lia].
  destruct (negb _); simpl; rewrite ?E; lia.
Qed.

Lemma feed_counts (doc : list Fast.paragraph) (p : Fast.parser) :
  List.length (Fast.finalized (Fast.feed G p doc))
    + open_records (Fast.feed G p doc)
  = List.length (Fast.finalized p) + open_records p
    + List.length (filter (Fast.is_header G) doc).
Proof.
  unfold Fast.feed; revert p; induction doc as [|para doc IH]; intros p;
    simpl; [lia|].
  rewrite IH, step_counts.
  destruct (Fast.is_header G para); simpl; lia.
Qed.

Lemma step_counts_fa (p : FontAware.parser) (para : FontAware.paragraph) :
  List.length (FontAware.commands (FontAware.step G p para))
    + open_records_fa (FontAware.step G p para)
  = List.length (FontAware.commands p) + open_records_fa p
    + (if FontAware.is_header G para then 1 else 0).
Proof.
  unfold FontAware.step, FontAware.is_header, FontAware.header_info.
  destruct (negb (nonempty (strip (FontAware.text para)))); [lia|].
  destruct (FontAware.MASTER_CMD_MAP G _); [destruct (FontAware.is_bold para)|].
  - unfold open_records_fa at 1; simpl; rewrite length_app.
    unfold FontAware.flushed, open_records_fa.
    destruct (FontAware.current_cmd p); simpl; lia.
  - unfold open_records_fa; destruct (FontAware.current_cmd p) eqn:E;
      [|rewrite E; lia].
    destruct (FontAware.SECTION_MAP _); simpl; [lia|].
    destruct (_ || _); simpl; lia.
  - unfold open_records_fa; destruct (FontAware.current_cmd p) eqn:E;
      [|rewrite E; lia].
    destruct (FontAware.SECTION_MAP _); simpl; [lia|].
    destruct (_ || _); simpl; lia.
Qed.

Lemma feed_counts_fa (doc : list FontAware.paragraph) (p : FontAware.parser) :
  List.length (FontAware.commands (FontAware.feed G p doc))
    + open_records_fa (FontAware.feed G p doc)
  = List.length (FontAware.commands p) + open_records_fa p
    + List.length (filter (FontAware.is_header G) doc).
Proof.
  unfold FontAware.feed; revert p; induction doc as [|para doc IH]; intros p;
    simpl; [lia|].
  rewrite IH, step_counts_fa.
  destruct (FontAware.is_header G para); simpl; lia.
Qed.

(** C7: after any number of paragraphs of the pass, the records
    finalized so far and the open record, of which there is one at most,
    are together as many as the header paragraphs read so far; at the
    end of the pass no record is open, and the records finalized, before
    any merge, are as many as the header paragraphs of the document.  In
    [extract_fast.py] the finalized records are those handed to the
    store step; in the font-aware script they are the list returned. *)
Theorem header_exclusivity (doc : list Fast.paragraph)
    (doc_fa : list FontAware.paragraph) (n : nat) :
  let p := Fast.feed G Fast.initial (firstn n doc) in
  let q := FontAware.feed G FontAware.initial (firstn n doc_fa) in
  open_records p <= 1
  /\ List.length (Fast.finalized p) + open_records p
     = List.length (filter (Fast.is_header G) (firstn n doc))
  /\ Fast.current_cmd (Fast.extract G doc) = None
  /\ List.length (Fast.finalized (Fast.extract G doc))
     = List.length (filter (Fast.is_header G) doc)
  /\ open_records_fa q <= 1
  /\ List.length (FontAware.commands q) + open_records_fa q
     = List.length (filter (FontAware.is_header G) (firstn n doc_fa))
  /\ List.length (FontAware.extract_commands G doc_fa)
     = List.length (filter (FontAware.is_header G) doc_fa).
Proof.
  intros p q; repeat apply conj.
  - unfold open_records; destruct (Fast.current_cmd p); lia.
  - subst p; rewrite feed_counts; reflexivity.
  - unfold Fast.extract; apply finalize_counts.
  - unfold Fast.extract.
    destruct (finalize_counts (Fast.feed G Fast.initial doc)) as [H _].
    rewrite H, feed_counts; reflexivity.
  - unfold open_records_fa; destruct (FontAware.current_cmd q); lia.
  - subst q; rewrite feed_counts_fa; reflexivity.
  - unfold FontAware.extract_commands; rewrite length_app.
    pose proof (feed_counts_fa doc_fa FontAware.initial) as H.
    unfold FontAware.flushed, open_records_fa in *.
    destruct (FontAware.current_cmd (FontAware.feed G FontAware.initial doc_fa));
      simpl in *; lia.
Qed.

(** A paragraph that is no header, read while no record is open, leaves
    none open and stores nothing. *)
Lemma step_idle (p : Fast.parser) (para : Fast.paragraph) :
  Fast.current_cmd p = None ->
  Fast.is_header G para = false ->
  Fast.current_cmd (Fast.step G p para) = None
  /\ Fast.commands (Fast.step G p para) = Fast.commands p
  /\ Fast.finalized (Fast.step G p para) = Fast.finalized p
  /\ Fast.buffer (Fast.step G p para) = Fast.buffer p.
Proof.
  intros E; unfold Fast.step, Fast.is_header, Fast.classify.
  destruct (negb (nonempty (strip (Fast.text para)))); [auto|].
  destruct (startswith _ _); [rewrite E; auto|].
  destruct (Fast.keyword _).
  { intros _; unfold Fast.save_current_section; rewrite E; simpl; auto. }
  destruct (Fast.header_of G para); [discriminate|].
  intros _; rewrite E; auto.
Qed.

Lemma step_content_dropped (p : Fast.parser) (para : Fast.paragraph) :
  Fast.current_cmd p = None ->
  Fast.classify G para = Fast.CONTENT ->
  Fast.step G p para = p.
Proof.
  intros E; unfold Fast.step, Fast.classify.
  destruct (negb (nonempty (strip (Fast.text para)))); [reflexivity|].
  destruct (startswith _ _); [now rewrite E|].
  destruct (Fast.keyword _); [discriminate|].
  destruct (Fast.header_of G para); [discriminate|].
  now rewrite E.
Qed.

Lemma feed_idle (pre : list Fast.paragraph) (p : Fast.parser) :
  Fast.current_cmd p = None ->
  forallb (fun x => negb (Fast.is_header G x)) pre = true ->
  Fast.current_cmd (Fast.feed G p pre) = None
  /\ Fast.commands (Fast.feed G p pre) = Fast.commands p
  /\ Fast.finalized (Fast.feed G p pre) = Fast.finalized p
  /\ Fast.buffer (Fast.feed G p pre) = Fast.buffer p.
Proof.
  revert p; induction pre as [|x pre IH]; intros p E H; simpl in *; [auto|].
  apply andb_prop in H; destruct H as [Hx H].
  apply negb_true_iff in Hx.
  destruct (step_idle p x E Hx) as [E' [C [F B]]].
  destruct (IH _ E' H) as [E'' [C' [F' B']]].
  unfold Fast.feed in *; rewrite E'', C', F', B'; auto.
Qed.

Lemma step_dropped_fa (p : FontAware.parser) (para : FontAware.paragraph) :
  FontAware.current_cmd p = None ->
  FontAware.is_header G para = false ->
  FontAware.step G p para = p.
Proof.
  intros E; unfold FontAware.step, FontAware.is_header.
  destruct (negb (nonempty (strip (FontAware.text para)))); [reflexivity|].
  destruct (FontAware.header_info G para); [discriminate|].
  now rewrite E.
Qed.

Lemma feed_dropped_fa (pre : list FontAware.paragraph) (p : FontAware.parser) :
  FontAware.current_cmd p = None ->
  forallb (fun x => negb (FontAware.is_header G x)) pre = true ->
  FontAware.feed G p pre = p.
Proof.
  revert p; induction pre as [|x pre IH]; intros p E H; simpl in *;
    [reflexivity|].
  apply andb_prop in H; destruct H as [Hx H].
  apply negb_true_iff in Hx.
  rewrite (step_dropped_fa p x E Hx); now apply IH.
Qed.

(** C8: a content paragraph read before any header leaves the parser as
    it is: no record is opened, stored or finalized, the section and the
    buffer stay, and the rest of the document is read as if the
    paragraph were not there.  In the font-aware script every paragraph
    before the first header is dropped this way.  The step is a total
    function: there is no failure to raise. *)
Theorem content_before_first_header_is_dropped
    (pre post : list Fast.paragraph) (para : Fast.paragraph)
    (pre_fa post_fa : list FontAware.paragraph) (para_fa : FontAware.paragraph) :
  forallb (fun x => negb (Fast.is_header G x)) pre = true ->
  Fast.classify G para = Fast.CONTENT ->
  forallb (fun x => negb (FontAware.is_header G x)) pre_fa = true ->
  FontAware.is_header G para_fa = false ->
  let p := Fast.feed G Fast.initial pre in
  let q := FontAware.feed G FontAware.initial pre_fa in
  Fast.current_cmd p = None /\ Fast.commands p = [] /\ Fast.finalized p = []
  /\ Fast.step G p para = p
  /\ Fast.extract G (pre ++ para :: post) = Fast.extract G (pre ++ post)
  /\ q = FontAware.initial
  /\ FontAware.step G q para_fa = q
  /\ FontAware.extract_commands G (pre_fa ++ para_fa :: post_fa)
     = FontAware.extract_commands G (pre_fa ++ post_fa).
Proof.
  intros Hpre Hpara Hpre_fa Hpara_fa p q.
  destruct (feed_idle pre Fast.initial eq_refl Hpre) as [E [C [F _]]].
  assert (Hstep : Fast.step G p para = p)
    by (apply step_content_dropped; assumption).
  assert (Hq : q = FontAware.initial)
    by (apply feed_dropped_fa; [reflexivity | assumption]).
  assert (Hstep_fa : FontAware.step G q para_fa = q)
    by (apply step_dropped_fa; [now rewrite Hq | assumption]).
  repeat apply conj; try assumption.
  - unfold Fast.extract, Fast.feed; rewrite !fold_left_app; simpl.
    fold (Fast.feed G Fast.initial pre); fold p; now rewrite Hstep.
  - unfold FontAware.extract_commands, FontAware.feed.
    rewrite !fold_left_app; simpl.
    fold (FontAware.feed G FontAware.initial pre_fa); fold q.
    now rewrite Hstep_fa.
Qed.

End StateMachine.

Lemma content_before_first_header_is_dropped_witness :
  Fast.extract Scenarios.small_index
    ([Scenarios.arial "Programmer Manual"]
       ++ Scenarios.arial "Table of contents" :: Scenarios.acquire_manual)
  = Fast.extract Scenarios.small_index
      ([Scenarios.arial "Programmer Manual"] ++ Scenarios.acquire_manual)
  /\ FontAware.extract_commands Scenarios.small_index
       (Scenarios.front_matter_fa
          ++ Scenarios.plain "Table of contents" :: Scenarios.acquire_manual_fa)
     = FontAware.extract_commands Scenarios.small_index
         (Scenarios.front_matter_fa ++ Scenarios.acquire_manual_fa).
Proof.
  pose proof (content_before_first_header_is_dropped Scenarios.small_index
                [Scenarios.arial "Programmer Manual"] Scenarios.acquire_manual
                (Scenarios.arial "Table of contents")
                Scenarios.front_matter_fa Scenarios.acquire_manual_fa
                (Scenarios.plain "Table of contents")
                eq_refl eq_refl eq_refl eq_refl) as H.
  split; [exact (proj1 (proj2 (proj2 (proj2 (proj2 H)))))
         | exact (proj2 (proj2 (proj2 (proj2 (proj2 (proj2 (proj2 H)))))))].
Defined.

(** ** The syntax splitter *)

Section Splitter.

Lemma drop_0 (s : string) : drop 0 s = s.
Proof. destruct s; reflexivity. Qed.
















End Splitter.



(** The split of the combined line of the acquisition state command. *)
Lemma syntax_split_acquire_state :
  Fast.split_syntax "ACQuire:STATE" ["ACQuire:STATE {ON|OFF} ACQuire:STATE?"]
    = ("ACQuire:STATE {ON|OFF}", "ACQuire:STATE?")
  /\ MSO.detect_command_type ["ACQuire:STATE {ON|OFF} ACQuire:STATE?"]
       "ACQuire:STATE"
     = (Some "ACQuire:STATE {ON|OFF}", "ACQuire:STATE?").
Proof. split; vm_compute; reflexivity. Qed.

(** ** Parameter inference *)

Section Parameters.

Import Notions.














Lemma mem_app (x : string) (l l' : list string) :
  mem x (l ++ l') = mem x l || mem x l'.
Proof. unfold mem; apply existsb_app. Qed.






















End Parameters.


(** The same two brace groups in [extract_fast.py]: the first wins. *)
Lemma first_brace_group_wins :
  map (fun p => (Fast.p_name p, Fast.p_type p, Fast.p_options p))
      (Fast.build_params "X"
         (Fast.set_syntax ["X {ON|OFF} {RUN|STOP}"] (Fast.new_cmd [] "X")))
  = [("value", Fast.Enumeration, ["ON"; "OFF"])].
Proof. vm_compute; reflexivity. Qed.

(** * Further properties *)

(** ** Trimming *)

Section Trimming.

Lemma lstrip_head (s : string) :
  match lstrip s with
  | EmptyString => True
  | String c _ => isspace c = false
  end.
Proof.
  induction s as [|c s IH]; simpl; [exact I|].
  destruct (isspace c) eqn:E; [exact IH | exact E].
Qed.

Lemma rstrip_idempotent (s : string) : rstrip (rstrip s) = rstrip s.
Proof.
  induction s as [|c s IH]; simpl; [reflexivity|].
  destruct (isspace c && negb (nonempty (rstrip s))) eqn:E; [reflexivity|].
  simpl; now rewrite IH, E.
Qed.

Lemma lstrip_rstrip (s : string) :
  match s with EmptyString => True | String c _ => isspace c = false end ->
  lstrip (rstrip s) = rstrip s.
Proof.
  destruct s as [|c s]; simpl; [reflexivity|].
  intros E; rewrite E; simpl; now rewrite E.
Qed.

(** Trimming a trimmed text changes nothing. *)
Lemma strip_idempotent (s : string) : strip (strip s) = strip s.
Proof.
  unfold strip.
  rewrite (lstrip_rstrip (lstrip s) (lstrip_head s)).
  apply rstrip_idempotent.
Qed.

End Trimming.

(** ** Wildcard expansion, continued *)

Section WildcardsMore.

Ltac numbered_member H :=
  vm_compute in H;
  repeat (destruct H as [H|H]; [subst; vm_compute; reflexivity|]);
  contradiction.

(** An entry that one option expands to is an option that expands to
    itself alone: it is trimmed, not empty and holds no placeholder. *)
Lemma expand_one_fixed (raw x : string) :
  In x (FontAware.expand_one raw) -> FontAware.expand_one x = [x].
Proof.
  unfold FontAware.expand_one at 1.
  destruct (negb (nonempty (strip raw))) eqn:E0; [intros []|].
  destruct (FontAware.has_placeholder "CH" (strip raw)) eqn:E1;
    [intros H; numbered_member H|].
  destruct (FontAware.has_placeholder "MATH" (strip raw)) eqn:E2;
    [intros H; numbered_member H|].
  destruct (FontAware.has_placeholder "REF" (strip raw)) eqn:E3;
    [intros H; numbered_member H|].
  destruct (Re.found (Re.search true (Re.Alt (FontAware.placeholder "BUS")
                                        (FontAware.placeholder "B"))
                        (strip raw))) eqn:E4.
  { destruct (contains "B<" (strip raw)); intros H; numbered_member H. }
  destruct (FontAware.has_placeholder "MEAS" (strip raw)) eqn:E5;
    [intros H; numbered_member H|].
  destruct (FontAware.has_placeholder "SEARCH" (strip raw)) eqn:E6;
    [intros H; numbered_member H|].
  destruct (FontAware.has_placeholder "PLOT" (strip raw)) eqn:E7;
    [intros H; numbered_member H|].
  destruct (Re.found (Re.search true FontAware.re_value_placeholder
                        (strip raw))) eqn:E8; [intros []|].
  intros [<-|[]]; unfold FontAware.expand_one.
  now rewrite strip_idempotent, E0, E1, E2, E3, E4, E5, E6, E7, E8.
Qed.

Lemma flat_map_fixed (l : list string) :
  (forall x, In x l -> FontAware.expand_one x = [x]) ->
  flat_map FontAware.expand_one l = l.
Proof.
  induction l as [|a l IH]; intros H; simpl; [reflexivity|].
  rewrite (H a (or_introl eq_refl)), IH; [reflexivity|].
  intros x Hx; apply H; now right.
Qed.

Lemma unique_from_NoDup (l seen : list string) :
  NoDup l -> (forall x, In x l -> ~ In x seen) ->
  FontAware.unique_from seen l = l.
Proof.
  revert seen; induction l as [|a l IH]; intros seen Hnd Hs; simpl;
    [reflexivity|].
  inversion Hnd; subst.
  destruct (mem a seen) eqn:E.
  - apply mem_true_iff in E; exfalso; apply (Hs a); [now left | assumption].
  - f_equal; apply IH; [assumption|].
    intros x Hx [<-|Hin]; [contradiction|].
    apply (Hs x); [now right | assumption].
Qed.

(** Expanding an expanded list gives the same list again. *)
Theorem expand_wildcards_idempotent (option_list : list string) :
  FontAware.expand_wildcards (FontAware.expand_wildcards option_list)
  = FontAware.expand_wildcards option_list.
Proof.
  destruct (expand_wildcards_shape option_list) as [Hnd [Hlen Hin]].
  set (r := FontAware.expand_wildcards option_list) in *.
  unfold FontAware.expand_wildcards at 1.
  rewrite flat_map_fixed.
  - rewrite (unique_from_NoDup r [] Hnd) by (intros x _ []).
    apply firstn_all2; exact Hlen.
  - intros x Hx; destruct (Hin x Hx) as [opt [_ Hopt]].
    exact (expand_one_fixed opt x Hopt).
Qed.

(** No entry of the result is empty, untrimmed, or holds a placeholder
    of an indexed family or of a numeric or string value. *)
Theorem expand_wildcards_leaves_no_placeholder (option_list : list string)
    (x : string) :
  In x (FontAware.expand_wildcards option_list) ->
  nonempty x = true /\ strip x = x
  /\ Re.found (Re.search true FontAware.re_value_placeholder x) = false
  /\ forall family,
       In family ["CH"; "MATH"; "REF"; "BUS"; "B"; "MEAS"; "SEARCH"; "PLOT"] ->
       FontAware.has_placeholder family x = false.
Proof.
  intros Hx.
  destruct (expand_wildcards_shape option_list) as [_ [_ Hin]].
  destruct (Hin x Hx) as [raw [_ Hraw]]; clear Hin Hx.
  assert (Hfix : forall y, In y (FontAware.expand_one raw) ->
            nonempty y = true /\ strip y = y
            /\ Re.found (Re.search true FontAware.re_value_placeholder y) = false
            /\ forallb (fun family => negb (FontAware.has_placeholder family y))
                 ["CH"; "MATH"; "REF"; "BUS"; "B"; "MEAS"; "SEARCH"; "PLOT"]
               = true).
  { unfold FontAware.expand_one.
    destruct (negb (nonempty (strip raw))) eqn:E0; [intros y []|].
    destruct (FontAware.has_placeholder "CH" (strip raw)) eqn:E1.
    { intros y H; vm_compute in H.
      repeat (destruct H as [H|H];
              [subst; vm_compute; repeat split; reflexivity|]);
        contradiction. }
    destruct (FontAware.has_placeholder "MATH" (strip raw)) eqn:E2.
    { intros y H; vm_compute in H.
      repeat (destruct H as [H|H];
              [subst; vm_compute; repeat split; reflexivity|]);
        contradiction. }
    destruct (FontAware.has_placeholder "REF" (strip raw)) eqn:E3.
    { intros y H; vm_compute in H.
      repeat (destruct H as [H|H];
              [subst; vm_compute; repeat split; reflexivity|]);
        contradiction. }
    destruct (Re.found (Re.search true (Re.Alt (FontAware.placeholder "BUS")
                                          (FontAware.placeholder "B"))
                          (strip raw))) eqn:E4.
    { destruct (contains "B<" (strip raw)); intros y H; vm_compute in H;
        repeat (destruct H as [H|H];
                [subst; vm_compute; repeat split; reflexivity|]);
        contradiction. }
    destruct (FontAware.has_placeholder "MEAS" (strip raw)) eqn:E5.
    { intros y H; vm_compute in H.
      repeat (destruct H as [H|H];
              [subst; vm_compute; repeat split; reflexivity|]);
        contradiction. }
    destruct (FontAware.has_placeholder "SEARCH" (strip raw)) eqn:E6.
    { intros y H; vm_compute in H.
      repeat (destruct H as [H|H];
              [subst; vm_compute; repeat split; reflexivity|]);
        contradiction. }
    destruct (FontAware.has_placeholder "PLOT" (strip raw)) eqn:E7.
    { intros y H; vm_compute in H.
      repeat (destruct H as [H|H];
              [subst; vm_compute; repeat split; reflexivity|]);
        contradiction. }
    destruct (Re.found (Re.search true FontAware.re_value_placeholder
                          (strip raw))) eqn:E8; [intros y []|].
    intros y [<-|[]].
    apply negb_false_iff in E0.
    repeat split; [assumption | apply strip_idempotent | assumption |].
    cbn [forallb]; rewrite E1, E2, E3, E5, E6, E7; simpl.
    (* the joint test for BUS and B failed, so each of the two fails *)
    unfold FontAware.has_placeholder.
    assert (Halt : forall s i,
              Re.search_from true (Re.Alt (FontAware.placeholder "BUS")
                                     (FontAware.placeholder "B")) (strip raw) i s
              = None ->
              Re.search_from true (FontAware.placeholder "BUS") (strip raw) i s
              = None
              /\ Re.search_from true (FontAware.placeholder "B") (strip raw) i s
                 = None).
    { induction s as [|c s IH]; intros i; cbn [Re.search_from];
        unfold Re.match_at; cbn [Re.run];
        destruct (Re.run true (FontAware.placeholder "BUS") i _ [] _)
          eqn:R1; try discriminate;
        destruct (Re.run true (FontAware.placeholder "B") i _ [] _)
          eqn:R2; try discriminate; auto. }
    unfold Re.search in E4.
    destruct (Re.search_from true _ (strip raw) 0 (strip raw)) eqn:ES;
      [discriminate|].
    destruct (Halt _ _ ES) as [H1 H2].
    unfold Re.search; now rewrite H1, H2. }
  destruct (Hfix x Hraw) as [H1 [H2 [H3 H4]]].
  repeat split; try assumption.
  intros family Hf; rewrite forallb_forall in H4.
  apply negb_true_iff, H4, Hf.
Qed.

End WildcardsMore.

(** ** Canonical lookup, continued *)

Section LookupMore.

Variable G : Fast.command_groups.

(** Some character of the text satisfies [p]. *)
Fixpoint any_char (p : ascii -> bool) (s : string) : bool :=
  match s with
  | EmptyString => false
  | String c t => p c || any_char p t
  end.

Lemma any_char_app (p : ascii -> bool) (a b : string) :
  any_char p (a ++ b) = any_char p a || any_char p b.
Proof.
  induction a as [|c a IH]; simpl; [reflexivity|].
  now rewrite IH, orb_assoc.
Qed.

Lemma upper_char_not_lower (c : ascii) : islower (upper_char c) = false.
Proof. destruct c as [[] [] [] [] [] [] [] []]; reflexivity. Qed.

Lemma upper_has_no_lower (s : string) : any_char islower (upper s) = false.
Proof.
  unfold upper; induction s as [|c s IH]; cbn [map_chars any_char];
    [reflexivity|].
  now rewrite upper_char_not_lower, IH.
Qed.

(** A text in which a run of digits was replaced holds the small [x]
    of the replacement. *)
Lemma sub_placeholder_has_lower (ms : list Re.rmatch) (s : string) (pos : nat) :
  ms <> [] -> any_char islower (Re.sub_from ms "<x>" s pos) = true.
Proof.
  destruct ms as [|m ms]; [congruence|]; intros _; simpl.
  rewrite any_char_app; simpl.
  now rewrite orb_true_r.
Qed.

(** A token resolves only to an entry of the index, and only to one
    whose upper-cased text is the upper-cased, trimmed token: the second
    pass, which rewrites digits to [<x>], never finds an entry. *)
Theorem lookup_only_exact (text c : string) :
  Fast.is_command_in_master_list G text = Some c ->
  In c (Fast.ALL_COMMANDS G) /\ upper c = strip (upper text).
Proof.
  unfold Fast.is_command_in_master_list.
  destruct (negb (nonempty text)); [discriminate|].
  set (T := strip (upper text)).
  destruct (if mem T (map upper (Fast.ALL_COMMANDS G))
            then List.find (fun c0 => upper c0 =? T) (Fast.ALL_COMMANDS G)
            else None) as [c0|] eqn:Ed.
  - intros H; injection H as <-.
    destruct (mem T _); [|discriminate].
    apply find_some in Ed; destruct Ed as [Hin Heq].
    apply String.eqb_eq in Heq; auto.
  - intros H; apply find_some in H; destruct H as [Hin Heq].
    apply String.eqb_eq in Heq; split; [assumption|].
    unfold Re.sub in Heq.
    destruct (Re.finditer false (Re.Plus Re.digit) T) as [|m ms] eqn:Ef.
    + cbn [Re.sub_from] in Heq; rewrite drop_0 in Heq; congruence.
    + exfalso.
      pose proof (sub_placeholder_has_lower (m :: ms) T 0) as Hl.
      rewrite Heq, upper_has_no_lower in Hl.
      discriminate Hl; congruence.
Qed.

End LookupMore.

Lemma lookup_only_exact_witness :
  Fast.is_command_in_master_list Scenarios.small_index " acquire:state "
    = Some "ACQuire:STATE"
  /\ In "ACQuire:STATE" (Fast.ALL_COMMANDS Scenarios.small_index)
  /\ upper "ACQuire:STATE" = strip (upper " acquire:state ").
Proof.
  split; [reflexivity|].
  apply (lookup_only_exact Scenarios.small_index); reflexivity.
Defined.

Lemma expand_wildcards_leaves_no_placeholder_witness :
  In "ON" (FontAware.expand_wildcards ["ON"; "<NR1>"; " CH<x> "])
  /\ strip "ON" = "ON".
Proof.
  split; [vm_compute; left; reflexivity|].
  apply (expand_wildcards_leaves_no_placeholder ["ON"; "<NR1>"; " CH<x> "] "ON").
  vm_compute; left; reflexivity.
Defined.

(** ** The output of the paragraph loop of [extract_fast.py] *)

Section FastOutput.

Variable G : Fast.command_groups.

(** The mnemonics of the header paragraphs of a document, in order. *)
Definition header_mnemonics (doc : list Fast.paragraph) : list string :=
  flat_map (fun para => match Fast.classify G para with
                        | Fast.HEADER m => [m]
                        | _ => []
                        end) doc.

Lemma header_mnemonics_length (doc : list Fast.paragraph) :
  List.length (header_mnemonics doc)
  = List.length (filter (Fast.is_header G) doc).
Proof.
  unfold header_mnemonics, Fast.is_header.
  induction doc as [|para doc IH]; simpl; [reflexivity|].
  rewrite length_app, IH.
  destruct (Fast.classify G para); reflexivity.
Qed.

(** The mnemonic of the open record, if any. *)
Definition open_mnemonic (p : Fast.parser) : list string :=
  match Fast.current_cmd p with Some c => [Fast.scpi c] | None => [] end.

Lemma finalize_trace (p : Fast.parser) :
  map Fast.scpi (Fast.finalized (Fast.finalize_command G p))
  = (map Fast.scpi (Fast.finalized p) ++ open_mnemonic p)%list.
Proof.
  unfold Fast.finalize_command, open_mnemonic.
  destruct (Fast.current_cmd p) as [c|]; simpl; [|now rewrite app_nil_r].
  rewrite map_app; simpl.
  destruct (normalize_scpi_group G
              (Fast.save_section G (Fast.state p) (Fast.buffer p) c)) as [E _].
  now rewrite E, scpi_save_section.
Qed.

Lemma step_trace (p : Fast.parser) (para : Fast.paragraph) :
  (map Fast.scpi (Fast.finalized (Fast.step G p para))
   ++ open_mnemonic (Fast.step G p para))%list
  = (map Fast.scpi (Fast.finalized p) ++ open_mnemonic p
     ++ header_mnemonics [para])%list.
Proof.
  unfold header_mnemonics; cbn [flat_map]; rewrite app_nil_r.
  unfold Fast.step, Fast.classify.
  destruct (negb (nonempty (strip (Fast.text para)))); [now rewrite app_nil_r|].
  destruct (startswith _ _).
  { rewrite app_nil_r; unfold open_mnemonic.
    destruct (Fast.current_cmd p) eqn:E; simpl; rewrite ?E; reflexivity. }
  destruct (Fast.keyword _).
  { rewrite app_nil_r; unfold Fast.save_current_section, open_mnemonic.
    destruct (Fast.current_cmd p) eqn:E; simpl; rewrite ?E;
      [now rewrite scpi_save_section | reflexivity]. }
  destruct (Fast.header_of G para) as [m|].
  { unfold open_mnemonic at 1; simpl.
    now rewrite finalize_trace, app_assoc. }
  rewrite app_nil_r.
  match goal with |- context [match ?x with Some _ => _ | None => _ end] =>
    destruct x eqn:Ecap end.
  { destruct (Fast.current_cmd p) eqn:E; [|discriminate].
    destruct (Fast.extract_courier_new_text para); [|discriminate].
    destruct (_ && _); [|discriminate].
    injection Ecap as <-.
    unfold open_mnemonic; simpl; rewrite E; reflexivity. }
  unfold open_mnemonic; destruct (Fast.current_cmd p) eqn:E;
    [|rewrite E; reflexivity].
  destruct (negb _); simpl; rewrite ?E; reflexivity.
Qed.

Lemma feed_trace (doc : list Fast.paragraph) (p : Fast.parser) :
  (map Fast.scpi (Fast.finalized (Fast.feed G p doc))
   ++ open_mnemonic (Fast.feed G p doc))%list
  = (map Fast.scpi (Fast.finalized p) ++ open_mnemonic p
     ++ header_mnemonics doc)%list.
Proof.
  unfold Fast.feed; revert p; induction doc as [|para doc IH]; intros p;
    cbn [fold_left].
  - unfold header_mnemonics; simpl; now rewrite app_nil_r.
  - rewrite IH, app_assoc, step_trace.
    change (para :: doc) with ([para] ++ doc)%list.
    unfold header_mnemonics; rewrite flat_map_app, !app_assoc; reflexivity.
Qed.

Lemma extract_trace (doc : list Fast.paragraph) :
  map Fast.scpi (Fast.finalized (Fast.extract G doc)) = header_mnemonics doc.
Proof.
  unfold Fast.extract; rewrite finalize_trace.
  apply (feed_trace doc Fast.initial).
Qed.

Lemma lookup_none_mem (key : string) (d : list (string * Fast.cmd)) :
  Fast.lookup key d = None <-> mem key (map fst d) = false.
Proof.
  induction d as [|[k v] d IH]; simpl; [tauto|].
  rewrite (String.eqb_sym key k).
  destruct (k =? key); simpl; [split; discriminate | exact IH].
Qed.

Lemma store_keys (d : list (string * Fast.cmd)) (c : Fast.cmd) :
  map fst (Fast.store d c)
  = (map fst d
     ++ if mem (Fast.scpi c) (map fst d) then [] else [Fast.scpi c])%list.
Proof.
  unfold Fast.store.
  destruct (Fast.lookup (Fast.scpi c) d) as [e|] eqn:E.
  - destruct (lookup_update _ (fun existing => Fast.merge existing c) _ _ E)
      as [_ H]; rewrite H.
    destruct (mem (Fast.scpi c) (map fst d)) eqn:Em;
      [now rewrite app_nil_r|].
    apply lookup_none_mem in Em; congruence.
  - apply lookup_none_mem in E; rewrite E, map_app; reflexivity.
Qed.

Lemma unique_from_snoc (l seen : list string) (x : string) :
  FontAware.unique_from seen (l ++ [x])
  = (FontAware.unique_from seen l
     ++ if mem x seen || mem x l then [] else [x])%list.
Proof.
  revert seen; induction l as [|a l IH]; intros seen; simpl.
  - rewrite orb_false_r; destruct (mem x seen); reflexivity.
  - destruct (mem a seen) eqn:Ea.
    + rewrite IH; f_equal.
      destruct (x =? a) eqn:Ex; simpl; [|reflexivity].
      apply String.eqb_eq in Ex; subst; now rewrite Ea.
    + rewrite IH; simpl; f_equal; f_equal.
      destruct (x =? a), (mem x seen); reflexivity.
Qed.

Lemma mem_unique_from (l : list string) (x : string) :
  mem x (FontAware.unique_from [] l) = mem x l.
Proof.
  destruct (unique_from_spec l []) as [_ H].
  destruct (mem x l) eqn:E.
  - apply mem_true_iff; apply H; split; [now apply mem_true_iff | tauto].
  - apply mem_false_iff; intros Hin; apply H in Hin.
    apply mem_false_iff in E; tauto.
Qed.

(** The keys of the output dictionary are the mnemonics finalized so
    far, each at the place of its first occurrence. *)
Definition keys_ok (p : Fast.parser) : Prop :=
  map fst (Fast.commands p)
  = FontAware.unique_from [] (map Fast.scpi (Fast.finalized p)).

Lemma finalize_keys (p : Fast.parser) :
  keys_ok p -> keys_ok (Fast.finalize_command G p).
Proof.
  unfold keys_ok, Fast.finalize_command; intros H.
  destruct (Fast.current_cmd p) as [c|]; [|assumption]; simpl.
  rewrite store_keys, map_app; cbn [map].
  rewrite unique_from_snoc, H; cbn [mem existsb orb].
  now rewrite mem_unique_from.
Qed.

Lemma step_keys (p : Fast.parser) (para : Fast.paragraph) :
  keys_ok p -> keys_ok (Fast.step G p para).
Proof.
  intros H; unfold Fast.step.
  destruct (negb (nonempty (strip (Fast.text para)))); [assumption|].
  destruct (startswith _ _).
  { destruct (Fast.current_cmd p); assumption. }
  destruct (Fast.keyword _).
  { unfold Fast.save_current_section; destruct (Fast.current_cmd p);
      assumption. }
  destruct (Fast.header_of G para); [exact (finalize_keys p H)|].
  match goal with |- context [match ?x with Some _ => _ | None => _ end] =>
    destruct x end; [assumption|].
  destruct (Fast.current_cmd p); [|assumption].
  destruct (negb _); assumption.
Qed.

Lemma feed_keys (doc : list Fast.paragraph) (p : Fast.parser) :
  keys_ok p -> keys_ok (Fast.feed G p doc).
Proof.
  unfold Fast.feed; revert p; induction doc as [|para doc IH]; intros p H;
    cbn [fold_left]; [assumption|].
  now apply IH, step_keys.
Qed.

(** The records are finalized in the order of the header paragraphs,
    one for each, under the mnemonic its header resolved to, and each
    is then found in the output under that mnemonic. *)
Theorem finalized_in_document_order (doc : list Fast.paragraph) :
  map Fast.scpi (Fast.finalized (Fast.extract G doc)) = header_mnemonics doc
  /\ forall c, In c (Fast.finalized (Fast.extract G doc)) ->
                Fast.lookup (Fast.scpi c) (Fast.commands (Fast.extract G doc))
                <> None.
Proof.
  split; [apply extract_trace|].
  intros c Hc Hnone.
  apply lookup_none_mem in Hnone.
  assert (Hk : keys_ok (Fast.extract G doc))
    by (apply finalize_keys, feed_keys; reflexivity).
  unfold keys_ok in Hk; rewrite Hk, mem_unique_from in Hnone.
  apply mem_false_iff in Hnone; apply Hnone.
  now apply in_map.
Qed.

(** The output dictionary holds one record for each mnemonic that heads
    a paragraph, no other, and in the order in which the mnemonics first
    occur in the document: a command documented in several places is
    one entry, and no command with a header is lost. *)
Theorem output_keys_are_distinct_headers (doc : list Fast.paragraph) :
  map fst (Fast.commands (Fast.extract G doc))
  = FontAware.unique_from [] (header_mnemonics doc)
  /\ NoDup (map fst (Fast.commands (Fast.extract G doc)))
  /\ (forall m, In m (map fst (Fast.commands (Fast.extract G doc)))
                <-> In m (header_mnemonics doc))
  /\ List.length (Fast.commands (Fast.extract G doc))
     <= List.length (filter (Fast.is_header G) doc).
Proof.
  assert (H : map fst (Fast.commands (Fast.extract G doc))
              = FontAware.unique_from [] (header_mnemonics doc)).
  { rewrite <- extract_trace.
    apply finalize_keys, feed_keys; reflexivity. }
  destruct (unique_from_spec (header_mnemonics doc) []) as [Hnd Hin].
  repeat split.
  - exact H.
  - rewrite H; exact Hnd.
  - rewrite H; intros Hm; now apply Hin.
  - rewrite H; intros Hm; apply Hin; tauto.
  - rewrite <- (length_map fst), H, <- header_mnemonics_length.
    clear; generalize (header_mnemonics doc) as l; intros l.
    generalize (@nil string) as seen.
    induction l as [|a l IH]; intros seen; simpl; [lia|].
    destruct (mem a seen); simpl;
      [specialize (IH seen) | specialize (IH (a :: seen))]; lia.
Qed.

End FastOutput.

(** ** The group of a record *)

Section GroupOverride.

(** The index gives a group to each of its commands. *)
Lemma index_has_group (G : Fast.command_groups) (m : string) :
  In m (Fast.ALL_COMMANDS G) -> exists g, Fast.COMMAND_TO_GROUP G m = Some g.
Proof.
  unfold Fast.ALL_COMMANDS; induction G as [|[name cmds] G' IH];
    cbn [flat_map snd Fast.COMMAND_TO_GROUP]; [intros []|].
  intros H; apply in_app_or in H.
  destruct (Fast.COMMAND_TO_GROUP G' m) as [g|] eqn:E; [eauto|].
  destruct H as [H|H].
  - apply mem_true_iff in H; rewrite H; eauto.
  - destruct (IH H) as [g Hg]; discriminate Hg.
Qed.

(** A header is a command of the index. *)
Lemma header_of_in_index (G : Fast.command_groups) (para : Fast.paragraph)
    (m : string) :
  Fast.header_of G para = Some m -> In m (Fast.ALL_COMMANDS G).
Proof.
  unfold Fast.header_of.
  destruct (Fast.extract_tahoma_text para) as [t|]; [|discriminate].
  destruct (nonempty t); [|discriminate].
  destruct (split_ws t) as [|w ws]; [discriminate|].
  destruct (Fast.is_command_in_master_list G w) as [c|] eqn:E; [|discriminate].
  destruct (nonempty c); [|discriminate].
  intros H; injection H as <-; exact (lookup_in_index G w c E).
Qed.

Lemma header_mnemonics_in_index (G : Fast.command_groups)
    (doc : list Fast.paragraph) (m : string) :
  In m (header_mnemonics G doc) -> In m (Fast.ALL_COMMANDS G).
Proof.
  unfold header_mnemonics; intros H; apply in_flat_map in H.
  destruct H as [para [_ H]]; unfold Fast.classify in H.
  destruct (negb (nonempty (strip (Fast.text para)))); [destruct H|].
  destruct (startswith _ _); [destruct H|].
  destruct (Fast.keyword _); [destruct H|].
  destruct (Fast.header_of G para) as [m'|] eqn:E; [|destruct H].
  destruct H as [<-|[]]; exact (header_of_in_index G para m' E).
Qed.

(** The records handed to the store step carry the group the index
    gives their mnemonic. *)
Definition finalized_ok (G : Fast.command_groups) (p : Fast.parser) : Prop :=
  Forall (fun c => Fast.group c
                   = Some (Fast.group_or_miscellaneous G (Fast.scpi c)))
         (Fast.finalized p).

Lemma finalize_finalized_ok (G : Fast.command_groups) (p : Fast.parser) :
  finalized_ok G p -> finalized_ok G (Fast.finalize_command G p).
Proof.
  unfold finalized_ok, Fast.finalize_command; intros H.
  destruct (Fast.current_cmd p) as [c|]; [|assumption]; cbn [Fast.finalized].
  apply Forall_app; split; [assumption|].
  constructor; [|constructor].
  destruct (normalize_scpi_group G
              (Fast.save_section G (Fast.state p) (Fast.buffer p) c))
    as [Hs Hg].
  now rewrite Hg, Hs.
Qed.

Lemma step_finalized_ok (G : Fast.command_groups) (p : Fast.parser)
    (para : Fast.paragraph) :
  finalized_ok G p -> finalized_ok G (Fast.step G p para).
Proof.
  intros H; unfold Fast.step.
  destruct (negb (nonempty (strip (Fast.text para)))); [assumption|].
  destruct (startswith _ _).
  { destruct (Fast.current_cmd p); assumption. }
  destruct (Fast.keyword _).
  { unfold Fast.save_current_section; destruct (Fast.current_cmd p);
      assumption. }
  destruct (Fast.header_of G para); [exact (finalize_finalized_ok G p H)|].
  match goal with |- context [match ?x with Some _ => _ | None => _ end] =>
    destruct x end; [assumption|].
  destruct (Fast.current_cmd p); [|assumption].
  destruct (negb _); assumption.
Qed.

Lemma feed_finalized_ok (G : Fast.command_groups) (doc : list Fast.paragraph)
    (p : Fast.parser) :
  finalized_ok G p -> finalized_ok G (Fast.feed G p doc).
Proof.
  unfold Fast.feed; revert p; induction doc as [|para doc IH]; intros p H;
    cbn [fold_left]; [assumption|].
  now apply IH, step_finalized_ok.
Qed.

(** C4: whatever the document, every finalized record and every record
    of the output has a mnemonic that heads a paragraph, hence a command
    of the index, to which the index gives a group; and the group of the
    record is that group, whatever text the body has under "Group".  A
    record without a mapping does not occur. *)
Theorem finalized_group_is_index_group (G : Fast.command_groups)
    (doc : list Fast.paragraph) (c : Fast.cmd) :
  In c (Fast.finalized (Fast.extract G doc))
  \/ In c (map snd (Fast.commands (Fast.extract G doc))) ->
  In (Fast.scpi c) (Fast.ALL_COMMANDS G)
  /\ exists g, Fast.COMMAND_TO_GROUP G (Fast.scpi c) = Some g
               /\ Fast.group c = Some g.
Proof.
  intros H.
  assert (Hc : In (Fast.scpi c) (header_mnemonics G doc)
               /\ Fast.group c
                  = Some (Fast.group_or_miscellaneous G (Fast.scpi c))).
  { destruct H as [H|H].
    - split.
      + rewrite <- extract_trace; now apply in_map.
      + assert (Hf : finalized_ok G (Fast.extract G doc)).
        { unfold Fast.extract.
          apply finalize_finalized_ok, feed_finalized_ok; constructor. }
        exact (proj1 (Forall_forall _ _) Hf c H).
    - apply in_map_iff in H; destruct H as [[k v] [Hv Hin]].
      cbn [snd] in Hv; subst v.
      assert (Hk : Notions.stored_ok G (Fast.commands (Fast.extract G doc))).
      { unfold Fast.extract; apply finalize_ok, feed_ok; intros k' v' []. }
      destruct (Hk k c Hin) as [Hkey Hg]; split; [|exact Hg].
      assert (Hkeys : keys_ok (Fast.extract G doc))
        by (apply finalize_keys, feed_keys; reflexivity).
      unfold keys_ok in Hkeys; rewrite extract_trace in Hkeys.
      assert (Hin' : In k (map fst (Fast.commands (Fast.extract G doc))))
        by (apply in_map_iff; exists (k, c); split; [reflexivity | exact Hin]).
      rewrite Hkeys in Hin'.
      apply (proj2 (unique_from_spec (header_mnemonics G doc) [])) in Hin'.
      rewrite <- Hkey; tauto. }
  destruct Hc as [Hm Hg].
  pose proof (header_mnemonics_in_index G doc _ Hm) as Hin.
  split; [exact Hin|].
  destruct (index_has_group G _ Hin) as [g Eg].
  exists g; split; [exact Eg|].
  rewrite Hg; unfold Fast.group_or_miscellaneous; now rewrite Eg.
Qed.

End GroupOverride.

Lemma finalized_group_is_index_group_witness :
  In Scenarios.acquire_record
     (map snd
        (Fast.commands
           (Fast.extract Scenarios.small_index Scenarios.acquire_manual)))
  /\ In (Fast.scpi Scenarios.acquire_record)
        (Fast.ALL_COMMANDS Scenarios.small_index)
  /\ exists g,
       Fast.COMMAND_TO_GROUP Scenarios.small_index
         (Fast.scpi Scenarios.acquire_record) = Some g
       /\ Fast.group Scenarios.acquire_record = Some g.
Proof.
  split; [vm_compute; left; reflexivity|].
  apply (finalized_group_is_index_group Scenarios.small_index
           Scenarios.acquire_manual Scenarios.acquire_record).
  right; vm_compute; left; reflexivity.
Defined.

(** ** The shape of the records of the output *)

Section RecordShape.

Variable G : Fast.command_groups.

(** A field that is absent or holds something: never an empty text or
    an empty list. *)
Definition absent_or_filled {A : Type} (t : option A -> bool) (x : option A)
  : Prop := x = None \/ t x = true.

(** The shape of a record of the output. *)
Definition shaped (c : Fast.cmd) : Prop :=
  Fast.description c <> None
  /\ Fast.group c <> None
  /\ absent_or_filled Fast.truthy (Fast.conditions c)
  /\ absent_or_filled Fast.truthy (Fast.returns c)
  /\ absent_or_filled Fast.truthy (Fast.arguments c)
  /\ absent_or_filled Fast.truthy_list (Fast.examples c)
  /\ absent_or_filled Fast.truthy_list (Fast.relatedCommands c).

(** An open record is in its description section or has its description
    written. *)
Definition open_ok (p : Fast.parser) : Prop :=
  match Fast.current_cmd p with
  | Some c => Fast.state p = Fast.DESCRIPTION \/ Fast.description c <> None
  | None => True
  end.

Lemma save_section_description (st : Fast.section) (buf : list string)
    (c : Fast.cmd) :
  st = Fast.DESCRIPTION \/ Fast.description c <> None ->
  Fast.description (Fast.save_section G st buf c) <> None.
Proof.
  intros [->|H]; [simpl; discriminate|].
  destruct st; simpl; try assumption; try discriminate.
  - destruct (filter nonempty (map strip buf)); assumption.
  - destruct buf; assumption.
  - destruct (filter _ _); assumption.
Qed.

Lemma normalize_shaped (c : Fast.cmd) :
  Fast.description c <> None -> shaped (Fast.normalize G c).
Proof.
  intros Hd; destruct c as [k d cn g sy rel ar ex rt nt]; simpl in Hd.
  unfold Fast.normalize, shaped, absent_or_filled; simpl.
  destruct (Fast.truthy_list rel) eqn:E1; simpl;
    destruct (Fast.truthy cn) eqn:E2; simpl;
    destruct (Fast.truthy rt) eqn:E3; simpl;
    destruct (Fast.truthy_list ex) eqn:E4; simpl;
    destruct (Fast.truthy ar) eqn:E5; simpl;
    repeat split; auto; discriminate.
Qed.

Lemma absorb_filled {A : Type} (t : option A -> bool) (x y : option A) :
  absent_or_filled t x -> absent_or_filled t y ->
  absent_or_filled t (Fast.absorb t x y).
Proof. unfold Fast.absorb; destruct (_ && _); auto. Qed.

Lemma absorb_some {A : Type} (t : option A -> bool) (x y : option A) :
  x <> None -> y <> None -> Fast.absorb t x y <> None.
Proof. unfold Fast.absorb; destruct (_ && _); auto. Qed.

Lemma merge_shaped (e c : Fast.cmd) :
  shaped e -> shaped c -> shaped (Fast.merge e c).
Proof.
  intros [E1 [E2 [E3 [E4 [E5 [E6 E7]]]]]] [C1 [C2 [C3 [C4 [C5 [C6 C7]]]]]].
  destruct (merge_fields e c)
    as [_ [Hd [Hg [Ha [He [Hc [Hr [_ [Hrel _]]]]]]]]].
  unfold shaped; rewrite Hd, Hg, Ha, He, Hc, Hr, Hrel.
  repeat split; auto using absorb_filled, absorb_some.
Qed.

Definition all_shaped (d : list (string * Fast.cmd)) : Prop :=
  forall k v, In (k, v) d -> shaped v.

Lemma store_shaped (d : list (string * Fast.cmd)) (c : Fast.cmd) :
  all_shaped d -> shaped c -> all_shaped (Fast.store d c).
Proof.
  intros Hd Hc k v; unfold Fast.store.
  destruct (Fast.lookup (Fast.scpi c) d).
  - intros Hin; apply in_update in Hin.
    destruct Hin as [Hin|[e [Hin [_ ->]]]]; [now apply (Hd k)|].
    apply merge_shaped; [now apply (Hd k) | assumption].
  - intros Hin; apply in_app_or in Hin; destruct Hin as [Hin|[Hin|[]]];
      [now apply (Hd k)|].
    now injection Hin as <- <-.
Qed.

Lemma finalize_shaped (p : Fast.parser) :
  all_shaped (Fast.commands p) -> open_ok p ->
  all_shaped (Fast.commands (Fast.finalize_command G p)).
Proof.
  unfold Fast.finalize_command, open_ok; intros H Ho.
  destruct (Fast.current_cmd p) as [c|]; [|assumption]; simpl.
  apply store_shaped; [assumption|].
  now apply normalize_shaped, save_section_description.
Qed.

Lemma step_shaped (p : Fast.parser) (para : Fast.paragraph) :
  all_shaped (Fast.commands p) /\ open_ok p ->
  all_shaped (Fast.commands (Fast.step G p para))
  /\ open_ok (Fast.step G p para).
Proof.
  intros [H Ho]; unfold Fast.step.
  destruct (negb (nonempty (strip (Fast.text para)))); [auto|].
  destruct (startswith _ _).
  { unfold open_ok in *; destruct (Fast.current_cmd p) eqn:E; simpl;
      rewrite ?E; auto. }
  destruct (Fast.keyword _).
  { unfold Fast.save_current_section, open_ok in *.
    destruct (Fast.current_cmd p) eqn:E; simpl; rewrite ?E; auto.
    split; [assumption|].
    right; now apply save_section_description. }
  destruct (Fast.header_of G para).
  { split; [now apply finalize_shaped | unfold open_ok; simpl; auto]. }
  match goal with |- context [match ?x with Some _ => _ | None => _ end] =>
    destruct x eqn:Ecap end.
  { destruct (Fast.current_cmd p) eqn:E; [|discriminate].
    destruct (Fast.extract_courier_new_text para); [|discriminate].
    destruct (_ && _); [|discriminate].
    injection Ecap as <-.
    unfold open_ok in *; simpl; rewrite E in Ho; auto. }
  unfold open_ok in *; destruct (Fast.current_cmd p) eqn:E;
    [|rewrite E; auto].
  destruct (negb _); simpl; rewrite ?E; auto.
Qed.

Lemma feed_shaped (doc : list Fast.paragraph) (p : Fast.parser) :
  all_shaped (Fast.commands p) /\ open_ok p ->
  all_shaped (Fast.commands (Fast.feed G p doc))
  /\ open_ok (Fast.feed G p doc).
Proof.
  unfold Fast.feed; revert p; induction doc as [|para doc IH]; intros p H;
    cbn [fold_left]; [assumption|].
  now apply IH, step_shaped.
Qed.

(** Every record of the output is stored under its own mnemonic, holds
    a text as its description (which may be the empty text) and a group,
    and has each of its conditions, returns, arguments, examples and
    related commands either absent or not empty: under these five keys
    an empty text or an empty list is never stored.  Nothing is said of
    the syntax lines, which may be none. *)
Theorem output_records_are_normalized (doc : list Fast.paragraph)
    (k : string) (c : Fast.cmd) :
  In (k, c) (Fast.commands (Fast.extract G doc)) ->
  k = Fast.scpi c
  /\ (exists d, Fast.description c = Some d)
  /\ (exists g, Fast.group c = Some g)
  /\ (Fast.conditions c = None \/ Fast.truthy (Fast.conditions c) = true)
  /\ (Fast.returns c = None \/ Fast.truthy (Fast.returns c) = true)
  /\ (Fast.arguments c = None \/ Fast.truthy (Fast.arguments c) = true)
  /\ (Fast.examples c = None \/ Fast.truthy_list (Fast.examples c) = true)
  /\ (Fast.relatedCommands c = None
      \/ Fast.truthy_list (Fast.relatedCommands c) = true).
Proof.
  intros Hin.
  assert (Hs : shaped c).
  { assert (H : all_shaped (Fast.commands (Fast.extract G doc))).
    { unfold Fast.extract.
      destruct (feed_shaped doc Fast.initial) as [H1 H2];
        [split; [intros k' v' [] | exact I]|].
      now apply finalize_shaped. }
    exact (H k c Hin). }
  assert (Hk : Notions.stored_ok G (Fast.commands (Fast.extract G doc))).
  { unfold Fast.extract; apply finalize_ok, feed_ok; intros k' v' []. }
  destruct Hs as [S1 [S2 [S3 [S4 [S5 [S6 S7]]]]]].
  split; [exact (proj1 (Hk k c Hin))|].
  split; [destruct (Fast.description c) as [d|]; [eauto | congruence]|].
  split; [destruct (Fast.group c) as [g|]; [eauto | congruence]|].
  repeat split; assumption.
Qed.

End RecordShape.

Lemma output_records_are_normalized_witness :
  In ("ACQuire:STATE", Scenarios.acquire_record)
     (Fast.commands (Fast.extract Scenarios.small_index Scenarios.acquire_manual))
  /\ "ACQuire:STATE" = Fast.scpi Scenarios.acquire_record.
Proof.
  split; [vm_compute; left; reflexivity|].
  apply (output_records_are_normalized Scenarios.small_index
           Scenarios.acquire_manual "ACQuire:STATE" Scenarios.acquire_record).
  vm_compute; left; reflexivity.
Defined.

(** ** Merging again, and in another grouping *)

Section MergeAlgebra.

Lemma cmd_ext (a b : Fast.cmd) :
  Fast.scpi a = Fast.scpi b ->
  Fast.description a = Fast.description b ->
  Fast.conditions a = Fast.conditions b ->
  Fast.group a = Fast.group b ->
  Fast.syntax a = Fast.syntax b ->
  Fast.relatedCommands a = Fast.relatedCommands b ->
  Fast.arguments a = Fast.arguments b ->
  Fast.examples a = Fast.examples b ->
  Fast.returns a = Fast.returns b ->
  Fast.notes a = Fast.notes b -> a = b.
Proof. destruct a, b; simpl; intros; subst; reflexivity. Qed.

Lemma absorb_same {A : Type} (t : option A -> bool) (x : option A) :
  Fast.absorb t x x = x.
Proof. unfold Fast.absorb; destruct (_ && _); reflexivity. Qed.

Lemma absorb_assoc {A : Type} (t : option A -> bool) (x y z : option A) :
  Fast.absorb t (Fast.absorb t x y) z = Fast.absorb t x (Fast.absorb t y z).
Proof.
  unfold Fast.absorb.
  destruct (t x) eqn:Ex, (t y) eqn:Ey, (t z) eqn:Ez; simpl;
    rewrite ?Ex, ?Ey, ?Ez; simpl; rewrite ?Ex, ?Ey, ?Ez; reflexivity.
Qed.

Lemma filter_known (l : list string) :
  filter (fun s => negb (mem s l)) l = [].
Proof.
  assert (H : forall l', (forall x, In x l' -> In x l) ->
            filter (fun s => negb (mem s l)) l' = []).
  { induction l' as [|a l' IH]; intros Hsub; simpl; [reflexivity|].
    assert (E : mem a l = true) by (apply mem_true_iff, Hsub; now left).
    rewrite E; simpl; apply IH; intros x Hx; apply Hsub; now right. }
  apply H; auto.
Qed.

Lemma mem_filter (f : string -> bool) (l : list string) (x : string) :
  mem x (filter f l) = mem x l && f x.
Proof.
  induction l as [|a l IH]; simpl; [reflexivity|].
  destruct (f a) eqn:Ea; simpl; rewrite IH.
  - destruct (x =? a) eqn:E; simpl; [|reflexivity].
    apply String.eqb_eq in E; subst; now rewrite Ea.
  - destruct (x =? a) eqn:E; simpl; [|reflexivity].
    apply String.eqb_eq in E; subst; rewrite Ea.
    now rewrite andb_false_r.
Qed.

Lemma filter_twice {A : Type} (f g : A -> bool) (l : list A) :
  filter f (filter g l) = filter (fun x => g x && f x) l.
Proof.
  induction l as [|a l IH]; simpl; [reflexivity|].
  destruct (g a); simpl; [destruct (f a); now rewrite IH | exact IH].
Qed.

Lemma merge_same (a : Fast.cmd) : Fast.merge a a = a.
Proof.
  destruct (merge_fields a a)
    as [H1 [H2 [H3 [H4 [H5 [H6 [H7 [H8 [H9 H10]]]]]]]]].
  apply cmd_ext; try assumption;
    rewrite ?H2, ?H3, ?H4, ?H5, ?H6, ?H7; try apply absorb_same.
  now rewrite H8, filter_known, app_nil_r.
Qed.

Lemma merge_assoc (a b c : Fast.cmd) :
  Fast.merge (Fast.merge a b) c = Fast.merge a (Fast.merge b c).
Proof.
  - destruct (merge_fields (Fast.merge a b) c)
      as [L1 [L2 [L3 [L4 [L5 [L6 [L7 [L8 [L9 L10]]]]]]]]].
    destruct (merge_fields a (Fast.merge b c))
      as [R1 [R2 [R3 [R4 [R5 [R6 [R7 [R8 [R9 R10]]]]]]]]].
    destruct (merge_fields a b)
      as [A1 [A2 [A3 [A4 [A5 [A6 [A7 [A8 [A9 A10]]]]]]]]].
    destruct (merge_fields b c)
      as [B1 [B2 [B3 [B4 [B5 [B6 [B7 [B8 [B9 B10]]]]]]]]].
    apply cmd_ext.
    + congruence.
    + rewrite L2, R2, A2, B2; apply absorb_assoc.
    + rewrite L6, R6, A6, B6; apply absorb_assoc.
    + rewrite L3, R3, A3, B3; apply absorb_assoc.
    + rewrite L8, R8, A8, B8, filter_app, <- app_assoc, filter_twice.
      f_equal; f_equal; apply filter_ext; intros s.
      rewrite mem_app, mem_filter.
      destruct (mem s (Fast.syntax a)), (mem s (Fast.syntax b)); reflexivity.
    + congruence.
    + rewrite L4, R4, A4, B4; apply absorb_assoc.
    + rewrite L5, R5, A5, B5; apply absorb_assoc.
    + rewrite L7, R7, A7, B7; apply absorb_assoc.
    + congruence.
Qed.

(** Merging a record into itself gives the record, and merging three
    records gives the same record whichever two are merged first. *)
Theorem merge_idempotent_and_associative (a b c : Fast.cmd) :
  Fast.merge a a = a
  /\ Fast.merge (Fast.merge a b) c = Fast.merge a (Fast.merge b c).
Proof. split; [apply merge_same | apply merge_assoc]. Qed.

Lemma update_app_last (key : string) (f : Fast.cmd -> Fast.cmd)
    (d : list (string * Fast.cmd)) (c : Fast.cmd) :
  Fast.lookup key d = None ->
  Fast.update key f (d ++ [(key, c)]) = (d ++ [(key, f c)])%list.
Proof.
  induction d as [|[k v] d IH]; simpl.
  - now rewrite String.eqb_refl.
  - destruct (k =? key); [discriminate|]; intros H; now rewrite IH.
Qed.

Lemma update_again (key : string) (f g : Fast.cmd -> Fast.cmd)
    (d : list (string * Fast.cmd)) :
  (forall e, f (g e) = g e) ->
  Fast.update key f (Fast.update key g d) = Fast.update key g d.
Proof.
  intros H; induction d as [|[k v] d IH]; simpl; [reflexivity|].
  destruct (k =? key) eqn:E; simpl; rewrite E; [now rewrite H | now rewrite IH].
Qed.

(** Finalizing the same record a second time leaves the output as it
    is after the first time. *)
Theorem store_twice (d : list (string * Fast.cmd)) (c : Fast.cmd) :
  Fast.store (Fast.store d c) c = Fast.store d c.
Proof.
  unfold Fast.store.
  destruct (Fast.lookup (Fast.scpi c) d) as [e|] eqn:E.
  - destruct (lookup_update _ (fun existing => Fast.merge existing c) _ _ E)
      as [H _].
    rewrite H.
    apply update_again; intros e'.
    now rewrite merge_assoc, merge_same.
  - rewrite (lookup_app_new _ _ _ E).
    rewrite (update_app_last _ _ _ _ E).
    now rewrite merge_same.
Qed.

End MergeAlgebra.

(** ** The records of the font-aware script, in order *)

Section FontAwareOrder.

Variable G : Fast.command_groups.

(** What the master map holds for the header paragraphs of a document,
    in order: the spelling of each command and its group. *)
Definition header_infos (doc : list FontAware.paragraph)
  : list (string * string) :=
  flat_map (fun para => match FontAware.header_info G para with
                        | Some master_info => [master_info]
                        | None => []
                        end) doc.

Definition identity (c : FontAware.cmd) : string * string :=
  (FontAware.header c, FontAware.mapped_group c).

Definition open_identity (p : FontAware.parser) : list (string * string) :=
  match FontAware.current_cmd p with Some c => [identity c] | None => [] end.

Lemma flushed_identity (p : FontAware.parser) :
  map identity (FontAware.flushed p) = open_identity p.
Proof.
  unfold FontAware.flushed, open_identity.
  destruct (FontAware.current_cmd p); reflexivity.
Qed.

Lemma step_trace_fa (p : FontAware.parser) (para : FontAware.paragraph) :
  (map identity (FontAware.commands (FontAware.step G p para))
   ++ open_identity (FontAware.step G p para))%list
  = (map identity (FontAware.commands p) ++ open_identity p
     ++ header_infos [para])%list.
Proof.
  unfold header_infos; cbn [flat_map]; rewrite app_nil_r.
  unfold FontAware.step.
  destruct (negb (nonempty (strip (FontAware.text para)))) eqn:E0.
  { unfold FontAware.header_info; rewrite E0; now rewrite app_nil_r. }
  destruct (FontAware.header_info G para) as [[original grp]|].
  - unfold open_identity at 1; simpl.
    now rewrite map_app, flushed_identity, <- app_assoc.
  - rewrite app_nil_r; unfold open_identity.
    destruct (FontAware.current_cmd p) eqn:E; [|rewrite E; reflexivity].
    destruct (FontAware.SECTION_MAP _); simpl; [reflexivity|].
    destruct (_ || _); reflexivity.
Qed.

Lemma feed_trace_fa (doc : list FontAware.paragraph) (p : FontAware.parser) :
  (map identity (FontAware.commands (FontAware.feed G p doc))
   ++ open_identity (FontAware.feed G p doc))%list
  = (map identity (FontAware.commands p) ++ open_identity p
     ++ header_infos doc)%list.
Proof.
  unfold FontAware.feed; revert p; induction doc as [|para doc IH]; intros p;
    cbn [fold_left].
  - unfold header_infos; simpl; now rewrite app_nil_r.
  - rewrite IH, app_assoc, step_trace_fa.
    change (para :: doc) with ([para] ++ doc)%list.
    unfold header_infos; rewrite flat_map_app, !app_assoc; reflexivity.
Qed.

(** [extract_commands] returns one record for each header paragraph, in
    the order of the document, and each carries the spelling and the
    group that the master map holds for the text of its header. *)
Theorem extract_commands_in_document_order (doc : list FontAware.paragraph) :
  map identity (FontAware.extract_commands G doc) = header_infos doc.
Proof.
  unfold FontAware.extract_commands.
  rewrite map_app, flushed_identity.
  apply (feed_trace_fa doc FontAware.initial).
Qed.

End FontAwareOrder.

(** ** The two syntax loops of [extract_fast.py] *)

Section TwoLoops.

Definition first_filled (l : list string) : string :=
  hd "" (filter nonempty l).

Lemma first_filled_snoc (l : list string) (v : string) :
  first_filled (l ++ [v]) = Fast.unless_set (first_filled l) v.
Proof.
  unfold first_filled, Fast.unless_set; rewrite filter_app.
  destruct (filter nonempty l) as [|x r] eqn:E; simpl.
  - destruct v; reflexivity.
  - assert (Hx : nonempty x = true).
    { assert (Hin : In x (filter nonempty l)) by (rewrite E; now left).
      apply filter_In in Hin; tauto. }
    now rewrite Hx.
Qed.

Lemma loops_step (cmd_key raw : string) (sets queries : list string) :
  Fast.split_step cmd_key (first_filled sets, first_filled queries) raw
  = (first_filled (fst (Fast.separate_step cmd_key (sets, queries) raw)),
     first_filled (snd (Fast.separate_step cmd_key (sets, queries) raw))).
Proof.
  unfold Fast.split_step, Fast.separate_step.
  destruct (negb (nonempty (strip raw))); [reflexivity|].
  destruct (contains "?" (strip raw)).
  - destruct (Fast.double_header_split _ _) as [[ps pq]|].
    + destruct (nonempty ps), (nonempty pq); simpl;
        rewrite ?first_filled_snoc; reflexivity.
    + destruct (Fast.query_tail_split _) as [[ps pq]|]; simpl;
        rewrite ?first_filled_snoc; reflexivity.
  - simpl; now rewrite first_filled_snoc.
Qed.

(** The two loops over the syntax lines agree: the set form and the
    query form that the second loop leaves in its two variables (before
    lines 619-631 drop the set form of a query-only command and fill in
    forms that are missing) are the first non-empty set line and the
    first non-empty query line of the lists the first loop builds, from
    which the parameters of the entry are made. *)
Theorem split_agrees_with_separate (cmd_key : string)
    (syntax_lines : list string) :
  Fast.split_syntax cmd_key syntax_lines
  = (first_filled (fst (Fast.separate cmd_key syntax_lines)),
     first_filled (snd (Fast.separate cmd_key syntax_lines))).
Proof.
  unfold Fast.split_syntax, Fast.separate.
  change ("", "") with (first_filled [], first_filled []).
  generalize (@nil string) at 1 3 5 as sets.
  generalize (@nil string) as queries.
  induction syntax_lines as [|raw lines IH]; intros queries sets;
    cbn [fold_left]; [reflexivity|].
  rewrite loops_step.
  destruct (Fast.separate_step cmd_key (sets, queries) raw) as [s' q'].
  apply IH.
Qed.

End TwoLoops.

(** ** Names of the parameters of [extract_fast.py] *)

Section ParameterNames.

(** The names recorded cover the parameters emitted: each parameter is
    recorded under its name, or is the one named "source" recorded as
    "value"; "source" itself is never recorded. *)
Definition names_ok (acc : Fast.pstate) : Prop :=
  NoDup (map Fast.p_name (fst acc))
  /\ (forall p, In p (fst acc) ->
        mem (Fast.p_name p) (snd acc) = true
        \/ (Fast.p_name p = "source" /\ mem "value" (snd acc) = true))
  /\ mem "source" (snd acc) = false.

Lemma NoDup_snoc {A : Type} (l : list A) (x : A) :
  NoDup l -> ~ In x l -> NoDup (l ++ [x]).
Proof.
  induction l as [|a l IH]; intros Hnd Hx; simpl.
  - constructor; [intros [] | constructor].
  - inversion Hnd; subst; constructor.
    + intros Hin; apply in_app_or in Hin; destruct Hin as [Hin|[<-|[]]];
        [contradiction | apply Hx; now left].
    + apply IH; [assumption | intros Hin; apply Hx; now right].
Qed.

Lemma emit_names_ok (key : string) (p : Fast.param) (acc : Fast.pstate) :
  (key =? "source") = false ->
  Fast.p_name p = key \/ (Fast.p_name p = "source" /\ key = "value") ->
  names_ok acc -> names_ok (Fast.emit key p acc).
Proof.
  intros Hk Hp [H1 [H2 H3]]; unfold Fast.emit.
  destruct (mem key (snd acc)) eqn:E; [repeat split; assumption|].
  unfold names_ok; cbn [fst snd]; repeat split.
  - rewrite map_app; cbn [map].
    apply NoDup_snoc; [assumption|].
    intros Hin; apply in_map_iff in Hin; destruct Hin as [p' [Hn Hp']].
    destruct (H2 p' Hp') as [Hm|[Hs Hv]].
    + destruct Hp as [Hp|[Hp ->]].
      * rewrite Hn, Hp, E in Hm; discriminate.
      * rewrite Hn, Hp, H3 in Hm; discriminate.
    + destruct Hp as [Hp|[Hp ->]].
      * rewrite Hn, Hp in Hs; rewrite Hs in Hk; vm_compute in Hk;
          discriminate Hk.
      * rewrite E in Hv; discriminate Hv.
  - intros p' Hp'; rewrite !mem_app.
    apply in_app_or in Hp'; destruct Hp' as [Hp'|[<-|[]]].
    + destruct (H2 p' Hp') as [Hm|[Hs Hv]]; [left | right];
        rewrite ?Hm, ?Hv; auto.
    + destruct Hp as [Hp|[Hp ->]].
      * left; rewrite Hp; unfold mem at 2; cbn [existsb].
        now rewrite String.eqb_refl, orb_true_r.
      * right; split; [assumption|].
        now rewrite orb_true_r.
  - rewrite mem_app, H3; unfold mem; cbn [existsb].
    now rewrite (String.eqb_sym "source" key), Hk.
Qed.

Lemma mnemonic_names_ok (cmd_key : string) (defs : list (string * string))
    (acc : Fast.pstate) :
  forallb (fun d => negb (snd d =? "source")) defs = true ->
  names_ok acc -> names_ok (fold_left (Fast.mnemonic_step cmd_key) defs acc).
Proof.
  revert acc; induction defs as [|d defs IH]; intros acc H Hacc;
    cbn [forallb fold_left] in *; [assumption|].
  apply andb_prop in H; destruct H as [Hd H].
  apply IH; [assumption|].
  unfold Fast.mnemonic_step; destruct (Re.found _); [|assumption].
  apply emit_names_ok; [now apply negb_true_iff | now left | assumption].
Qed.

Lemma brace_names_ok (acc : Fast.pstate) (m : Re.rmatch) :
  names_ok acc -> names_ok (Fast.brace_step acc m).
Proof.
  intros H; unfold Fast.brace_step.
  destruct (Fast.bar_options _) as [|o l]; [assumption|].
  destruct (forallb _ _); [assumption|].
  destruct (flat_map _ _).
  - repeat match goal with
           | |- context [if ?b then _ else _] => destruct b
           end; try assumption;
      (apply emit_names_ok; [reflexivity | now left | assumption]).
  - apply emit_names_ok; [reflexivity | | assumption].
    cbn [Fast.p_name]; destruct (existsb snd _); auto.
Qed.

Lemma braces_names_ok (lines : list string) (acc : Fast.pstate) :
  names_ok acc -> names_ok (fold_left Fast.braces_step lines acc).
Proof.
  revert acc; induction lines as [|s lines IH]; intros acc H;
    cbn [fold_left]; [assumption|].
  apply IH; unfold Fast.braces_step.
  generalize (Re.finditer false Fast.re_braces s); intros ms.
  revert acc H; induction ms as [|m ms IHm]; intros acc H; cbn [fold_left];
    [assumption|].
  now apply IHm, brace_names_ok.
Qed.

(** No two parameters of an entry have the same name. *)
Theorem parameter_names_are_distinct (cmd_key : string) (c : Fast.cmd) :
  NoDup (map Fast.p_name (Fast.build_params cmd_key c)).
Proof.
  unfold Fast.build_params.
  match goal with
  | |- context [fst ?acc] => assert (H : names_ok acc); [|exact (proj1 H)]
  end.
  unfold Fast.description_step.
  match goal with |- context [if ?b then _ else _] => destruct b end;
    [apply emit_names_ok; [reflexivity | now left |]|];
    (unfold Fast.example_step;
     match goal with |- context [if ?b then _ else _] => destruct b end;
     [apply emit_names_ok; [reflexivity | now left |]|]);
    (apply braces_names_ok;
     unfold Fast.qstring_step;
     match goal with |- context [if ?b then _ else _] => destruct b end;
     [apply emit_names_ok; [reflexivity | now left |]|];
     (unfold Fast.numeric_step;
      match goal with |- context [if ?b then _ else _] => destruct b end;
      [apply emit_names_ok; [reflexivity | now left |]|]);
     (unfold Fast.header_enum_step;
      destruct (Re.search true Fast.re_header_enum cmd_key) as [m|];
      [destruct (Fast.bar_options (Re.group m 1));
       [|apply emit_names_ok; [reflexivity | now left |]]|]);
     (apply mnemonic_names_ok;
      [reflexivity
      | unfold names_ok; simpl;
        split; [constructor | split; [intros p [] | reflexivity]]])).
Qed.

End ParameterNames.

(** ** The command type *)

Section CommandType.

Lemma synthesized_query_nonempty (query_syntax header : string) :
  nonempty (Fast.unless_set query_syntax
              (if endswith header "?" then header else header ++ "?")) = true.
Proof.
  unfold Fast.unless_set.
  destruct (nonempty query_syntax) eqn:E; [exact E|].
  destruct (endswith header "?") eqn:E'.
  - destruct header; [discriminate E' | reflexivity].
  - destruct header; reflexivity.
Qed.

(** In [extract_fast.py] and in the MSO script a query form is always
    written, synthesized from the mnemonic when the syntax lines give
    none, so the command type is "query" or "both" and never "set",
    whatever the syntax lines are. *)
Theorem command_type_is_never_set (cmd_key desc : string)
    (syntax_lines : list string) :
  nonempty (snd (Fast.manual_syntax cmd_key desc syntax_lines)) = true
  /\ (Output.command_type cmd_key desc syntax_lines = "query"
      \/ Output.command_type cmd_key desc syntax_lines = "both")
  /\ nonempty (snd (MSO.detect_command_type syntax_lines cmd_key)) = true
  /\ (MSOType.command_type syntax_lines cmd_key = "query"
      \/ MSOType.command_type syntax_lines cmd_key = "both").
Proof.
  assert (H1 : nonempty (snd (Fast.manual_syntax cmd_key desc syntax_lines))
               = true).
  { unfold Fast.manual_syntax.
    destruct (Fast.split_syntax cmd_key syntax_lines) as [s q].
    destruct (Fast.is_query_only _ _ _); cbn [snd];
      apply synthesized_query_nonempty. }
  assert (H2 : nonempty (snd (MSO.detect_command_type syntax_lines cmd_key))
               = true).
  { unfold MSO.detect_command_type.
    destruct syntax_lines as [|l ls].
    - destruct (endswith cmd_key "?") eqn:E; cbn [snd].
      + destruct cmd_key; [discriminate E | reflexivity].
      + destruct cmd_key; reflexivity.
    - destruct (fold_left _ _ _) as [s q]; cbn [snd].
      apply synthesized_query_nonempty. }
  repeat split; try assumption.
  - unfold Output.command_type.
    destruct (Fast.manual_syntax cmd_key desc syntax_lines) as [s q].
    cbn [snd] in H1; rewrite H1.
    destruct (Fast.is_query_only _ _ _); [now left|].
    destruct (Fast.truthy s); simpl; auto.
  - unfold MSOType.command_type.
    destruct syntax_lines as [|l ls];
      [destruct (endswith cmd_key "?"); auto|].
    destruct (MSO.detect_command_type (l :: ls) cmd_key) as [s q].
    cbn [snd] in H2; rewrite H2.
    destruct (Fast.truthy s); simpl; auto.
Qed.

End CommandType.

(** ** Filing the commands under their groups *)

Section Grouping.

Context {K V : Type}.
Variable eqb : K -> K -> bool.
Hypothesis eqb_eq : forall x y, eqb x y = true <-> x = y.

(** [groups_dict.get(g)] *)
Fixpoint group_get (g : K) (d : list (K * list V)) : option (list V) :=
  match d with
  | [] => None
  | (k, entries) :: d' => if eqb k g then Some entries else group_get g d'
  end.

(** The number of entries listed in all the groups together. *)
Definition listed (d : list (K * list V)) : nat :=
  list_sum (map (fun x => List.length (snd x)) d).

Lemma eqb_refl' (x : K) : eqb x x = true.
Proof. now apply eqb_eq. Qed.

Lemma get_add (g g0 : K) (e : V) (d : list (K * list V)) :
  group_get g (Groups.add eqb g0 e d)
  = if eqb g0 g
    then Some (match group_get g0 d with
               | Some entries => entries ++ [e]
               | None => [e]
               end)%list
    else group_get g d.
Proof.
  induction d as [|[k entries] d IH]; simpl.
  - destruct (eqb g0 g); reflexivity.
  - destruct (eqb k g0) eqn:Ek; simpl.
    + apply eqb_eq in Ek; subst k.
      destruct (eqb g0 g); reflexivity.
    + rewrite IH.
      destruct (eqb g0 g) eqn:Eg; [|reflexivity].
      apply eqb_eq in Eg; subst g; now rewrite Ek.
Qed.

Lemma keys_add (g : K) (e : V) (d : list (K * list V)) (k : K) :
  In k (map fst (Groups.add eqb g e d)) -> In k (map fst d) \/ k = g.
Proof.
  induction d as [|[k0 entries] d IH]; simpl.
  - intros [<-|[]]; now right.
  - destruct (eqb k0 g); simpl; [tauto|].
    intros [<-|H]; [tauto|]. destruct (IH H); tauto.
Qed.

Lemma NoDup_add (g : K) (e : V) (d : list (K * list V)) :
  NoDup (map fst d) -> NoDup (map fst (Groups.add eqb g e d)).
Proof.
  induction d as [|[k entries] d IH]; simpl; intros H.
  - constructor; [intros [] | constructor].
  - inversion H; subst.
    destruct (eqb k g) eqn:E; simpl; [assumption|].
    constructor; [|now apply IH].
    intros Hin; apply keys_add in Hin; destruct Hin as [Hin | ->];
      [contradiction|].
    rewrite eqb_refl' in E; discriminate.
Qed.

Lemma listed_add (g : K) (e : V) (d : list (K * list V)) :
  listed (Groups.add eqb g e d) = S (listed d).
Proof.
  unfold listed; induction d as [|[k entries] d IH]; simpl; [reflexivity|].
  destruct (eqb k g); simpl; [rewrite length_app; simpl; lia | rewrite IH; lia].
Qed.

(** The loop of the output builders, for any way of naming the group of
    a command and of building its entry. *)
Definition build {C : Type} (group_name : C -> K) (entry : C -> V)
    (cmds : list C) : list (K * list V) :=
  fold_left (fun d c => Groups.add eqb (group_name c) (entry c) d) cmds [].

Lemma build_spec {C : Type} (group_name : C -> K) (entry : C -> V)
    (cmds : list C) :
  NoDup (map fst (build group_name entry cmds))
  /\ listed (build group_name entry cmds) = List.length cmds
  /\ forall g,
       group_get g (build group_name entry cmds)
       = match map entry (filter (fun c => eqb (group_name c) g) cmds) with
         | [] => None
         | entries => Some entries
         end.
Proof.
  unfold build; induction cmds as [|c cmds IH] using rev_ind.
  - simpl; repeat split; constructor.
  - rewrite fold_left_app; cbn [fold_left].
    destruct IH as [H1 [H2 H3]]; repeat split.
    + now apply NoDup_add.
    + rewrite listed_add, H2, length_app; simpl; lia.
    + intros g; rewrite get_add, filter_app, map_app; cbn [filter].
      destruct (eqb (group_name c) g) eqn:E; cbn [map].
      * apply eqb_eq in E; subst g; rewrite H3.
        destruct (map entry (filter _ cmds)); reflexivity.
      * rewrite app_nil_r; apply H3.
Qed.

End Grouping.

Lemma group_eqb_eq (x y : option string) :
  Output.group_eqb x y = true <-> x = y.
Proof.
  destruct x as [x|], y as [y|]; simpl; split; intros H;
    try discriminate; try reflexivity.
  - apply String.eqb_eq in H; now subst.
  - injection H as ->; apply String.eqb_refl.
Qed.

(** In the output of either script every command is listed once, under
    the group it carries and in the order of the commands, no group
    name occurs twice, and the commands listed in the groups are as
    many as the total written to the metadata. *)
Theorem groups_partition_the_commands (commands : list (string * Fast.cmd))
    (raw_commands : list FontAware.cmd) :
  NoDup (map fst (Output.groups_dict commands))
  /\ listed (Output.groups_dict commands) = fst (Output.metadata commands)
  /\ (forall g,
        group_get Output.group_eqb g (Output.groups_dict commands)
        = match map (fun kv => Output.entry_of (fst kv) (snd kv))
                  (filter (fun kv => Output.group_eqb (Fast.group (snd kv)) g)
                     commands) with
          | [] => None
          | entries => Some entries
          end)
  /\ NoDup (map fst (FontAwarePost.groups_dict raw_commands))
  /\ listed (FontAwarePost.groups_dict raw_commands)
     = fst (FontAwarePost.metadata raw_commands)
  /\ (forall g,
        group_get String.eqb g (FontAwarePost.groups_dict raw_commands)
        = match map FontAwarePost.object_of
                  (filter (fun c => FontAwarePost.group_name c =? g)
                     raw_commands) with
          | [] => None
          | entries => Some entries
          end).
Proof.
  destruct (build_spec Output.group_eqb group_eqb_eq
              (fun kv : string * Fast.cmd => Fast.group (snd kv))
              (fun kv => Output.entry_of (fst kv) (snd kv)) commands)
    as [A1 [A2 A3]].
  destruct (build_spec String.eqb String.eqb_eq
              FontAwarePost.group_name FontAwarePost.object_of raw_commands)
    as [B1 [B2 B3]].
  repeat split; assumption.
Qed.

(** ** Validation of syntax and example lines *)

Section Validation.

Lemma map_strip_stripped (l : list string) :
  map strip (map strip l) = map strip l.
Proof.
  induction l as [|a l IH]; simpl; [reflexivity|].
  now rewrite strip_idempotent, IH.
Qed.

Lemma map_strip_filter (f : string -> bool) (l : list string) :
  map strip (filter f (map strip l)) = filter f (map strip l).
Proof.
  induction l as [|a l IH]; simpl; [reflexivity|].
  destruct (f (strip a)); simpl; [now rewrite strip_idempotent, IH | exact IH].
Qed.

Lemma filter_idempotent {A : Type} (f : A -> bool) (l : list A) :
  filter f (filter f l) = filter f l.
Proof.
  rewrite filter_twice; apply filter_ext; intros a; now destruct (f a).
Qed.

(** Validation keeps trimmed lines only, each of them an input line
    trimmed, and validating a validated list keeps all of it: syntax
    lines that start with the prefix of the command, whatever the case,
    and example lines that start with it and hold a colon. *)
Theorem validation_is_idempotent (lines : list string)
    (command_header : string) :
  FontAwarePost.validate_syntax
    (FontAwarePost.validate_syntax lines command_header) command_header
  = FontAwarePost.validate_syntax lines command_header
  /\ FontAwarePost.validate_examples
       (FontAwarePost.validate_examples lines command_header) command_header
     = FontAwarePost.validate_examples lines command_header
  /\ (forall syn,
        In syn (FontAwarePost.validate_syntax lines command_header) ->
        In syn (map strip lines) /\ nonempty syn = true
        /\ startswith (upper syn) (FontAwarePost.syntax_prefix command_header)
           = true)
  /\ (forall line,
        In line (FontAwarePost.validate_examples lines command_header) ->
        In line (map strip lines) /\ contains ":" line = true
        /\ FontAwarePost.first_is_upper line = true).
Proof.
  unfold FontAwarePost.validate_syntax, FontAwarePost.validate_examples.
  repeat split.
  - now rewrite map_strip_filter, filter_idempotent.
  - now rewrite map_strip_filter, filter_idempotent.
  - apply filter_In in H; tauto.
  - apply filter_In in H; destruct H as [_ H].
    apply andb_prop in H; tauto.
  - apply filter_In in H; destruct H as [_ H].
    apply andb_prop in H; tauto.
  - apply filter_In in H; tauto.
  - apply filter_In in H; destruct H as [_ H].
    unfold FontAwarePost.valid_example in H.
    apply andb_prop in H; tauto.
  - apply filter_In in H; destruct H as [_ H].
    unfold FontAwarePost.valid_example in H.
    repeat (apply andb_prop in H; destruct H as [H ?]); assumption.
Qed.

End Validation.

(** ** The command type of the font-aware script *)

Section FontAwareType.

Lemma contains_char (c : ascii) (s : string) :
  contains (String c "") s = any_char (Ascii.eqb c) s.
Proof.
  unfold contains; induction s as [|d t IH]; [reflexivity|].
  cbn [index_of prefix any_char].
  destruct (ascii_dec c d) as [->|n].
  - rewrite Ascii.eqb_refl; destruct t; reflexivity.
  - apply Ascii.eqb_neq in n; rewrite n; cbn [orb].
    rewrite <- IH; destruct (index_of (String c "") t); reflexivity.
Qed.

Lemma any_char_lstrip (p : ascii -> bool) (s : string) :
  (forall c, isspace c = true -> p c = false) ->
  any_char p (lstrip s) = any_char p s.
Proof.
  intros Hp; induction s as [|c s IH]; simpl; [reflexivity|].
  destruct (isspace c) eqn:E; [|reflexivity].
  now rewrite IH, (Hp c E).
Qed.

Lemma any_char_rstrip (p : ascii -> bool) (s : string) :
  (forall c, isspace c = true -> p c = false) ->
  any_char p (rstrip s) = any_char p s.
Proof.
  intros Hp; induction s as [|c s IH]; simpl; [reflexivity|].
  destruct (isspace c) eqn:E; simpl.
  - destruct (rstrip s) eqn:Er; simpl in *.
    + now rewrite (Hp c E), <- IH.
    + now rewrite <- IH.
  - now rewrite IH.
Qed.

Lemma any_char_strip (p : ascii -> bool) (s : string) :
  (forall c, isspace c = true -> p c = false) ->
  any_char p (strip s) = any_char p s.
Proof.
  intros Hp; unfold strip.
  now rewrite any_char_rstrip, any_char_lstrip.
Qed.

Lemma any_char_join (p : ascii -> bool) (sep : string) (l : list string) :
  any_char p sep = false ->
  any_char p (join sep l) = existsb (any_char p) l.
Proof.
  intros Hsep; unfold join; induction l as [|a l IH]; [reflexivity|].
  destruct l as [|b l].
  - simpl; now rewrite orb_false_r.
  - change (String.concat sep (a :: b :: l))
      with (a ++ sep ++ String.concat sep (b :: l)).
    rewrite !any_char_app, Hsep, IH; reflexivity.
Qed.

Lemma question_mark_is_no_space (c : ascii) :
  isspace c = true -> Ascii.eqb "?" c = false.
Proof.
  intros H; destruct (Ascii.eqb "?" c) eqn:E; [|reflexivity].
  apply Ascii.eqb_eq in E; subst c; discriminate H.
Qed.

Lemma contains_mark_strip (s : string) :
  contains "?" (strip s) = contains "?" s.
Proof.
  rewrite !contains_char.
  apply any_char_strip, question_mark_is_no_space.
Qed.

Lemma contains_mark_nonempty (s : string) :
  contains "?" s = true -> nonempty s = true.
Proof. destruct s; [discriminate | reflexivity]. Qed.

Lemma drop_has_char (c : ascii) (t s : string) (n : nat) :
  drop n s = String c t -> any_char (Ascii.eqb c) s = true.
Proof.
  revert n; induction s as [|d u IH]; intros n H.
  - destruct n; discriminate H.
  - destruct n as [|k]; simpl in H.
    + injection H as -> _; simpl; now rewrite Ascii.eqb_refl.
    + simpl; rewrite (IH k H); apply orb_true_r.
Qed.

Lemma endswith_mark_contains (s : string) :
  endswith s "?" = true -> contains "?" s = true.
Proof.
  unfold endswith; intros H; apply andb_prop in H; destruct H as [_ H].
  apply String.eqb_eq in H.
  rewrite contains_char; exact (drop_has_char _ _ _ _ H).
Qed.

Lemma index_of_char_none (c : ascii) (s : string) :
  index_of (String c "") s = None -> any_char (Ascii.eqb c) s = false.
Proof.
  intros H; rewrite <- contains_char; unfold contains; now rewrite H.
Qed.

Lemma index_of_char_some (c : ascii) (s : string) (k : nat) :
  index_of (String c "") s = Some k ->
  any_char (Ascii.eqb c) (take k s) = false
  /\ (String.length (drop (k + 1) s) < String.length s)%nat.
Proof.
  revert k; induction s as [|d t IH]; intros k; [discriminate|].
  cbn [index_of prefix].
  destruct (ascii_dec c d) as [->|n].
  - replace (prefix "" t) with true by (destruct t; reflexivity).
    intros H; injection H as <-; simpl; split; [reflexivity | lia].
  - destruct (index_of (String c "") t) as [k'|]; [|discriminate].
    intros H; injection H as <-.
    destruct (IH k' eq_refl) as [H1 H2].
    cbn [take any_char Nat.add drop String.length].
    apply Ascii.eqb_neq in n; rewrite n, H1; split; [reflexivity | lia].
Qed.

Lemma replace_fuel_removes (c : ascii) (fuel : nat) (s : string) :
  (String.length s <= fuel)%nat ->
  any_char (Ascii.eqb c) (replace_fuel fuel (String c "") "" s) = false.
Proof.
  revert s; induction fuel as [|f IH]; intros s H.
  - destruct s; [reflexivity | simpl in H; lia].
  - cbn [replace_fuel].
    destruct (index_of (String c "") s) as [k|] eqn:E.
    + destruct (index_of_char_some c s k E) as [H1 H2].
      rewrite any_char_app, H1; cbn [orb append String.length].
      apply IH; lia.
    + now apply index_of_char_none.
Qed.

(** Replacing every question mark by nothing leaves none. *)
Lemma replace_removes_mark (s : string) : contains "?" (replace s "?" "") = false.
Proof.
  rewrite contains_char; unfold replace; now apply replace_fuel_removes.
Qed.

Lemma find_mark_truthy (L : list string) :
  Fast.truthy (List.find (contains "?") L) = existsb (contains "?") L.
Proof.
  induction L as [|a L IH]; [reflexivity|]; cbn [List.find existsb].
  destruct (contains "?" a) eqn:E; [|exact IH].
  exact (contains_mark_nonempty a E).
Qed.

Lemma existsb_mark_strip (l : list string) :
  existsb (contains "?") (map strip l)
  = existsb (any_char (Ascii.eqb "?")) l.
Proof.
  induction l as [|a l IH]; [reflexivity|]; cbn [map existsb].
  now rewrite contains_mark_strip, contains_char, IH.
Qed.

(** The query form the loop leaves: the one it started with, when that
    is set, and otherwise the first trimmed line with a question mark. *)
Lemma forms_query (l : list string) (s0 q0 : option string) :
  snd (fold_left FontAwarePost.forms_step l (s0, q0))
  = if Fast.truthy q0 then q0
    else match List.find (contains "?") (map strip l) with
         | Some x => Some x
         | None => q0
         end.
Proof.
  revert s0 q0; induction l as [|a l IH]; intros s0 q0.
  - simpl; destruct (Fast.truthy q0); reflexivity.
  - cbn [fold_left map List.find]; unfold FontAwarePost.forms_step at 2.
    destruct (contains "?" (strip a)) eqn:Ec; cbn [negb andb].
    + destruct (Fast.truthy q0) eqn:Eq; cbn [negb andb].
      * now rewrite IH, Eq.
      * rewrite IH; cbn [Fast.truthy].
        now rewrite (contains_mark_nonempty _ Ec).
    + destruct (negb (Fast.truthy s0)); apply IH.
Qed.

(** The set form the loop leaves holds no question mark. *)
Lemma forms_set (l : list string) (s0 q0 : option string) :
  (forall x, s0 = Some x -> contains "?" x = false) ->
  forall x, fst (fold_left FontAwarePost.forms_step l (s0, q0)) = Some x ->
            contains "?" x = false.
Proof.
  revert s0 q0; induction l as [|a l IH]; intros s0 q0 H0; [exact H0|].
  cbn [fold_left]; unfold FontAwarePost.forms_step at 2.
  destruct (contains "?" (strip a)) eqn:Ec; cbn [negb andb].
  - destruct (negb (Fast.truthy q0)); apply IH; exact H0.
  - destruct (negb (Fast.truthy s0)); apply IH; [|exact H0].
    intros x Hx; injection Hx as <-; exact Ec.
Qed.

(** In the font-aware script a query is reported exactly when a query
    form is given, and that form holds a question mark.  On a syntax
    list that is not empty the query form is the first trimmed line with
    a question mark, so the form synthesized from the header is never
    used; the set form holds no question mark; and the type is "set"
    when no line has a question mark, also when no set form was
    detected.  A set that is reported comes with a set form. *)
Theorem font_aware_query_form_is_first_marked_line
    (syntax_list : list string) (command_header : string) :
  let t := FontAwarePost.detect_command_type syntax_list command_header in
  FontAwarePost.hasQuery t = Fast.truthy (FontAwarePost.querySyntax t)
  /\ (forall q, FontAwarePost.querySyntax t = Some q -> contains "?" q = true)
  /\ (FontAwarePost.hasSet t = true -> FontAwarePost.setSyntax t <> None)
  /\ FontAwarePost.commandType t
     = (if FontAwarePost.hasQuery t
        then if FontAwarePost.hasSet t then "both" else "query"
        else "set")
  /\ (syntax_list <> [] ->
      FontAwarePost.querySyntax t
      = List.find (contains "?") (map strip syntax_list)
      /\ FontAwarePost.hasQuery t
         = existsb (contains "?") syntax_list
      /\ forall s, FontAwarePost.setSyntax t = Some s ->
                   contains "?" s = false).
Proof.
  intros t; subst t.
  destruct syntax_list as [|a l].
  - unfold FontAwarePost.detect_command_type.
    destruct (endswith command_header "?") eqn:E; cbn.
    + pose proof (endswith_mark_contains _ E) as Hc.
      rewrite (contains_mark_nonempty _ Hc).
      repeat split; try congruence.
    + assert (Hc : contains "?" (command_header ++ "?") = true).
      { rewrite contains_char, any_char_app; apply orb_true_r. }
      rewrite (contains_mark_nonempty _ Hc).
      repeat split; try congruence.
  - unfold FontAwarePost.detect_command_type.
    set (L := a :: l).
    pose proof (forms_query L None None) as Hq.
    pose proof (forms_set L None None) as Hs.
    destruct (fold_left FontAwarePost.forms_step L (None, None)) as [s q].
    cbn [snd fst Fast.truthy] in Hq, Hs; subst q.
    assert (Hh : contains "?" (join " " L)
                 = Fast.truthy (List.find (contains "?") (map strip L))).
    { rewrite find_mark_truthy, existsb_mark_strip, contains_char.
      apply any_char_join; reflexivity. }
    assert (Hfind : (if negb (Fast.truthy
                               (match List.find (contains "?") (map strip L) with
                                | Some x => Some x
                                | None => None
                                end))
                        && contains "?" (join " " L)
                     then Some (if negb (endswith command_header "?")
                                then command_header ++ "?"
                                else command_header)
                     else match List.find (contains "?") (map strip L) with
                          | Some x => Some x
                          | None => None
                          end)
                    = List.find (contains "?") (map strip L)).
    { rewrite Hh.
      destruct (List.find (contains "?") (map strip L)) as [x|];
        [|reflexivity].
      cbn [Fast.truthy]; destruct (nonempty x); reflexivity. }
    cbn [FontAwarePost.hasQuery FontAwarePost.querySyntax
         FontAwarePost.hasSet FontAwarePost.setSyntax
         FontAwarePost.commandType].
    rewrite Hfind.
    split; [exact Hh|].
    split; [intros x Hx; apply find_some in Hx; tauto|].
    split.
    { intros Hset; rewrite Hset; rewrite andb_true_r.
      destruct s as [x|]; cbn [Fast.truthy negb]; [|discriminate].
      destruct (negb (nonempty x)); discriminate. }
    split.
    { destruct (contains "?" (join " " L)); cbn [andb]; reflexivity. }
    intros _; split; [reflexivity|]; split.
    { rewrite Hh, find_mark_truthy, existsb_mark_strip.
      clear; induction L as [|b L IH]; [reflexivity|]; cbn [existsb].
      now rewrite contains_char, IH. }
    intros x.
    destruct (negb (Fast.truthy s) && _).
    + intros Hx; injection Hx as <-; apply replace_removes_mark.
    + apply Hs; discriminate.
Qed.

End FontAwareType.

(** ** Validation of syntax lines in the MSO script *)

Section MSOValidation.

Lemma prefix_app (p a b : string) :
  prefix p a = true -> prefix p (a ++ b) = true.
Proof.
  revert a; induction p as [|c p IH]; intros a H.
  - destruct (a ++ b)%string; reflexivity.
  - destruct a as [|d a]; [discriminate H|].
    cbn [append prefix] in *.
    destruct (ascii_dec c d); [now apply IH | discriminate H].
Qed.

Lemma upper_app (a b : string) : upper (a ++ b) = (upper a ++ upper b)%string.
Proof.
  unfold upper; induction a as [|c a IH]; simpl; [reflexivity|].
  now rewrite IH.
Qed.

Lemma startswith_contains (s p : string) :
  startswith s p = true -> contains p s = true.
Proof.
  unfold startswith, contains; intros H.
  destruct s; cbn [index_of]; now rewrite H.
Qed.

(** What the loop keeps of [valid]: no line is empty, each starts with
    the prefix of the command or is a line of options, and the first
    starts with the prefix. *)
Definition kept (prefix : string) (valid : list string) : Prop :=
  Forall (fun line => nonempty line = true
                      /\ (startswith (upper line) prefix = true
                          \/ startswith line "{" = true)) valid
  /\ match valid with
     | [] => True
     | first :: _ => startswith (upper first) prefix = true
     end.

Lemma kept_snoc (prefix : string) (valid : list string) (syn : string) :
  kept prefix valid -> nonempty syn = true ->
  (startswith (upper syn) prefix = true
   \/ (startswith syn "{" = true /\ valid <> [])) ->
  kept prefix (valid ++ [syn]).
Proof.
  intros [HF Hh] Hn Hs; split.
  - apply Forall_app; split; [exact HF|].
    constructor; [|constructor]; split; [exact Hn | tauto].
  - destruct valid as [|x valid]; [|exact Hh].
    destruct Hs as [Hs | [_ Hs]]; [exact Hs | congruence].
Qed.

Lemma validate_step_kept (prefix : string) (valid : list string)
    (raw : string) :
  kept prefix valid -> kept prefix (MSOPost.validate_step prefix valid raw).
Proof.
  intros HK; unfold MSOPost.validate_step.
  destruct (nonempty (strip raw)) eqn:En; cbn [negb]; [|exact HK].
  destruct (startswith (strip raw) "{" && contains "|" (strip raw)
            && MSOPost.filled valid) eqn:Eo.
  - apply andb_prop in Eo; destruct Eo as [Eo Ef].
    apply andb_prop in Eo; destruct Eo as [Eb _].
    assert (Hne : valid <> []) by (destruct valid; [discriminate Ef | congruence]).
    rewrite Ef; cbn [andb].
    destruct (negb (contains "?" (last valid ""))
              && negb (contains "{" (last valid ""))) eqn:Em.
    + apply andb_prop in Em; destruct Em as [_ Em].
      apply negb_true_iff in Em.
      destruct HK as [HF Hh].
      rewrite (app_removelast_last "" Hne) in HF, Hh.
      apply Forall_app in HF; destruct HF as [HR HL].
      inversion HL as [|? ? [Hn Hp] _]; subst.
      assert (Hpre : startswith (upper (last valid "")) prefix = true).
      { destruct Hp as [Hp|Hp]; [exact Hp|].
        apply startswith_contains in Hp; congruence. }
      assert (Hnew : startswith (upper (last valid "" ++ " " ++ strip raw))
                       prefix = true).
      { rewrite upper_app; unfold startswith; apply prefix_app; exact Hpre. }
      split.
      * apply Forall_app; split; [exact HR|].
        constructor; [|constructor]; split; [|now left].
        destruct (last valid ""); reflexivity.
      * destruct (removelast valid) as [|x r]; [exact Hnew | exact Hh].
    + apply kept_snoc; [exact HK | exact En | right; split; assumption].
  - destruct (startswith (upper (strip raw)) prefix) eqn:Ep; [|exact HK].
    apply kept_snoc; [exact HK | exact En | now left].
Qed.

Lemma validate_step_length (prefix : string) (valid : list string)
    (raw : string) :
  List.length (MSOPost.validate_step prefix valid raw) <= S (List.length valid).
Proof.
  unfold MSOPost.validate_step.
  destruct (negb (nonempty (strip raw))); [lia|].
  destruct (startswith (strip raw) "{" && contains "|" (strip raw)
            && MSOPost.filled valid) eqn:Eo.
  - destruct (MSOPost.filled valid && negb (contains "?" (last valid ""))
              && negb (contains "{" (last valid ""))).
    + rewrite length_app, removelast_firstn_len, length_firstn; simpl; lia.
    + rewrite length_app; simpl; lia.
  - destruct (startswith _ prefix); [rewrite length_app; simpl|]; lia.
Qed.

Lemma validate_fold_kept (prefix : string) (l valid : list string) :
  kept prefix valid ->
  kept prefix (fold_left (MSOPost.validate_step prefix) l valid)
  /\ List.length (fold_left (MSOPost.validate_step prefix) l valid)
     <= List.length valid + List.length l.
Proof.
  revert valid; induction l as [|a l IH]; intros valid HK; cbn [fold_left].
  - split; [exact HK | simpl; lia].
  - destruct (IH _ (validate_step_kept prefix valid a HK)) as [H1 H2].
    split; [exact H1|].
    pose proof (validate_step_length prefix valid a); simpl; lia.
Qed.

(** The syntax lines the MSO script keeps: no more than it was given,
    none of them empty, each one starting with the prefix of the
    command, whatever the case, or else a line of options that could
    not be joined to the line before it; the first line kept is never
    a line of options. *)
Theorem mso_validation_starts_with_a_command_line
    (syntax_list : list string) (command_header : string) :
  List.length (MSOPost.validate_syntax syntax_list command_header)
  <= List.length syntax_list
  /\ (forall line,
        In line (MSOPost.validate_syntax syntax_list command_header) ->
        nonempty line = true
        /\ (startswith (upper line)
              (FontAwarePost.syntax_prefix command_header) = true
            \/ startswith line "{" = true))
  /\ match MSOPost.validate_syntax syntax_list command_header with
     | [] => True
     | first :: _ =>
         startswith (upper first)
           (FontAwarePost.syntax_prefix command_header) = true
     end.
Proof.
  unfold MSOPost.validate_syntax.
  destruct (validate_fold_kept (FontAwarePost.syntax_prefix command_header)
              syntax_list [] (conj (Forall_nil _) I)) as [[HF Hh] Hl].
  split; [exact Hl|]; split; [|exact Hh].
  intros line Hin; exact (proj1 (Forall_forall _ _) HF line Hin).
Qed.

Lemma validate_fold_plain (prefix : string) (l valid : list string) :
  forallb (fun raw => negb (startswith (strip raw) "{"
                            && contains "|" (strip raw))) l = true ->
  fold_left (MSOPost.validate_step prefix) l valid
  = (valid ++ filter (fun syn => nonempty syn && startswith (upper syn) prefix)
                     (map strip l))%list.
Proof.
  revert valid; induction l as [|a l IH]; intros valid H;
    cbn [fold_left map filter forallb] in *.
  - now rewrite app_nil_r.
  - apply andb_prop in H; destruct H as [Ha Hl].
    apply negb_true_iff in Ha.
    rewrite (IH _ Hl); unfold MSOPost.validate_step; rewrite Ha.
    destruct (nonempty (strip a)); cbn [negb andb]; [|reflexivity].
    destruct (startswith (upper (strip a)) prefix); [|reflexivity].
    now rewrite <- app_assoc.
Qed.

(** On a syntax list without a line of options on its own the MSO
    script and the font-aware script keep the same lines. *)
Theorem validations_agree_without_option_lines
    (syntax_list : list string) (command_header : string) :
  forallb (fun raw => negb (startswith (strip raw) "{"
                            && contains "|" (strip raw))) syntax_list = true ->
  MSOPost.validate_syntax syntax_list command_header
  = FontAwarePost.validate_syntax syntax_list command_header.
Proof.
  intros H; unfold MSOPost.validate_syntax, FontAwarePost.validate_syntax.
  now rewrite (validate_fold_plain _ _ [] H).
Qed.

End MSOValidation.

Lemma validations_agree_without_option_lines_witness :
  forallb (fun raw => negb (startswith (strip raw) "{"
                            && contains "|" (strip raw)))
    [" ACQuire:STATE {ON|OFF} "; "note"; "ACQuire:STATE?"] = true
  /\ MSOPost.validate_syntax
       [" ACQuire:STATE {ON|OFF} "; "note"; "ACQuire:STATE?"] "ACQuire:STATE"
     = ["ACQuire:STATE {ON|OFF}"; "ACQuire:STATE?"]
  /\ MSOPost.validate_syntax
       [" ACQuire:STATE {ON|OFF} "; "note"; "ACQuire:STATE?"] "ACQuire:STATE"
     = FontAwarePost.validate_syntax
         [" ACQuire:STATE {ON|OFF} "; "note"; "ACQuire:STATE?"] "ACQuire:STATE".
Proof.
  split; [reflexivity|]; split; [reflexivity|].
  apply (validations_agree_without_option_lines
           [" ACQuire:STATE {ON|OFF} "; "note"; "ACQuire:STATE?"]
           "ACQuire:STATE").
  reflexivity.
Defined.
